(** * Zepto case study: the personalised product recommender

    A shallow embedding of [recommender_system.py]: the [RecommenderSystem]
    class (label encoding of the categorical columns, min-max scaling of the
    numeric product attributes, the cosine-similarity matrix, the two
    recommendation methods) and the Streamlit page that prints the
    recommendations of a customer; then what holds of them.

    Conventions of the embedding.
    - A float is a real number of [R]; a NaN cell is [None].  Rounding,
      the wrap-around of an int64 column and the overflow of a float64
      one are not modelled: the statements about the values of cells are
      about exact arithmetic.  [Binary64] computes the cosine similarity
      in binary64, to show what rounding does to a cell.
    - A Python exception is the [Raise] constructor of [result].
    - A DataFrame is the list of its rows, in row order; a dict is an
      association list.
    - [num_recommendations] is a count, a [nat].
    - [Series.sort_values] is the stable sort: rows with equal values keep
      their order, as numpy's insertion sort of a short array leaves them.
      pandas promises no order among equal values: the theorems on the
      lists returned hold whatever that order is, and only the runs of
      the small datasets and the lemmas on a column of equal values show
      the stable one.
    - The iteration order of a Python [set] of strings depends on the hash
      seed of the process; it is a parameter of the customer method.

    The file has the definitions first (the library calls, the class, the
    page, predicates to read the results, five small datasets), then the
    facts: the primitives, the encoder, cosine similarity, the frames, what
    [__init__] builds, the methods, the datasets run, and the properties
    of the similarity matrix, of the feature table and of the answers. *)

From Stdlib Require Import Reals Lra Lia List String Ascii Bool Arith.
From Stdlib Require Import Permutation Sorted OrderedTypeEx.
From Stdlib Require PrimFloat.
Import ListNotations.

Open Scope string_scope.
Open Scope list_scope.

(* ===================================================================== *)
(** * Python values: exceptions, results, list primitives                 *)
(* ===================================================================== *)

Inductive exn : Set := KeyError | TypeError | ValueError | IndexError.

Inductive result (A : Type) : Type :=
| Ok (a : A)
| Raise (e : exn).
Arguments Ok {A} a.
Arguments Raise {A} e.

Definition rbind {A B} (r : result A) (k : A -> result B) : result B :=
  match r with
  | Ok a => k a
  | Raise e => Raise e
  end.

(** [l[0]] *)
Definition item0 {A} (l : list A) : result A :=
  match l with
  | x :: _ => Ok x
  | [] => Raise IndexError
  end.

(** [d[key]] on a dict kept as an association list *)
Fixpoint dict_get {V} (d : list (string * V)) (key : string) : result V :=
  match d with
  | [] => Raise KeyError
  | (k, v) :: rest => if k =? key then Ok v else dict_get rest key
  end.

(** Position of the first [v] in [l]; [len(l)] when there is none. *)
Fixpoint index_of (v : string) (l : list string) : nat :=
  match l with
  | [] => 0
  | x :: rest => if x =? v then 0 else S (index_of v rest)
  end.

(** [x in l] for a list of strings *)
Definition mem (x : string) (l : list string) : bool :=
  existsb (String.eqb x) l.

(** [l.remove(x)]: drops the first occurrence, [ValueError] when there is
    none. *)
Fixpoint list_remove (x : string) (l : list string) : result (list string) :=
  match l with
  | [] => Raise ValueError
  | y :: rest =>
      if y =? x then Ok rest
      else rbind (list_remove x rest) (fun rest' => Ok (y :: rest'))
  end.

(** Comparisons of floats, as booleans. *)
Definition Reqb (x y : R) : bool := if Req_dec_T x y then true else false.
Definition Rltb (x y : R) : bool := if Rlt_dec x y then true else false.

(* ===================================================================== *)
(** * sklearn.preprocessing.LabelEncoder                                  *)
(* ===================================================================== *)

Module LabelEncoder.

Record t : Type := Build { classes_ : list string }.

(** [np.unique]: the sorted array of the distinct values. *)
Fixpoint insert_unique (v : string) (l : list string) : list string :=
  match l with
  | [] => [v]
  | x :: rest =>
      match String.compare v x with
      | Lt => v :: x :: rest
      | Eq => x :: rest
      | Gt => x :: insert_unique v rest
      end
  end.

Definition unique (y : list string) : list string :=
  fold_right insert_unique [] y.

Definition fit (y : list string) : t := {| classes_ := unique y |}.

(** The code of a label: its position among the classes. *)
Definition code (le : t) (v : string) : nat := index_of v (classes_ le).

(** [le.transform(y)]: unseen labels raise. *)
Fixpoint transform (le : t) (y : list string) : result (list nat) :=
  match y with
  | [] => Ok []
  | v :: rest =>
      if (code le v <? List.length (classes_ le))%nat
      then rbind (transform le rest) (fun cs => Ok (code le v :: cs))
      else Raise ValueError
  end.

(** [le.fit_transform(y)]: the classes and the inverse indices of
    [np.unique(y, return_inverse=True)]. *)
Definition fit_transform (y : list string) : t * list nat :=
  let le := fit y in (le, map (code le) y).

(** [le.inverse_transform(codes)]: a code outside the classes raises. *)
Fixpoint inverse_transform (le : t) (codes : list nat) : result (list string) :=
  match codes with
  | [] => Ok []
  | c :: rest =>
      match nth_error (classes_ le) c with
      | Some v => rbind (inverse_transform le rest) (fun vs => Ok (v :: vs))
      | None => Raise ValueError
      end
  end.

End LabelEncoder.

(* ===================================================================== *)
(** * The dataset                                                         *)
(* ===================================================================== *)

(** One row of [updated_dataset.csv], restricted to the columns the
    script reads.  [A] is the type of a categorical cell: [string] as read
    from the file, [nat] once [_encode_features] has run. *)
Record row (A : Type) : Type := mk_row {
  Customer_ID : string;
  Product_ID : string;
  Gender : A;
  City : A;
  Product_Category : A;
  Payment_Method : A;
  Age_Group : A;
  Loyalty_Tier : A;
  Price : R;
  Competitor_Price : R;
  Ad_Click_Through_Rate : R;
  Browsing_Time_mins : R;
  Voice_Search_Count : R;
  Visual_Search_Count : R
}.
Arguments mk_row {A}.
Arguments Customer_ID {A}.
Arguments Product_ID {A}.
Arguments Gender {A}.
Arguments City {A}.
Arguments Product_Category {A}.
Arguments Payment_Method {A}.
Arguments Age_Group {A}.
Arguments Loyalty_Tier {A}.
Arguments Price {A}.
Arguments Competitor_Price {A}.
Arguments Ad_Click_Through_Rate {A}.
Arguments Browsing_Time_mins {A}.
Arguments Voice_Search_Count {A}.
Arguments Visual_Search_Count {A}.

(** The six columns [_encode_features] loops over, each with its
    accessor. *)
Definition categorical_columns : list (string * (forall A, row A -> A)) :=
  [ ("Gender", @Gender); ("City", @City);
    ("Product_Category", @Product_Category);
    ("Payment_Method", @Payment_Method);
    ("Age_Group", @Age_Group); ("Loyalty_Tier", @Loyalty_Tier) ].

(** The six columns [_create_product_features] rescales. *)
Definition numeric_columns : list (row nat -> R) :=
  [ Price; Competitor_Price; Ad_Click_Through_Rate;
    Browsing_Time_mins; Voice_Search_Count; Visual_Search_Count ].

(** The same six columns, by name, on a frame of either kind. *)
Definition named_numeric_columns : list (string * (forall A, row A -> R)) :=
  [ ("Price", @Price); ("Competitor_Price", @Competitor_Price);
    ("Ad_Click_Through_Rate", @Ad_Click_Through_Rate);
    ("Browsing_Time_mins", @Browsing_Time_mins);
    ("Voice_Search_Count", @Voice_Search_Count);
    ("Visual_Search_Count", @Visual_Search_Count) ].

(** [pd.read_csv] then [dropna]: a line of the file with a missing cell is
    [None]. *)
Fixpoint dropna {A} (csv : list (option (row A))) : list (row A) :=
  match csv with
  | [] => []
  | Some r :: rest => r :: dropna rest
  | None :: rest => dropna rest
  end.

(** [frame[frame['Customer_ID'] == customer_id]] *)
Definition rows_of_customer {A} (customer_id : string) (frame : list (row A))
  : list (row A) :=
  filter (fun r => Customer_ID r =? customer_id) frame.

(** [frame.drop_duplicates()] on the columns [key], keeping the first row
    of every group. *)
Fixpoint drop_duplicates_from {A K} (eqb : K -> K -> bool) (key : A -> K)
    (seen : list K) (frame : list A) : list A :=
  match frame with
  | [] => []
  | r :: rest =>
      if existsb (eqb (key r)) seen
      then drop_duplicates_from eqb key seen rest
      else r :: drop_duplicates_from eqb key (key r :: seen) rest
  end.

Definition drop_duplicates {A K} (eqb : K -> K -> bool) (key : A -> K)
    (frame : list A) : list A :=
  drop_duplicates_from eqb key [] frame.

(* ===================================================================== *)
(** * sklearn.metrics.pairwise.cosine_similarity                          *)
(* ===================================================================== *)

Module Pairwise.

Definition dot (x y : list R) : R :=
  fold_right Rplus 0%R (map (fun p => (fst p * snd p)%R) (combine x y)).

Definition row_norm (x : list R) : R := sqrt (dot x x).

(** [_handle_zeros_in_scale]: a norm of zero is replaced by one. *)
Definition handle_zeros_in_scale (n : R) : R :=
  if Reqb n 0 then 1%R else n.

(** [normalize(X)], one row: the row divided by its norm. *)
Definition normalize (x : list R) : list R :=
  map (fun a => (a / handle_zeros_in_scale (row_norm x))%R) x.

(** One cell of [normalize(X) @ normalize(X).T]. *)
Definition cosine (x y : list R) : R := dot (normalize x) (normalize y).

Definition cosine_similarity (X : list (list R)) : list (list R) :=
  map (fun x => map (fun y => cosine x y) X) X.

End Pairwise.

(** The same computation in binary64, every operation rounded to the
    nearest float: what [cosine_similarity] does to a table whose cells
    are floats. *)
Module Binary64.
Import PrimFloat.
Local Open Scope float_scope.

Definition dot (x y : list float) : float :=
  fold_right add 0 (map (fun p => fst p * snd p) (combine x y)).

Definition row_norm (x : list float) : float := sqrt (dot x x).

Definition handle_zeros_in_scale (n : float) : float :=
  if eqb n 0 then 1 else n.

Definition normalize (x : list float) : list float :=
  map (fun a => a / handle_zeros_in_scale (row_norm x)) x.

Definition cosine (x y : list float) : float := dot (normalize x) (normalize y).

Definition cosine_similarity (X : list (list float)) : list (list float) :=
  map (fun x => map (fun y => cosine x y) X) X.

(** The cell at row [i], column [j]. *)
Definition entry (m : list (list float)) (i j : nat) : float :=
  nth j (nth i m []) 0.

(** A small count as a float; exact below 2^53. *)
Fixpoint of_nat (n : nat) : float :=
  match n with
  | O => 0
  | S n' => of_nat n' + 1
  end.

Definition one : float := 1.

(** The float that follows 1: 1 + 2^-52, printed 1.0000000000000002. *)
Definition after_one : float := 0x1.0000000000001p+0.

End Binary64.

(* ===================================================================== *)
(** * class RecommenderSystem                                             *)
(* ===================================================================== *)

(** A square DataFrame of floats with row labels and column labels. *)
Record SimFrame : Type := mk_sim {
  sim_index : list string;
  sim_columns : list string;
  sim_values : list (list R)
}.

Record RecommenderSystem : Type := mk_self {
  df : list (row nat);
  label_encoders : list (string * LabelEncoder.t);
  product_features : list (string * list (option R));
  product_similarity_df : SimFrame
}.

(** ** [_encode_features] *)

(** [frame[column] = codes] for the six columns at once: row by row, the
    cell of each of the six columns is replaced by its code. *)
Fixpoint set_columns (frame : list (row string))
    (gender city category payment age loyalty : list nat) : list (row nat) :=
  match frame, gender, city, category, payment, age, loyalty with
  | r :: frame', g :: gender', c :: city', pc :: category', pm :: payment',
    ag :: age', lt :: loyalty' =>
      {| Customer_ID := Customer_ID r;
         Product_ID := Product_ID r;
         Gender := g;
         City := c;
         Product_Category := pc;
         Payment_Method := pm;
         Age_Group := ag;
         Loyalty_Tier := lt;
         Price := Price r;
         Competitor_Price := Competitor_Price r;
         Ad_Click_Through_Rate := Ad_Click_Through_Rate r;
         Browsing_Time_mins := Browsing_Time_mins r;
         Voice_Search_Count := Voice_Search_Count r;
         Visual_Search_Count := Visual_Search_Count r |}
      :: set_columns frame' gender' city' category' payment' age' loyalty'
  | _, _, _, _, _, _, _ => []
  end.

Definition _encode_features (frame : list (row string))
  : list (row nat) * list (string * LabelEncoder.t) :=
  let '(le_gender, gender) := LabelEncoder.fit_transform (map Gender frame) in
  let '(le_city, city) := LabelEncoder.fit_transform (map City frame) in
  let '(le_category, category) :=
    LabelEncoder.fit_transform (map Product_Category frame) in
  let '(le_payment, payment) :=
    LabelEncoder.fit_transform (map Payment_Method frame) in
  let '(le_age, age) := LabelEncoder.fit_transform (map Age_Group frame) in
  let '(le_loyalty, loyalty) :=
    LabelEncoder.fit_transform (map Loyalty_Tier frame) in
  (set_columns frame gender city category payment age loyalty,
   [ ("Gender", le_gender); ("City", le_city);
     ("Product_Category", le_category); ("Payment_Method", le_payment);
     ("Age_Group", le_age); ("Loyalty_Tier", le_loyalty) ]).

(** The same, one row at a time: a row under six fitted encoders. *)
Definition encode_row
    (le_gender le_city le_category le_payment le_age le_loyalty : LabelEncoder.t)
    (r : row string) : row nat :=
  {| Customer_ID := Customer_ID r;
     Product_ID := Product_ID r;
     Gender := LabelEncoder.code le_gender (Gender r);
     City := LabelEncoder.code le_city (City r);
     Product_Category := LabelEncoder.code le_category (Product_Category r);
     Payment_Method := LabelEncoder.code le_payment (Payment_Method r);
     Age_Group := LabelEncoder.code le_age (Age_Group r);
     Loyalty_Tier := LabelEncoder.code le_loyalty (Loyalty_Tier r);
     Price := Price r;
     Competitor_Price := Competitor_Price r;
     Ad_Click_Through_Rate := Ad_Click_Through_Rate r;
     Browsing_Time_mins := Browsing_Time_mins r;
     Voice_Search_Count := Voice_Search_Count r;
     Visual_Search_Count := Visual_Search_Count r |}.

(** ** [_create_product_features] *)

(** The eight columns selected before [drop_duplicates()]. *)
Definition product_key (r : row nat) : string * nat * list R :=
  (Product_ID r, Product_Category r, map (fun col => col r) numeric_columns).

Definition product_key_eqb (a b : string * nat * list R) : bool :=
  let '(ida, ca, xa) := a in
  let '(idb, cb, xb) := b in
  (ida =? idb) && (ca =? cb)%nat &&
  (List.length xa =? List.length xb)%nat &&
  forallb (fun p => Reqb (fst p) (snd p)) (combine xa xb).

(** [x.min()] and [x.max()] of a column; NaN on an empty one. *)
Definition col_min (x : list R) : option R :=
  match x with
  | [] => None
  | a :: rest => Some (fold_left Rmin rest a)
  end.

Definition col_max (x : list R) : option R :=
  match x with
  | [] => None
  | a :: rest => Some (fold_left Rmax rest a)
  end.

(** One cell of [(x - x.min()) / (x.max() - x.min())]: a constant column
    gives 0/0, a NaN.  The arithmetic is exact: the model covers the
    columns whose values are far enough from the limits of int64 and of
    float64 for [x.max() - x.min()] not to wrap around or overflow. *)
Definition min_max (x : list R) (a : R) : option R :=
  match col_min x, col_max x with
  | Some lo, Some hi =>
      if Reqb hi lo then None else Some ((a - lo) / (hi - lo))%R
  | _, _ => None
  end.

Definition _create_product_features (frame : list (row nat))
  : list (string * list (option R)) :=
  let selected := drop_duplicates product_key_eqb product_key frame in
  map (fun r =>
         (Product_ID r,
          Some (INR (Product_Category r))
            :: map (fun col => min_max (map col selected) (col r))
                 numeric_columns))
      selected.

(** ** [_calculate_similarity] *)

(** sklearn's input check: a NaN cell is refused. *)
Fixpoint finite_row (v : list (option R)) : option (list R) :=
  match v with
  | [] => Some []
  | Some a :: rest => option_map (cons a) (finite_row rest)
  | None :: _ => None
  end.

Fixpoint finite_rows (X : list (list (option R))) : option (list (list R)) :=
  match X with
  | [] => Some []
  | v :: rest =>
      match finite_row v, finite_rows rest with
      | Some v', Some rest' => Some (v' :: rest')
      | _, _ => None
      end
  end.

Definition _calculate_similarity (features : list (string * list (option R)))
  : result SimFrame :=
  match features with
  | [] => Raise ValueError
  | _ :: _ =>
      match finite_rows (map snd features) with
      | None => Raise ValueError
      | Some X =>
          Ok {| sim_index := map fst features;
                sim_columns := map fst features;
                sim_values := Pairwise.cosine_similarity X |}
      end
  end.

(** ** [__init__] *)
Definition __init__ (csv : list (option (row string))) : result RecommenderSystem :=
  let raw := dropna csv in
  let '(frame, encoders) := _encode_features raw in
  let features := _create_product_features frame in
  rbind (_calculate_similarity features) (fun sim =>
    Ok {| df := frame;
          label_encoders := encoders;
          product_features := features;
          product_similarity_df := sim |}).

(** ** Methods

    A method reads the instance and may raise; the instance is threaded
    through, so what a call leaves behind can be stated. *)
Definition M (A : Type) : Type :=
  RecommenderSystem -> result A * RecommenderSystem.

Definition ret {A} (a : A) : M A := fun self => (Ok a, self).

Definition lift {A} (r : result A) : M A := fun self => (r, self).

Definition gets {A} (field : RecommenderSystem -> A) : M A :=
  fun self => (Ok (field self), self).

Definition bind {A B} (m : M A) (k : A -> M B) : M B :=
  fun self =>
    match m self with
    | (Ok a, self') => k a self'
    | (Raise e, self') => (Raise e, self')
    end.

Notation "x <- m ;; k" := (bind m (fun x => k))
  (at level 61, m at next level, right associativity).

(** [frame[label]]: the column with that label as a Series, a KeyError
    when there is none, and a sub-frame when several columns carry it. *)
Inductive selection : Type :=
| Series (s : list (string * R))
| SubFrame (width : nat).

Fixpoint positions (label : string) (labels : list string) (i : nat) : list nat :=
  match labels with
  | [] => []
  | l :: rest =>
      if l =? label then i :: positions label rest (S i)
      else positions label rest (S i)
  end.

Definition getitem (frame : SimFrame) (label : string) : result selection :=
  match positions label (sim_columns frame) 0 with
  | [] => Raise KeyError
  | [j] =>
      Ok (Series (combine (sim_index frame)
                    (map (fun r => nth j r 0%R) (sim_values frame))))
  | js => Ok (SubFrame (List.length js))
  end.

(** [s.sort_values(ascending=False)]: largest first, rows of equal value
    in their order (pandas' default sort promises no order among them).
    On a frame the call lacks its [by] argument. *)
Fixpoint insert_desc (p : string * R) (s : list (string * R)) : list (string * R) :=
  match s with
  | [] => [p]
  | q :: rest =>
      if Rltb (snd p) (snd q) then q :: insert_desc p rest
      else p :: q :: rest
  end.

Definition sort_desc (s : list (string * R)) : list (string * R) :=
  fold_right insert_desc [] s.

Definition sort_values (sel : selection) : result (list (string * R)) :=
  match sel with
  | Series s => Ok (sort_desc s)
  | SubFrame _ => Raise TypeError
  end.

(** ** [recommend_products] *)
Definition recommend_products (product_id : string) (num_recommendations : nat)
  : M (list string) :=
  sim <- gets product_similarity_df ;;
  column <- lift (getitem sim product_id) ;;
  sorted <- lift (sort_values column) ;;
  let similar_products := map fst (firstn (num_recommendations + 1) sorted) in
  lift (list_remove product_id similar_products).

Section Customer.

(** [set_iteration added] is the order in which a set iterates after
    the strings of [added] were added to it, in that sequence. *)
Variable set_iteration : list string -> list string.

(** The loop over the customer's rows: [added] is every string passed
    to [recommended_products.update] so far. *)
Fixpoint update_from (product_ids : list string) (num_recommendations : nat)
    (added : list string) : M (list string) :=
  match product_ids with
  | [] => ret added
  | product_id :: rest =>
      recs <- recommend_products product_id num_recommendations ;;
      update_from rest num_recommendations (added ++ recs)
  end.

(** ** [recommend_products_for_customer] *)
Definition recommend_products_for_customer (customer_id : string)
    (num_recommendations : nat)
  : M (list string * list string * string * string) :=
  frame <- gets df ;;
  let customer_data := rows_of_customer customer_id frame in
  match customer_data with
  | [] => ret ([], [], "Unknown", "Unknown")
  | first :: _ =>
      let customer_city_encoded := City first in
      encoders <- gets label_encoders ;;
      le_city <- lift (dict_get encoders "City") ;;
      cities <- lift (LabelEncoder.inverse_transform le_city [customer_city_encoded]) ;;
      customer_city <- lift (item0 cities) ;;
      let customer_age_group_encoded := Age_Group first in
      encoders <- gets label_encoders ;;
      le_age <- lift (dict_get encoders "Age_Group") ;;
      ages <- lift (LabelEncoder.inverse_transform le_age [customer_age_group_encoded]) ;;
      customer_age_group <- lift (item0 ages) ;;
      added <- update_from (map Product_ID customer_data) num_recommendations [] ;;
      let recommended_products := firstn num_recommendations (set_iteration added) in
      frame <- gets df ;;
      let recommended_product_categories :=
        drop_duplicates String.eqb Product_ID
          (filter (fun r => mem (Product_ID r) recommended_products) frame) in
      encoders <- gets label_encoders ;;
      le_category <- lift (dict_get encoders "Product_Category") ;;
      categories <- lift (LabelEncoder.inverse_transform le_category
                            (map Product_Category recommended_product_categories)) ;;
      ret (recommended_products, categories, customer_city, customer_age_group)
  end.

(** ** The Streamlit page, once the button is pressed *)
Inductive page : Type :=
| Warning (message : string)
| Details (customer_id city age_group : string) (products : list (string * string)).

Definition on_get_recommendations (customer_id : string) : M page :=
  answer <- recommend_products_for_customer customer_id 5 ;;
  let '(customer_recommendations, product_categories, customer_city, customer_age_group) := answer in
  match customer_recommendations with
  | [] => ret (Warning "No recommendations found for this customer ID. Please check the ID and try again.")
  | _ :: _ =>
      ret (Details customer_id customer_city customer_age_group
             (combine customer_recommendations product_categories))
  end.

End Customer.

(* ===================================================================== *)
(** * Reading the results                                                 *)
(* ===================================================================== *)

(** The cell of the similarity frame at row [i], column [j]. *)
Definition entry (sim : SimFrame) (i j : nat) : R :=
  nth j (nth i (sim_values sim) []) 0%R.

(** [sim.loc[a, b]] when each label occurs once. *)
Definition loc (sim : SimFrame) (a b : string) : R :=
  entry sim (index_of a (sim_index sim)) (index_of b (sim_columns sim)).

(** Row [a] of a column does not come after row [b] when the column is
    sorted largest first. *)
Definition above (a b : string * R) : Prop := (snd b <= snd a)%R.

(** The list is in descending order of [score]. *)
Definition ranked_descending (score : string -> R) (l : list string) : Prop :=
  forall i j x y, (i < j)%nat ->
    nth_error l i = Some x -> nth_error l j = Some y -> (score y <= score x)%R.

(** No product of the catalog left out of [l] scores above one of [l]. *)
Definition none_better_omitted (score : string -> R) (catalog l : list string) : Prop :=
  forall x y, In x catalog -> ~ In x l -> In y l -> (score x <= score y)%R.

(** A cell, and a feature vector, rescaled into the unit interval. *)
Definition unit_cell (c : option R) : Prop :=
  exists a, c = Some a /\ (0 <= a <= 1)%R.

Definition normalized (v : list (option R)) : Prop := Forall unit_cell v.

(** The i-th category is the category of the i-th product: [categories]
    pairs with [products] as the rows of [frame] say. *)
Definition aligned (frame : list (row string)) (products categories : list string) : Prop :=
  List.length categories = List.length products /\
  forall i p c, nth_error products i = Some p -> nth_error categories i = Some c ->
    exists r, In r frame /\ Product_ID r = p /\ Product_Category r = c.

(** Two iteration orders a set of strings may have. *)
Definition insertion_order (added : list string) : list string :=
  nodup string_dec added.

Definition reversed_order (added : list string) : list string :=
  rev (nodup string_dec added).

(* ===================================================================== *)
(** * Small datasets                                                      *)
(* ===================================================================== *)

Definition csv_line (customer product gender city category payment age loyalty : string)
    (price competitor clicks browsing voice visual : R) : option (row string) :=
  Some (mk_row customer product gender city category payment age loyalty
          price competitor clicks browsing voice visual).

Definition encoded (customer product : string)
    (gender city category payment age loyalty : nat)
    (price competitor clicks browsing voice visual : R) : row nat :=
  mk_row customer product gender city category payment age loyalty
    price competitor clicks browsing voice visual.

(** Three products in three categories; the first customer bought two of
    them, and one line of the file has a missing cell. *)
Definition grocery : list (option (row string)) :=
  [ csv_line "ZP_CUST1" "Bread" "F" "Pune" "Bakery" "UPI" "18-25" "Gold" 2 1 1 1 1 1;
    None;
    csv_line "ZP_CUST2" "Milk" "M" "Delhi" "Dairy" "Card" "26-35" "Silver" 2 2 2 1 1 1;
    csv_line "ZP_CUST3" "Chips" "F" "Mumbai" "Snacks" "Cash" "36-45" "Bronze" 1 2 2 2 2 2;
    csv_line "ZP_CUST1" "Milk" "F" "Pune" "Dairy" "UPI" "18-25" "Gold" 2 2 2 1 1 1 ].

Definition grocery_frame : list (row nat) :=
  [ encoded "ZP_CUST1" "Bread" 0 2 0 2 0 1 2 1 1 1 1 1;
    encoded "ZP_CUST2" "Milk" 1 0 1 0 1 2 2 2 2 1 1 1;
    encoded "ZP_CUST3" "Chips" 0 1 2 1 2 0 1 2 2 2 2 2;
    encoded "ZP_CUST1" "Milk" 0 2 1 2 0 1 2 2 2 1 1 1 ].

Definition grocery_encoders : list (string * LabelEncoder.t) :=
  [ ("Gender", LabelEncoder.Build ["F"; "M"]);
    ("City", LabelEncoder.Build ["Delhi"; "Mumbai"; "Pune"]);
    ("Product_Category", LabelEncoder.Build ["Bakery"; "Dairy"; "Snacks"]);
    ("Payment_Method", LabelEncoder.Build ["Card"; "Cash"; "UPI"]);
    ("Age_Group", LabelEncoder.Build ["18-25"; "26-35"; "36-45"]);
    ("Loyalty_Tier", LabelEncoder.Build ["Bronze"; "Gold"; "Silver"]) ].

Definition grocery_features : list (string * list (option R)) :=
  [ ("Bread", [Some 0; Some 1; Some 0; Some 0; Some 0; Some 0; Some 0]);
    ("Milk",  [Some 1; Some 1; Some 1; Some 1; Some 0; Some 0; Some 0]);
    ("Chips", [Some 2; Some 0; Some 1; Some 1; Some 1; Some 1; Some 1]) ]%R.

Definition grocery_rows : list (list R) :=
  [ [0; 1; 0; 0; 0; 0; 0]; [1; 1; 1; 1; 0; 0; 0]; [2; 0; 1; 1; 1; 1; 1] ]%R.

Definition grocery_sim : SimFrame :=
  {| sim_index := ["Bread"; "Milk"; "Chips"];
     sim_columns := ["Bread"; "Milk"; "Chips"];
     sim_values := Pairwise.cosine_similarity grocery_rows |}.

Definition grocery_system : RecommenderSystem :=
  {| df := grocery_frame;
     label_encoders := grocery_encoders;
     product_features := grocery_features;
     product_similarity_df := grocery_sim |}.

(** The same three products, the lines of the file in another order. *)
Definition grocery_restocked : list (option (row string)) :=
  [ csv_line "ZP_CUST3" "Chips" "F" "Mumbai" "Snacks" "Cash" "36-45" "Bronze" 1 2 2 2 2 2;
    csv_line "ZP_CUST2" "Milk" "M" "Delhi" "Dairy" "Card" "26-35" "Silver" 2 2 2 1 1 1;
    csv_line "ZP_CUST1" "Bread" "F" "Pune" "Bakery" "UPI" "18-25" "Gold" 2 1 1 1 1 1 ].

Definition grocery_restocked_frame : list (row nat) :=
  [ encoded "ZP_CUST3" "Chips" 0 1 2 1 2 0 1 2 2 2 2 2;
    encoded "ZP_CUST2" "Milk" 1 0 1 0 1 2 2 2 2 1 1 1;
    encoded "ZP_CUST1" "Bread" 0 2 0 2 0 1 2 1 1 1 1 1 ].

Definition grocery_restocked_features : list (string * list (option R)) :=
  [ ("Chips", [Some 2; Some 0; Some 1; Some 1; Some 1; Some 1; Some 1]);
    ("Milk",  [Some 1; Some 1; Some 1; Some 1; Some 0; Some 0; Some 0]);
    ("Bread", [Some 0; Some 1; Some 0; Some 0; Some 0; Some 0; Some 0]) ]%R.

Definition grocery_restocked_rows : list (list R) :=
  [ [2; 0; 1; 1; 1; 1; 1]; [1; 1; 1; 1; 0; 0; 0]; [0; 1; 0; 0; 0; 0; 0] ]%R.

Definition grocery_restocked_sim : SimFrame :=
  {| sim_index := ["Chips"; "Milk"; "Bread"];
     sim_columns := ["Chips"; "Milk"; "Bread"];
     sim_values := Pairwise.cosine_similarity grocery_restocked_rows |}.

Definition grocery_restocked_system : RecommenderSystem :=
  {| df := grocery_restocked_frame;
     label_encoders := grocery_encoders;
     product_features := grocery_restocked_features;
     product_similarity_df := grocery_restocked_sim |}.

(** One product sold at two prices: its identifier labels two rows of the
    product feature table. *)
Definition repriced : list (option (row string)) :=
  [ csv_line "ZP_CUST1" "Milk" "F" "Pune" "Dairy" "UPI" "18-25" "Gold" 1 1 1 1 1 1;
    csv_line "ZP_CUST2" "Milk" "M" "Delhi" "Dairy" "Card" "26-35" "Silver" 2 2 2 2 2 2 ].

Definition repriced_frame : list (row nat) :=
  [ encoded "ZP_CUST1" "Milk" 0 1 0 1 0 0 1 1 1 1 1 1;
    encoded "ZP_CUST2" "Milk" 1 0 0 0 1 1 2 2 2 2 2 2 ].

Definition repriced_encoders : list (string * LabelEncoder.t) :=
  [ ("Gender", LabelEncoder.Build ["F"; "M"]);
    ("City", LabelEncoder.Build ["Delhi"; "Pune"]);
    ("Product_Category", LabelEncoder.Build ["Dairy"]);
    ("Payment_Method", LabelEncoder.Build ["Card"; "UPI"]);
    ("Age_Group", LabelEncoder.Build ["18-25"; "26-35"]);
    ("Loyalty_Tier", LabelEncoder.Build ["Gold"; "Silver"]) ].

Definition repriced_features : list (string * list (option R)) :=
  [ ("Milk", [Some 0; Some 0; Some 0; Some 0; Some 0; Some 0; Some 0]);
    ("Milk", [Some 0; Some 1; Some 1; Some 1; Some 1; Some 1; Some 1]) ]%R.

Definition repriced_system : RecommenderSystem :=
  {| df := repriced_frame;
     label_encoders := repriced_encoders;
     product_features := repriced_features;
     product_similarity_df :=
       {| sim_index := ["Milk"; "Milk"];
          sim_columns := ["Milk"; "Milk"];
          sim_values :=
            Pairwise.cosine_similarity
              [ [0; 0; 0; 0; 0; 0; 0]; [0; 1; 1; 1; 1; 1; 1] ]%R |} |}.

(** Two dairy products with the same attributes, then the cheapest, least
    browsed product, which is in the first category: its feature vector is
    all zeros. *)
Definition dairy : list (option (row string)) :=
  [ csv_line "ZP_CUST1" "Milk" "F" "Pune" "Dairy" "UPI" "18-25" "Gold" 2 2 2 2 2 2;
    csv_line "ZP_CUST2" "Curd" "M" "Delhi" "Dairy" "Card" "26-35" "Silver" 2 2 2 2 2 2;
    csv_line "ZP_CUST3" "Bread" "F" "Mumbai" "Bakery" "Cash" "36-45" "Bronze" 1 1 1 1 1 1 ].

Definition dairy_frame : list (row nat) :=
  [ encoded "ZP_CUST1" "Milk" 0 2 1 2 0 1 2 2 2 2 2 2;
    encoded "ZP_CUST2" "Curd" 1 0 1 0 1 2 2 2 2 2 2 2;
    encoded "ZP_CUST3" "Bread" 0 1 0 1 2 0 1 1 1 1 1 1 ].

Definition dairy_encoders : list (string * LabelEncoder.t) :=
  [ ("Gender", LabelEncoder.Build ["F"; "M"]);
    ("City", LabelEncoder.Build ["Delhi"; "Mumbai"; "Pune"]);
    ("Product_Category", LabelEncoder.Build ["Bakery"; "Dairy"]);
    ("Payment_Method", LabelEncoder.Build ["Card"; "Cash"; "UPI"]);
    ("Age_Group", LabelEncoder.Build ["18-25"; "26-35"; "36-45"]);
    ("Loyalty_Tier", LabelEncoder.Build ["Bronze"; "Gold"; "Silver"]) ].

Definition dairy_features : list (string * list (option R)) :=
  [ ("Milk",  [Some 1; Some 1; Some 1; Some 1; Some 1; Some 1; Some 1]);
    ("Curd",  [Some 1; Some 1; Some 1; Some 1; Some 1; Some 1; Some 1]);
    ("Bread", [Some 0; Some 0; Some 0; Some 0; Some 0; Some 0; Some 0]) ]%R.

Definition dairy_rows : list (list R) :=
  [ [1; 1; 1; 1; 1; 1; 1]; [1; 1; 1; 1; 1; 1; 1]; [0; 0; 0; 0; 0; 0; 0] ]%R.

Definition dairy_sim : SimFrame :=
  {| sim_index := ["Milk"; "Curd"; "Bread"];
     sim_columns := ["Milk"; "Curd"; "Bread"];
     sim_values := Pairwise.cosine_similarity dairy_rows |}.

Definition dairy_system : RecommenderSystem :=
  {| df := dairy_frame;
     label_encoders := dairy_encoders;
     product_features := dairy_features;
     product_similarity_df := dairy_sim |}.

(** Three products; the milk has the highest price and competitor price
    and the lowest of the four other attributes, and is in the second
    category: its feature vector is 1, 1, 1, 0, 0, 0, 0. *)
Definition pantry : list (option (row string)) :=
  [ csv_line "ZP_CUST1" "Bread" "F" "Pune" "Bakery" "UPI" "18-25" "Gold" 1 1 1 1 1 1;
    csv_line "ZP_CUST2" "Milk" "M" "Delhi" "Dairy" "Card" "26-35" "Silver" 2 2 1 1 1 1;
    csv_line "ZP_CUST3" "Chips" "F" "Mumbai" "Snacks" "Cash" "36-45" "Bronze" 1 1 2 2 2 2 ].

Definition pantry_frame : list (row nat) :=
  [ encoded "ZP_CUST1" "Bread" 0 2 0 2 0 1 1 1 1 1 1 1;
    encoded "ZP_CUST2" "Milk" 1 0 1 0 1 2 2 2 1 1 1 1;
    encoded "ZP_CUST3" "Chips" 0 1 2 1 2 0 1 1 2 2 2 2 ].

Definition pantry_encoders : list (string * LabelEncoder.t) :=
  [ ("Gender", LabelEncoder.Build ["F"; "M"]);
    ("City", LabelEncoder.Build ["Delhi"; "Mumbai"; "Pune"]);
    ("Product_Category", LabelEncoder.Build ["Bakery"; "Dairy"; "Snacks"]);
    ("Payment_Method", LabelEncoder.Build ["Card"; "Cash"; "UPI"]);
    ("Age_Group", LabelEncoder.Build ["18-25"; "26-35"; "36-45"]);
    ("Loyalty_Tier", LabelEncoder.Build ["Bronze"; "Gold"; "Silver"]) ].

(** The cells of its product feature table: small counts, the same in
    exact arithmetic and in binary64. *)
Definition pantry_cells : list (list nat) :=
  [ [0; 0; 0; 0; 0; 0; 0]; [1; 1; 1; 0; 0; 0; 0]; [2; 0; 0; 1; 1; 1; 1] ]%nat.

Definition pantry_features : list (string * list (option R)) :=
  [ ("Bread", [Some 0; Some 0; Some 0; Some 0; Some 0; Some 0; Some 0]);
    ("Milk",  [Some 1; Some 1; Some 1; Some 0; Some 0; Some 0; Some 0]);
    ("Chips", [Some 2; Some 0; Some 0; Some 1; Some 1; Some 1; Some 1]) ]%R.

Definition pantry_rows : list (list R) :=
  [ [0; 0; 0; 0; 0; 0; 0]; [1; 1; 1; 0; 0; 0; 0]; [2; 0; 0; 1; 1; 1; 1] ]%R.

Definition pantry_sim : SimFrame :=
  {| sim_index := ["Bread"; "Milk"; "Chips"];
     sim_columns := ["Bread"; "Milk"; "Chips"];
     sim_values := Pairwise.cosine_similarity pantry_rows |}.

Definition pantry_system : RecommenderSystem :=
  {| df := pantry_frame;
     label_encoders := pantry_encoders;
     product_features := pantry_features;
     product_similarity_df := pantry_sim |}.


(* ===================================================================== *)
(** * Facts about the Python primitives                                   *)
(* ===================================================================== *)

Lemma rbind_Ok {A B} (r : result A) (k : A -> result B) (b : B) :
  rbind r k = Ok b -> exists a, r = Ok a /\ k a = Ok b.
Proof.
  destruct r as [a | e]; simpl; intros H.
  - exists a; split; [reflexivity | exact H].
  - discriminate H.
Qed.

Lemma index_of_nth_error (v : string) (l : list string) :
  In v l -> nth_error l (index_of v l) = Some v.
Proof.
  induction l as [| x rest IH]; simpl; intros Hin.
  - contradiction.
  - destruct (String.eqb_spec x v) as [-> | Hne].
    + reflexivity.
    + simpl. apply IH. destruct Hin as [Heq | Hin]; [congruence | exact Hin].
Qed.

Lemma index_of_lt (v : string) (l : list string) :
  In v l -> (index_of v l < List.length l)%nat.
Proof.
  intros Hin. apply nth_error_Some.
  rewrite (index_of_nth_error v l Hin). discriminate.
Qed.

Lemma mem_In (x : string) (l : list string) : mem x l = true <-> In x l.
Proof.
  unfold mem. rewrite existsb_exists. split.
  - intros (y & Hy & Heq). apply String.eqb_eq in Heq. subst y. exact Hy.
  - intros Hin. exists x. split; [exact Hin | apply String.eqb_refl].
Qed.

Lemma list_remove_Ok (x : string) (l l' : list string) :
  list_remove x l = Ok l' ->
  exists pre post, l = pre ++ x :: post /\ l' = pre ++ post /\ ~ In x pre.
Proof.
  revert l'. induction l as [| y rest IH]; simpl; intros l' H.
  - discriminate H.
  - destruct (String.eqb_spec y x) as [-> | Hne].
    + injection H as <-. exists [], rest. simpl. auto.
    + apply rbind_Ok in H. destruct H as (rest' & Hrest & Hl').
      injection Hl' as <-.
      destruct (IH rest' Hrest) as (pre & post & -> & -> & Hpre).
      exists (y :: pre), post. simpl. repeat split; try reflexivity.
      intros [Heq | Hin]; [congruence | exact (Hpre Hin)].
Qed.

Lemma list_remove_In (x : string) (l : list string) :
  In x l -> exists l', list_remove x l = Ok l'.
Proof.
  induction l as [| y rest IH]; simpl; intros Hin.
  - contradiction.
  - destruct (String.eqb_spec y x) as [-> | Hne].
    + eexists; reflexivity.
    + destruct IH as (l' & ->).
      * destruct Hin as [Heq | Hin]; [congruence | exact Hin].
      * simpl. eexists; reflexivity.
Qed.

Lemma list_remove_absent (x : string) (l : list string) :
  ~ In x l -> list_remove x l = Raise ValueError.
Proof.
  induction l as [| y rest IH]; simpl; intros Hnin.
  - reflexivity.
  - destruct (String.eqb_spec y x) as [-> | Hne].
    + exfalso. apply Hnin. left; reflexivity.
    + rewrite IH by tauto. reflexivity.
Qed.

Lemma list_remove_incl (x : string) (l l' : list string) :
  list_remove x l = Ok l' -> incl l' l.
Proof.
  intros H. destruct (list_remove_Ok _ _ _ H) as (pre & post & -> & -> & _).
  intros a Ha. apply in_app_or in Ha. apply in_or_app.
  destruct Ha as [Ha | Ha]; [left | right; right]; exact Ha.
Qed.

(* ===================================================================== *)
(** * Facts about the label encoder                                       *)
(* ===================================================================== *)

Module LabelEncoderFacts.
Import LabelEncoder.

Lemma insert_unique_In (v x : string) (l : list string) :
  In x (insert_unique v l) <-> x = v \/ In x l.
Proof.
  induction l as [| y rest IH]; simpl.
  - intuition.
  - destruct (String.compare v y) eqn:Hcmp; simpl.
    + apply String.compare_eq_iff in Hcmp. subst y. intuition.
    + intuition.
    + rewrite IH. intuition.
Qed.

Lemma unique_In (x : string) (y : list string) : In x (unique y) <-> In x y.
Proof.
  unfold unique. induction y as [| v rest IH]; simpl.
  - reflexivity.
  - rewrite insert_unique_In, IH. intuition.
Qed.

(** A fitted encoder decodes the code of every label it was fitted on. *)
Lemma fit_code_decodes (y : list string) (v : string) :
  In v y -> nth_error (classes_ (fit y)) (code (fit y) v) = Some v.
Proof.
  intros Hin. unfold code. apply index_of_nth_error. simpl.
  apply unique_In. exact Hin.
Qed.

Lemma transform_fit (y : list string) (v : string) :
  In v y -> transform (fit y) [v] = Ok [code (fit y) v].
Proof.
  intros Hin. cbn [transform rbind].
  assert (Hlt : (code (fit y) v <? List.length (classes_ (fit y)))%nat = true).
  { apply Nat.ltb_lt. unfold code. apply index_of_lt. simpl.
    apply unique_In. exact Hin. }
  rewrite Hlt. reflexivity.
Qed.

Lemma inverse_transform_fit (y : list string) (v : string) :
  In v y -> inverse_transform (fit y) [code (fit y) v] = Ok [v].
Proof.
  intros Hin. cbn [inverse_transform].
  rewrite (fit_code_decodes y v Hin). reflexivity.
Qed.

Lemma inverse_transform_codes (y vs : list string) :
  incl vs y -> inverse_transform (fit y) (map (code (fit y)) vs) = Ok vs.
Proof.
  induction vs as [| v rest IH]; intros Hincl.
  - reflexivity.
  - cbn [map inverse_transform].
    rewrite (fit_code_decodes y v) by (apply Hincl; left; reflexivity).
    rewrite IH by (intros a Ha; apply Hincl; right; exact Ha).
    reflexivity.
Qed.

End LabelEncoderFacts.

(* ===================================================================== *)
(** * Facts about cosine similarity                                       *)
(* ===================================================================== *)

Lemma Reqb_true (x y : R) : x = y -> Reqb x y = true.
Proof. intros H. unfold Reqb. destruct (Req_dec_T x y); [reflexivity | contradiction]. Qed.

Lemma Reqb_false (x y : R) : x <> y -> Reqb x y = false.
Proof. intros H. unfold Reqb. destruct (Req_dec_T x y); [contradiction | reflexivity]. Qed.

Lemma Rltb_true (x y : R) : (x < y)%R -> Rltb x y = true.
Proof. intros H. unfold Rltb. destruct (Rlt_dec x y); [reflexivity | contradiction]. Qed.

Lemma Rltb_false (x y : R) : ~ (x < y)%R -> Rltb x y = false.
Proof. intros H. unfold Rltb. destruct (Rlt_dec x y); [contradiction | reflexivity]. Qed.

Module PairwiseFacts.
Import Pairwise.
Local Open Scope R_scope.

Lemma dot_cons (a b : R) (x y : list R) :
  dot (a :: x) (b :: y) = a * b + dot x y.
Proof. reflexivity. Qed.

Lemma dot_nil_r (x : list R) : dot x [] = 0.
Proof. destruct x; reflexivity. Qed.

Lemma dot_comm (x y : list R) : dot x y = dot y x.
Proof.
  revert y. induction x as [| a x IH]; intros y.
  - rewrite dot_nil_r. reflexivity.
  - destruct y as [| b y].
    + reflexivity.
    + rewrite !dot_cons, IH. ring.
Qed.

Lemma dot_self_nonneg (x : list R) : 0 <= dot x x.
Proof.
  induction x as [| a x IH].
  - unfold dot; simpl. lra.
  - rewrite dot_cons. nra.
Qed.

(** Cauchy-Schwarz, on rows of any two lengths. *)
Lemma cauchy_schwarz (x y : list R) :
  dot x y * dot x y <= dot x x * dot y y.
Proof.
  revert y. induction x as [| a x IH]; intros y.
  - unfold dot; simpl. lra.
  - destruct y as [| b y].
    + rewrite !dot_nil_r. lra.
    + rewrite !dot_cons.
      pose proof (IH y) as Hd.
      pose proof (dot_self_nonneg x) as HX.
      pose proof (dot_self_nonneg y) as HY.
      set (d := dot x y) in *. set (X := dot x x) in *. set (Y := dot y y) in *.
      pose proof (sqrt_sqrt X HX) as Hs. pose proof (sqrt_sqrt Y HY) as Ht.
      pose proof (sqrt_pos X) as Hs0. pose proof (sqrt_pos Y) as Ht0.
      set (s := sqrt X) in *. set (t := sqrt Y) in *.
      assert (Hst : 0 <= s * t) by nra.
      assert (Hd1 : d <= s * t) by nra.
      assert (Hd2 : - (s * t) <= d) by nra.
      assert (Hkey : 2 * (a * b) * d <= a * a * Y + b * b * X).
      { rewrite <- Hs, <- Ht.
        destruct (Rle_dec 0 (a * b)) as [Hab | Hab].
        - assert (2 * (a * b) * d <= 2 * (a * b) * (s * t)) by nra.
          pose proof (Rle_0_sqr (a * t - b * s)) as Hsq. unfold Rsqr in Hsq.
          nra.
        - assert (2 * (a * b) * d <= 2 * (a * b) * (- (s * t))) by nra.
          pose proof (Rle_0_sqr (a * t + b * s)) as Hsq. unfold Rsqr in Hsq.
          nra. }
      nra.
Qed.

Lemma dot_scaled (c e : R) (x y : list R) :
  dot (map (fun a => a / c) x) (map (fun a => a / e) y) = dot x y / (c * e).
Proof.
  revert y. induction x as [| a x IH]; intros y.
  - unfold dot; simpl. unfold Rdiv. ring.
  - destruct y as [| b y].
    + cbn [map]. rewrite !dot_nil_r. unfold Rdiv. ring.
    + cbn [map]. rewrite !dot_cons, IH. unfold Rdiv. rewrite Rinv_mult. ring.
Qed.

Lemma cosine_formula (x y : list R) :
  cosine x y =
  dot x y / (handle_zeros_in_scale (row_norm x) * handle_zeros_in_scale (row_norm y)).
Proof. unfold cosine, normalize. apply dot_scaled. Qed.

Lemma cosine_comm (x y : list R) : cosine x y = cosine y x.
Proof. unfold cosine. apply dot_comm. Qed.

Lemma row_norm_zero (x : list R) : row_norm x = 0 <-> dot x x = 0.
Proof.
  unfold row_norm. split; intros H.
  - apply sqrt_eq_0; [apply dot_self_nonneg | exact H].
  - rewrite H. apply sqrt_0.
Qed.

Lemma scale_of_zero_row (x : list R) :
  dot x x = 0 -> handle_zeros_in_scale (row_norm x) = 1.
Proof.
  intros H. unfold handle_zeros_in_scale.
  rewrite Reqb_true; [reflexivity | apply row_norm_zero; exact H].
Qed.

Lemma scale_of_nonzero_row (x : list R) :
  dot x x <> 0 ->
  handle_zeros_in_scale (row_norm x) = row_norm x /\
  0 < row_norm x /\ row_norm x * row_norm x = dot x x.
Proof.
  intros H. unfold handle_zeros_in_scale.
  rewrite Reqb_false by (rewrite row_norm_zero; exact H).
  pose proof (dot_self_nonneg x) as Hx.
  repeat split.
  - unfold row_norm. apply sqrt_lt_R0. lra.
  - unfold row_norm. apply sqrt_sqrt. exact Hx.
Qed.

Lemma scale_positive (x : list R) : 0 < handle_zeros_in_scale (row_norm x).
Proof.
  destruct (Req_dec_T (dot x x) 0) as [H | H].
  - rewrite scale_of_zero_row by exact H. lra.
  - destruct (scale_of_nonzero_row x H) as (-> & Hpos & _). exact Hpos.
Qed.

(** A row whose cells are all zero is orthogonal to every row. *)
Lemma dot_zero_row (x y : list R) : dot x x = 0 -> dot x y = 0.
Proof.
  intros H. pose proof (cauchy_schwarz x y) as Hcs. rewrite H in Hcs. nra.
Qed.

Lemma dot_self_zero_iff (x : list R) : dot x x = 0 <-> Forall (fun a => a = 0) x.
Proof.
  induction x as [| a x IH].
  - split; [constructor | reflexivity].
  - rewrite dot_cons. pose proof (dot_self_nonneg x) as Hx. split.
    + intros H. constructor; [nra | apply IH; nra].
    + intros H. inversion H as [| ? ? Ha Hrest]; subst.
      apply IH in Hrest. rewrite Hrest. ring.
Qed.

Lemma cosine_zero_row_l (x y : list R) : dot x x = 0 -> cosine x y = 0.
Proof.
  intros H. rewrite cosine_formula, (dot_zero_row x y H). unfold Rdiv. ring.
Qed.

Lemma cosine_zero_row_r (x y : list R) : dot y y = 0 -> cosine x y = 0.
Proof. intros H. rewrite cosine_comm. apply cosine_zero_row_l. exact H. Qed.

(** The similarity of a row with itself: one, unless the row is zero. *)
Lemma cosine_self (x : list R) : dot x x <> 0 -> cosine x x = 1.
Proof.
  intros H. rewrite cosine_formula.
  destruct (scale_of_nonzero_row x H) as (-> & Hpos & Hsq).
  rewrite Hsq. field. exact H.
Qed.

Lemma cosine_bounds (x y : list R) : -1 <= cosine x y <= 1.
Proof.
  destruct (Req_dec_T (dot x x) 0) as [Hx | Hx].
  { rewrite (cosine_zero_row_l x y Hx). lra. }
  destruct (Req_dec_T (dot y y) 0) as [Hy | Hy].
  { rewrite (cosine_zero_row_r x y Hy). lra. }
  rewrite cosine_formula.
  destruct (scale_of_nonzero_row x Hx) as (-> & Hpx & Hsx).
  destruct (scale_of_nonzero_row y Hy) as (-> & Hpy & Hsy).
  pose proof (cauchy_schwarz x y) as Hcs. rewrite <- Hsx, <- Hsy in Hcs.
  set (d := dot x y) in *. set (s := row_norm x) in *. set (t := row_norm y) in *.
  assert (Hp : 0 < s * t) by nra.
  assert (Hd : - (s * t) <= d <= s * t) by (split; nra).
  pose proof (Rinv_0_lt_compat _ Hp) as Hq.
  assert (Hpq : s * t * / (s * t) = 1) by (apply Rinv_r; lra).
  unfold Rdiv. set (q := / (s * t)) in *. split; nra.
Qed.

(** The divisor of a row whose squared norm is the square of [n]. *)
Lemma scale_of_norm (x : list R) (n : R) :
  0 < n -> dot x x = n * n -> handle_zeros_in_scale (row_norm x) = n.
Proof.
  intros Hn Hx. unfold handle_zeros_in_scale, row_norm.
  rewrite Hx, sqrt_square by lra.
  rewrite Reqb_false by lra. reflexivity.
Qed.

(** Shape and cells of the matrix. *)
Lemma cosine_similarity_length (X : list (list R)) :
  List.length (cosine_similarity X) = List.length X.
Proof. unfold cosine_similarity. apply length_map. Qed.

Lemma cosine_similarity_rows (X : list (list R)) (r : list R) :
  In r (cosine_similarity X) -> List.length r = List.length X.
Proof.
  unfold cosine_similarity. intros H. apply in_map_iff in H.
  destruct H as (x & <- & _). apply length_map.
Qed.

Lemma cosine_similarity_row (X : list (list R)) (i : nat) (x : list R) :
  nth_error X i = Some x ->
  nth i (cosine_similarity X) [] = map (fun y => cosine x y) X.
Proof.
  intros H. unfold cosine_similarity.
  apply nth_error_nth. rewrite nth_error_map, H. reflexivity.
Qed.

Lemma cosine_similarity_cell (X : list (list R)) (i j : nat) (x y : list R) :
  nth_error X i = Some x -> nth_error X j = Some y ->
  nth j (nth i (cosine_similarity X) []) 0 = cosine x y.
Proof.
  intros Hi Hj. rewrite (cosine_similarity_row X i x Hi).
  apply nth_error_nth. rewrite nth_error_map, Hj. reflexivity.
Qed.

End PairwiseFacts.

(* ===================================================================== *)
(** * Facts about the frames                                              *)
(* ===================================================================== *)

Section FrameFacts.
Local Open Scope R_scope.

Lemma fold_left_Rmin_le (l : list R) (a : R) :
  fold_left Rmin l a <= a /\ forall x, In x l -> fold_left Rmin l a <= x.
Proof.
  revert a. induction l as [| b l IH]; intros a; simpl.
  - split; [lra | contradiction].
  - destruct (IH (Rmin a b)) as [H1 H2].
    pose proof (Rmin_l a b). pose proof (Rmin_r a b).
    split; [lra |]. intros x [<- | Hx]; [lra | apply H2; exact Hx].
Qed.

Lemma fold_left_Rmax_ge (l : list R) (a : R) :
  a <= fold_left Rmax l a /\ forall x, In x l -> x <= fold_left Rmax l a.
Proof.
  revert a. induction l as [| b l IH]; intros a; simpl.
  - split; [lra | contradiction].
  - destruct (IH (Rmax a b)) as [H1 H2].
    pose proof (Rmax_l a b). pose proof (Rmax_r a b).
    split; [lra |]. intros x [<- | Hx]; [lra | apply H2; exact Hx].
Qed.

Lemma col_min_le (x : list R) (lo a : R) :
  col_min x = Some lo -> In a x -> lo <= a.
Proof.
  destruct x as [| b rest]; simpl; intros H Hin; [contradiction |].
  injection H as <-. destruct (fold_left_Rmin_le rest b) as [H1 H2].
  destruct Hin as [<- | Hin]; [exact H1 | apply H2; exact Hin].
Qed.

Lemma col_max_ge (x : list R) (hi a : R) :
  col_max x = Some hi -> In a x -> a <= hi.
Proof.
  destruct x as [| b rest]; simpl; intros H Hin; [contradiction |].
  injection H as <-. destruct (fold_left_Rmax_ge rest b) as [H1 H2].
  destruct Hin as [<- | Hin]; [exact H1 | apply H2; exact Hin].
Qed.

(** A rescaled cell that is not NaN lies between zero and one. *)
Lemma min_max_unit (x : list R) (a v : R) :
  In a x -> min_max x a = Some v -> 0 <= v <= 1.
Proof.
  intros Hin. unfold min_max.
  destruct (col_min x) as [lo |] eqn:Hlo; [| discriminate].
  destruct (col_max x) as [hi |] eqn:Hhi; [| discriminate].
  unfold Reqb. destruct (Req_dec_T hi lo) as [Heq | Hne]; [discriminate |].
  intros H. injection H as <-.
  pose proof (col_min_le x lo a Hlo Hin) as H1.
  pose proof (col_max_ge x hi a Hhi Hin) as H2.
  assert (Hpos : 0 < hi - lo) by lra.
  pose proof (Rinv_0_lt_compat _ Hpos) as Hq.
  assert (Hpq : (hi - lo) * / (hi - lo) = 1) by (apply Rinv_r; lra).
  unfold Rdiv. set (q := / (hi - lo)) in *. split; nra.
Qed.

End FrameFacts.

Lemma dropna_In {A} (csv : list (option (row A))) (r : row A) :
  In r (dropna csv) <-> In (Some r) csv.
Proof.
  induction csv as [| [r' |] rest IH]; simpl.
  - reflexivity.
  - rewrite IH. split; intros [H | H]; auto; left; congruence.
  - rewrite IH. split; [auto | intros [H | H]; [discriminate | exact H]].
Qed.

Lemma drop_duplicates_from_incl {A K} (eqb : K -> K -> bool) (key : A -> K)
    (seen : list K) (frame : list A) :
  incl (drop_duplicates_from eqb key seen frame) frame.
Proof.
  revert seen. induction frame as [| r rest IH]; intros seen; simpl.
  - apply incl_refl.
  - destruct (existsb (eqb (key r)) seen).
    + apply incl_tl, IH.
    + apply incl_cons; [left; reflexivity | apply incl_tl, IH].
Qed.

Lemma drop_duplicates_incl {A K} (eqb : K -> K -> bool) (key : A -> K)
    (frame : list A) :
  incl (drop_duplicates eqb key frame) frame.
Proof. apply drop_duplicates_from_incl. Qed.

(** Selecting and dropping duplicates commute with a change of the cells
    that leaves the key alone. *)
Lemma drop_duplicates_from_map {A B K} (eqb : K -> K -> bool)
    (g : A -> B) (key : B -> K) (seen : list K) (frame : list A) :
  drop_duplicates_from eqb key seen (map g frame) =
  map g (drop_duplicates_from eqb (fun r => key (g r)) seen frame).
Proof.
  revert seen. induction frame as [| r rest IH]; intros seen; simpl.
  - reflexivity.
  - destruct (existsb (eqb (key (g r))) seen); simpl; rewrite IH; reflexivity.
Qed.

Lemma filter_map_comm {A B} (f : B -> bool) (g : A -> B) (l : list A) :
  filter f (map g l) = map g (filter (fun r => f (g r)) l).
Proof.
  induction l as [| a l IH]; simpl.
  - reflexivity.
  - destruct (f (g a)); simpl; rewrite IH; reflexivity.
Qed.

(** Dropping duplicates on [Product_ID]: every product is kept once. *)
Lemma drop_duplicates_ids_from {A} (seen : list string) (frame : list (row A)) :
  let kept := map Product_ID (drop_duplicates_from String.eqb Product_ID seen frame) in
  NoDup kept /\
  (forall p, In p kept <-> In p (map Product_ID frame) /\ ~ In p seen).
Proof.
  revert seen. induction frame as [| r rest IH]; intros seen; simpl.
  - split; [constructor | intros p; tauto].
  - destruct (existsb (String.eqb (Product_ID r)) seen) eqn:Hseen.
    + destruct (IH seen) as [Hnd Hin]. split; [exact Hnd |].
      apply (proj1 (mem_In _ _)) in Hseen.
      intros p. rewrite Hin. split.
      * intros [H1 H2]. auto.
      * intros [[<- | H1] H2]; [contradiction | auto].
    + destruct (IH (Product_ID r :: seen)) as [Hnd Hin]. simpl.
      assert (Hnot : ~ In (Product_ID r) seen).
      { intros H. apply (proj2 (mem_In _ _)) in H. unfold mem in H. congruence. }
      split.
      * constructor; [| exact Hnd]. rewrite Hin. simpl. tauto.
      * intros p. rewrite Hin. simpl. split.
        -- intros [<- | [H1 H2]]; [auto | split; [auto | tauto]].
        -- intros [[<- | H1] H2]; [auto |].
           destruct (string_dec (Product_ID r) p) as [-> | Hne]; [auto |].
           right. split; [exact H1 | tauto].
Qed.

Lemma drop_duplicates_ids {A} (frame : list (row A)) :
  let kept := map Product_ID (drop_duplicates String.eqb Product_ID frame) in
  NoDup kept /\ (forall p, In p kept <-> In p (map Product_ID frame)).
Proof.
  destruct (drop_duplicates_ids_from [] frame) as [Hnd Hin].
  split; [exact Hnd |]. intros p. rewrite (Hin p). simpl. tauto.
Qed.

(* ===================================================================== *)
(** * What [__init__] builds                                              *)
(* ===================================================================== *)

Lemma finite_row_Some (v : list (option R)) (x : list R) :
  finite_row v = Some x -> v = map Some x.
Proof.
  revert x. induction v as [| [a |] v IH]; simpl; intros x H.
  - injection H as <-. reflexivity.
  - destruct (finite_row v) as [x' |]; simpl in H; [| discriminate].
    injection H as <-. simpl. f_equal. apply IH. reflexivity.
  - discriminate.
Qed.

Lemma finite_rows_length (X : list (list (option R))) (Y : list (list R)) :
  finite_rows X = Some Y -> List.length Y = List.length X.
Proof.
  revert Y. induction X as [| v X IH]; simpl; intros Y H.
  - injection H as <-. reflexivity.
  - destruct (finite_row v) as [x |]; [| discriminate].
    destruct (finite_rows X) as [Y' |]; [| discriminate].
    injection H as <-. simpl. f_equal. apply IH. reflexivity.
Qed.

Lemma finite_rows_nth (X : list (list (option R))) (Y : list (list R)) :
  finite_rows X = Some Y ->
  forall i v, nth_error X i = Some v ->
    exists x, nth_error Y i = Some x /\ v = map Some x.
Proof.
  revert Y. induction X as [| w X IH]; simpl; intros Y H i v Hi.
  - destruct i; discriminate.
  - destruct (finite_row w) as [x |] eqn:Hw; [| discriminate].
    destruct (finite_rows X) as [Y' |]; [| discriminate].
    injection H as <-. destruct i as [| i]; simpl in *.
    + injection Hi as <-. exists x. split; [reflexivity |].
      apply finite_row_Some. exact Hw.
    + apply (IH Y' eq_refl i v Hi).
Qed.

(** The instance a successful construction leaves. *)
Lemma init_Ok (csv : list (option (row string))) (self : RecommenderSystem) :
  __init__ csv = Ok self ->
  exists X,
    df self = fst (_encode_features (dropna csv)) /\
    label_encoders self = snd (_encode_features (dropna csv)) /\
    product_features self = _create_product_features (df self) /\
    product_features self <> [] /\
    finite_rows (map snd (product_features self)) = Some X /\
    product_similarity_df self =
      {| sim_index := map fst (product_features self);
         sim_columns := map fst (product_features self);
         sim_values := Pairwise.cosine_similarity X |}.
Proof.
  unfold __init__. destruct (_encode_features (dropna csv)) as [frame encoders].
  intros H. apply rbind_Ok in H. destruct H as (sim & Hsim & Hself).
  injection Hself as <-. simpl.
  unfold _calculate_similarity in Hsim.
  destruct (_create_product_features frame) as [| f features] eqn:Hf; [discriminate |].
  destruct (finite_rows (map snd (f :: features))) as [X |] eqn:HX; [| discriminate].
  injection Hsim as <-. exists X. repeat split; try reflexivity. discriminate.
Qed.

(** The cell at row [i], column [j] is the cosine of the i-th and the
    j-th feature vectors. *)
Lemma init_entry (csv : list (option (row string))) (self : RecommenderSystem) :
  __init__ csv = Ok self ->
  forall i j a b v w,
    nth_error (product_features self) i = Some (a, v) ->
    nth_error (product_features self) j = Some (b, w) ->
    exists x y, v = map Some x /\ w = map Some y /\
      entry (product_similarity_df self) i j = Pairwise.cosine x y.
Proof.
  intros Hinit i j a b v w Hi Hj.
  destruct (init_Ok csv self Hinit) as (X & _ & _ & _ & _ & HX & Hsim).
  assert (Hi' : nth_error (map snd (product_features self)) i = Some v)
    by (rewrite nth_error_map, Hi; reflexivity).
  assert (Hj' : nth_error (map snd (product_features self)) j = Some w)
    by (rewrite nth_error_map, Hj; reflexivity).
  destruct (finite_rows_nth _ _ HX i v Hi') as (x & Hx & ->).
  destruct (finite_rows_nth _ _ HX j w Hj') as (y & Hy & ->).
  exists x, y. repeat split.
  rewrite Hsim. unfold entry. simpl.
  apply PairwiseFacts.cosine_similarity_cell; assumption.
Qed.

Lemma init_index (csv : list (option (row string))) (self : RecommenderSystem) :
  __init__ csv = Ok self ->
  let sim := product_similarity_df self in
  sim_index sim = map fst (product_features self) /\
  sim_columns sim = sim_index sim /\
  List.length (sim_values sim) = List.length (sim_index sim) /\
  (forall r, In r (sim_values sim) -> List.length r = List.length (sim_columns sim)).
Proof.
  intros Hinit. destruct (init_Ok csv self Hinit) as (X & _ & _ & _ & _ & HX & Hsim).
  pose proof (finite_rows_length _ _ HX) as Hlen. rewrite length_map in Hlen.
  rewrite Hsim. simpl. repeat split.
  - rewrite PairwiseFacts.cosine_similarity_length, length_map. exact Hlen.
  - intros r Hr. rewrite (PairwiseFacts.cosine_similarity_rows X r Hr), length_map.
    exact Hlen.
Qed.

Lemma index_features (csv : list (option (row string))) (self : RecommenderSystem) :
  __init__ csv = Ok self ->
  forall i a, nth_error (sim_index (product_similarity_df self)) i = Some a ->
    exists v, nth_error (product_features self) i = Some (a, v).
Proof.
  intros Hinit i a Hi. destruct (init_index csv self Hinit) as (Hidx & _).
  rewrite Hidx, nth_error_map in Hi.
  destruct (nth_error (product_features self) i) as [[a' v] |]; [| discriminate].
  injection Hi as <-. exists v. reflexivity.
Qed.

Lemma set_columns_map (frame : list (row string))
    (gender city category payment age loyalty : string -> nat) :
  set_columns frame
    (map gender (map Gender frame)) (map city (map City frame))
    (map category (map Product_Category frame))
    (map payment (map Payment_Method frame))
    (map age (map Age_Group frame)) (map loyalty (map Loyalty_Tier frame)) =
  map (fun r =>
         {| Customer_ID := Customer_ID r;
            Product_ID := Product_ID r;
            Gender := gender (Gender r);
            City := city (City r);
            Product_Category := category (Product_Category r);
            Payment_Method := payment (Payment_Method r);
            Age_Group := age (Age_Group r);
            Loyalty_Tier := loyalty (Loyalty_Tier r);
            Price := Price r;
            Competitor_Price := Competitor_Price r;
            Ad_Click_Through_Rate := Ad_Click_Through_Rate r;
            Browsing_Time_mins := Browsing_Time_mins r;
            Voice_Search_Count := Voice_Search_Count r;
            Visual_Search_Count := Visual_Search_Count r |}) frame.
Proof.
  induction frame as [| r frame IH]; simpl.
  - reflexivity.
  - rewrite IH. reflexivity.
Qed.

(** The encoded frame, row by row. *)
Lemma encode_features_rows (raw : list (row string)) :
  fst (_encode_features raw) =
  map (encode_row (LabelEncoder.fit (map Gender raw))
         (LabelEncoder.fit (map City raw))
         (LabelEncoder.fit (map Product_Category raw))
         (LabelEncoder.fit (map Payment_Method raw))
         (LabelEncoder.fit (map Age_Group raw))
         (LabelEncoder.fit (map Loyalty_Tier raw))) raw.
Proof.
  unfold _encode_features, LabelEncoder.fit_transform. cbn [fst].
  apply set_columns_map.
Qed.

Lemma encode_features_encoders (raw : list (row string)) :
  snd (_encode_features raw) =
  [ ("Gender", LabelEncoder.fit (map Gender raw));
    ("City", LabelEncoder.fit (map City raw));
    ("Product_Category", LabelEncoder.fit (map Product_Category raw));
    ("Payment_Method", LabelEncoder.fit (map Payment_Method raw));
    ("Age_Group", LabelEncoder.fit (map Age_Group raw));
    ("Loyalty_Tier", LabelEncoder.fit (map Loyalty_Tier raw)) ].
Proof. reflexivity. Qed.

Lemma encode_features_column (raw : list (row string))
    (name : string) (column : forall A, row A -> A) :
  In (name, column) categorical_columns ->
  dict_get (snd (_encode_features raw)) name
    = Ok (LabelEncoder.fit (map (column string) raw)) /\
  forall i r, nth_error raw i = Some r ->
    exists r', nth_error (fst (_encode_features raw)) i = Some r' /\
      Customer_ID r' = Customer_ID r /\ Product_ID r' = Product_ID r /\
      column nat r' =
        LabelEncoder.code (LabelEncoder.fit (map (column string) raw)) (column string r).
Proof.
  intros Hin. unfold categorical_columns in Hin. simpl in Hin.
  assert (Hrow : forall i r, nth_error raw i = Some r ->
            nth_error (fst (_encode_features raw)) i =
            Some (encode_row (LabelEncoder.fit (map Gender raw))
                    (LabelEncoder.fit (map City raw))
                    (LabelEncoder.fit (map Product_Category raw))
                    (LabelEncoder.fit (map Payment_Method raw))
                    (LabelEncoder.fit (map Age_Group raw))
                    (LabelEncoder.fit (map Loyalty_Tier raw)) r)).
  { intros i r Hi. rewrite encode_features_rows, nth_error_map, Hi. reflexivity. }
  repeat (destruct Hin as [Hin | Hin];
          [ injection Hin as <- <-; split;
            [ reflexivity
            | intros i r Hi; eexists; split; [apply Hrow; exact Hi | repeat split] ]
          | ]).
  contradiction.
Qed.

(** Each encoded column holds the codes [fit_transform] returns for it,
    and the dict holds the encoder [fit_transform] fitted. *)
Lemma encode_features_fit_transform (raw : list (row string))
    (name : string) (column : forall A, row A -> A) :
  In (name, column) categorical_columns ->
  dict_get (snd (_encode_features raw)) name
    = Ok (fst (LabelEncoder.fit_transform (map (column string) raw))) /\
  map (column nat) (fst (_encode_features raw))
    = snd (LabelEncoder.fit_transform (map (column string) raw)).
Proof.
  intros Hin. unfold categorical_columns in Hin. simpl in Hin.
  rewrite encode_features_rows. unfold LabelEncoder.fit_transform.
  cbn [fst snd]. rewrite !map_map.
  repeat (destruct Hin as [Hin | Hin];
          [ injection Hin as <- <-; split; reflexivity | ]).
  contradiction.
Qed.

(* ===================================================================== *)
(** * Facts about the methods                                             *)
(* ===================================================================== *)

(** A method that returns leaves the instance as it found it, and so
    does one that raises. *)
Lemma recommend_products_self (p : string) (N : nat) (self : RecommenderSystem) :
  snd (recommend_products p N self) = self.
Proof.
  unfold recommend_products, bind, gets, lift.
  destruct (getitem (product_similarity_df self) p) as [sel | e]; [| reflexivity].
  destruct (sort_values sel) as [sorted | e]; reflexivity.
Qed.

Lemma recommend_products_eq (p : string) (N : nat) (self : RecommenderSystem) :
  recommend_products p N self = (fst (recommend_products p N self), self).
Proof.
  rewrite <- (recommend_products_self p N self) at 3.
  apply surjective_pairing.
Qed.

Lemma recommend_products_Ok (p : string) (N : nat) (self : RecommenderSystem)
    (l : list string) :
  fst (recommend_products p N self) = Ok l ->
  exists col,
    getitem (product_similarity_df self) p = Ok (Series col) /\
    list_remove p (map fst (firstn (N + 1) (sort_desc col))) = Ok l.
Proof.
  unfold recommend_products, bind, gets, lift.
  destruct (getitem (product_similarity_df self) p) as [[col | w] | e];
    simpl; intros H; try discriminate H.
  exists col. split; [reflexivity | exact H].
Qed.

(** The other way round: the call, from the column it reads. *)
Lemma recommend_products_run (self : RecommenderSystem) (p : string) (N : nat)
    (col : list (string * R)) :
  getitem (product_similarity_df self) p = Ok (Series col) ->
  recommend_products p N self =
  (list_remove p (map fst (firstn (N + 1) (sort_desc col))), self).
Proof.
  intros H. unfold recommend_products, bind, gets, lift. rewrite H. reflexivity.
Qed.

Section CustomerFacts.
Variable set_iteration : list string -> list string.

Lemma update_from_self (pids : list string) (N : nat) (added : list string)
    (self : RecommenderSystem) :
  snd (update_from pids N added self) = self.
Proof.
  revert added. induction pids as [| p rest IH]; intros added; simpl.
  - reflexivity.
  - unfold bind. rewrite (recommend_products_eq p N self).
    destruct (fst (recommend_products p N self)) as [recs | e]; [apply IH | reflexivity].
Qed.

Lemma update_from_Ok (pids : list string) (N : nat) (added out : list string)
    (self : RecommenderSystem) :
  fst (update_from pids N added self) = Ok out ->
  exists recs,
    Forall2 (fun p l => fst (recommend_products p N self) = Ok l) pids recs /\
    out = added ++ List.concat recs.
Proof.
  revert added. induction pids as [| p rest IH]; intros added; simpl.
  - intros H. injection H as <-. exists []. split; [constructor |].
    simpl. rewrite app_nil_r. reflexivity.
  - unfold bind. rewrite (recommend_products_eq p N self).
    destruct (fst (recommend_products p N self)) as [l | e] eqn:Hp;
      [| discriminate].
    intros H. destruct (IH _ H) as (recs & Hrecs & ->).
    exists (l :: recs). split; [constructor; assumption |].
    simpl. rewrite app_assoc. reflexivity.
Qed.

Lemma update_from_run (pids : list string) (N : nat) (added : list string)
    (recs : list (list string)) (self : RecommenderSystem) :
  Forall2 (fun p l => fst (recommend_products p N self) = Ok l) pids recs ->
  update_from pids N added self = (Ok (added ++ List.concat recs), self).
Proof.
  intros H. revert added. induction H as [| p l pids recs Hp _ IH]; intros added; simpl.
  - rewrite app_nil_r. reflexivity.
  - unfold bind. rewrite (recommend_products_eq p N self), Hp, IH, app_assoc.
    reflexivity.
Qed.

Lemma inverse_transform_one (le : LabelEncoder.t) (c : nat) (vs : list string) :
  LabelEncoder.inverse_transform le [c] = Ok vs ->
  exists v, vs = [v] /\ nth_error (LabelEncoder.classes_ le) c = Some v.
Proof.
  simpl. destruct (nth_error (LabelEncoder.classes_ le) c) as [v |]; [| discriminate].
  simpl. intros H. injection H as <-. exists v. auto.
Qed.

Lemma customer_self (cid : string) (N : nat) (self : RecommenderSystem) :
  snd (recommend_products_for_customer set_iteration cid N self) = self.
Proof.
  unfold recommend_products_for_customer, bind, gets, lift, ret.
  destruct (rows_of_customer cid (df self)) as [| first rest]; [reflexivity |].
  destruct (dict_get (label_encoders self) "City") as [le_city | e]; [| reflexivity].
  destruct (LabelEncoder.inverse_transform le_city [City first]) as [cities | e];
    [| reflexivity].
  destruct (item0 cities) as [city | e]; [| reflexivity].
  destruct (dict_get (label_encoders self) "Age_Group") as [le_age | e]; [| reflexivity].
  destruct (LabelEncoder.inverse_transform le_age [Age_Group first]) as [ages | e];
    [| reflexivity].
  destruct (item0 ages) as [age | e]; [| reflexivity].
  pose proof (update_from_self (map Product_ID (first :: rest)) N [] self) as Hself.
  destruct (update_from (map Product_ID (first :: rest)) N [] self) as [[added | e] self'];
    simpl in Hself; subst self'; [| reflexivity].
  destruct (dict_get (label_encoders self) "Product_Category") as [le_cat | e];
    [| reflexivity].
  match goal with
  | |- context [LabelEncoder.inverse_transform le_cat ?codes] =>
      destruct (LabelEncoder.inverse_transform le_cat codes); reflexivity
  end.
Qed.

(** What a returned answer is made of. *)
Lemma customer_Ok (cid : string) (N : nat) (self : RecommenderSystem)
    (prods cats : list string) (city age : string) (first : row nat)
    (rest : list (row nat)) :
  rows_of_customer cid (df self) = first :: rest ->
  fst (recommend_products_for_customer set_iteration cid N self)
    = Ok (prods, cats, city, age) ->
  exists le_city le_age le_cat added,
    dict_get (label_encoders self) "City" = Ok le_city /\
    nth_error (LabelEncoder.classes_ le_city) (City first) = Some city /\
    dict_get (label_encoders self) "Age_Group" = Ok le_age /\
    nth_error (LabelEncoder.classes_ le_age) (Age_Group first) = Some age /\
    fst (update_from (map Product_ID (first :: rest)) N [] self) = Ok added /\
    prods = firstn N (set_iteration added) /\
    dict_get (label_encoders self) "Product_Category" = Ok le_cat /\
    LabelEncoder.inverse_transform le_cat
      (map Product_Category
         (drop_duplicates String.eqb Product_ID
            (filter (fun r => mem (Product_ID r) prods) (df self)))) = Ok cats.
Proof.
  intros Hrows. unfold recommend_products_for_customer, bind, gets, lift, ret.
  rewrite Hrows.
  destruct (dict_get (label_encoders self) "City") as [le_city | e];
    [| discriminate].
  destruct (LabelEncoder.inverse_transform le_city [City first]) as [cities | e] eqn:Hc;
    [| discriminate].
  destruct (inverse_transform_one _ _ _ Hc) as (city' & -> & Hcity). simpl item0.
  destruct (dict_get (label_encoders self) "Age_Group") as [le_age | e];
    [| discriminate].
  destruct (LabelEncoder.inverse_transform le_age [Age_Group first]) as [ages | e] eqn:Ha;
    [| discriminate].
  destruct (inverse_transform_one _ _ _ Ha) as (age' & -> & Hage). simpl item0.
  pose proof (update_from_self (map Product_ID (first :: rest)) N [] self) as Hself.
  destruct (update_from (map Product_ID (first :: rest)) N [] self)
    as [[added | e] self'] eqn:Hupd; simpl in Hself; subst self'; [| discriminate].
  destruct (dict_get (label_encoders self) "Product_Category") as [le_cat | e];
    [| discriminate].
  match goal with
  | |- context [LabelEncoder.inverse_transform le_cat ?codes] =>
      destruct (LabelEncoder.inverse_transform le_cat codes) as [cats' | e] eqn:Hcats;
        [| discriminate]
  end.
  simpl. intros H. injection H as <- <- <- <-.
  exists le_city, le_age, le_cat, added. repeat split; try assumption; reflexivity.
Qed.

(** The other way round: the answer, from what each step returns. *)
Lemma customer_run (cid : string) (N : nat) (self : RecommenderSystem)
    (first : row nat) (rest : list (row nat))
    (le_city le_age le_cat : LabelEncoder.t) (city age : string)
    (recs : list (list string)) (cats : list string) :
  rows_of_customer cid (df self) = first :: rest ->
  dict_get (label_encoders self) "City" = Ok le_city ->
  nth_error (LabelEncoder.classes_ le_city) (City first) = Some city ->
  dict_get (label_encoders self) "Age_Group" = Ok le_age ->
  nth_error (LabelEncoder.classes_ le_age) (Age_Group first) = Some age ->
  Forall2 (fun p l => fst (recommend_products p N self) = Ok l)
    (map Product_ID (first :: rest)) recs ->
  dict_get (label_encoders self) "Product_Category" = Ok le_cat ->
  LabelEncoder.inverse_transform le_cat
    (map Product_Category
       (drop_duplicates String.eqb Product_ID
          (filter (fun r => mem (Product_ID r)
                     (firstn N (set_iteration (List.concat recs)))) (df self)))) = Ok cats ->
  recommend_products_for_customer set_iteration cid N self =
  (Ok (firstn N (set_iteration (List.concat recs)), cats, city, age), self).
Proof.
  intros Hrows Hdc Hcity Hda Hage Hrecs Hdp Hcats.
  unfold recommend_products_for_customer, bind, gets, lift, ret.
  rewrite Hrows, Hdc. cbn [LabelEncoder.inverse_transform rbind]. rewrite Hcity.
  cbn [rbind item0]. rewrite Hda. cbn [LabelEncoder.inverse_transform rbind].
  rewrite Hage. cbn [rbind item0].
  rewrite (update_from_run _ N [] recs self Hrecs). cbn [app].
  rewrite Hdp, Hcats. reflexivity.
Qed.

End CustomerFacts.

(* ===================================================================== *)
(** * Sorting a column, and what [recommend_products] returns             *)
(* ===================================================================== *)

Lemma insert_desc_perm (p : string * R) (s : list (string * R)) :
  Permutation (insert_desc p s) (p :: s).
Proof.
  induction s as [| q rest IH]; simpl.
  - apply Permutation_refl.
  - destruct (Rltb (snd p) (snd q)).
    + eapply perm_trans; [apply perm_skip, IH | apply perm_swap].
    + apply Permutation_refl.
Qed.

Lemma sort_desc_perm (s : list (string * R)) : Permutation (sort_desc s) s.
Proof.
  unfold sort_desc. induction s as [| p rest IH]; simpl.
  - constructor.
  - eapply perm_trans; [apply insert_desc_perm | apply perm_skip, IH].
Qed.

Lemma insert_desc_sorted (p : string * R) (s : list (string * R)) :
  StronglySorted above s -> StronglySorted above (insert_desc p s).
Proof.
  induction s as [| q rest IH]; simpl; intros Hs.
  - repeat constructor.
  - inversion Hs as [| ? ? Hrest Hq]; subst.
    unfold Rltb. destruct (Rlt_dec (snd p) (snd q)) as [Hlt | Hge].
    + constructor; [apply IH; exact Hrest |].
      rewrite Forall_forall. intros x Hx.
      apply (Permutation_in _ (insert_desc_perm p rest)) in Hx.
      destruct Hx as [<- | Hx].
      * unfold above. lra.
      * rewrite Forall_forall in Hq. apply Hq. exact Hx.
    + constructor; [exact Hs |].
      constructor; [unfold above; lra |].
      rewrite Forall_forall in Hq |- *. intros x Hx.
      specialize (Hq x Hx). unfold above in *. lra.
Qed.

Lemma sort_desc_sorted (s : list (string * R)) : StronglySorted above (sort_desc s).
Proof.
  unfold sort_desc. induction s as [| p rest IH]; simpl.
  - constructor.
  - apply insert_desc_sorted. exact IH.
Qed.

(** A sorted column that holds one value only is the column itself. *)
Lemma sort_desc_constant (c : R) (s : list (string * R)) :
  Forall (fun q => snd q = c) s -> sort_desc s = s.
Proof.
  unfold sort_desc. induction 1 as [| q rest Hq Hrest IH]; simpl.
  - reflexivity.
  - rewrite IH. destruct rest as [| q' rest']; [reflexivity |].
    simpl. inversion Hrest as [| ? ? Hq' _]; subst.
    rewrite Rltb_false by (rewrite Hq'; apply Rlt_irrefl). reflexivity.
Qed.

Lemma firstn_incl {A} (k : nat) (l : list A) : incl (firstn k l) l.
Proof.
  intros a Ha. rewrite <- (firstn_skipn k l). apply in_or_app. left. exact Ha.
Qed.

Lemma skipn_incl {A} (k : nat) (l : list A) : incl (skipn k l) l.
Proof.
  intros a Ha. rewrite <- (firstn_skipn k l). apply in_or_app. right. exact Ha.
Qed.

(** In a sorted column no row below the first [k] beats one of them. *)
Lemma sorted_head_above {A} (rel : A -> A -> Prop) (l : list A) (k : nat) :
  StronglySorted rel l ->
  forall a b, In a (firstn k l) -> In b (skipn k l) -> rel a b.
Proof.
  intros Hs. revert k. induction Hs as [| x l Hl IH Hx]; intros k a b Ha Hb.
  - rewrite firstn_nil in Ha. contradiction.
  - destruct k as [| k]; simpl in Ha, Hb; [contradiction |].
    destruct Ha as [<- | Ha].
    + rewrite Forall_forall in Hx. apply Hx.
      apply (skipn_incl k l). exact Hb.
    + apply (IH k); assumption.
Qed.


Lemma NoDup_firstn {A} (k : nat) (l : list A) : NoDup l -> NoDup (firstn k l).
Proof.
  intros H. rewrite <- (firstn_skipn k l) in H.
  apply NoDup_app_remove_r in H. exact H.
Qed.

Lemma count_occ_firstn (k : nat) (l : list string) (x : string) :
  (count_occ string_dec (firstn k l) x <= count_occ string_dec l x)%nat.
Proof.
  rewrite <- (firstn_skipn k l) at 2. rewrite count_occ_app. lia.
Qed.

Lemma positions_length (label : string) (labels : list string) (i : nat) :
  List.length (positions label labels i) = count_occ string_dec labels label.
Proof.
  revert i. induction labels as [| l rest IH]; intros i; simpl.
  - reflexivity.
  - destruct (String.eqb_spec l label) as [-> | Hne].
    + destruct (string_dec label label) as [_ | Hne]; [| congruence].
      simpl. f_equal. apply IH.
    + destruct (string_dec l label) as [Heq | _]; [congruence |]. apply IH.
Qed.

Lemma map_fst_combine {A B} (a : list A) (b : list B) :
  List.length a = List.length b -> map fst (combine a b) = a.
Proof.
  revert b. induction a as [| x a IH]; intros [| y b] H; simpl in *;
    try discriminate; [reflexivity |].
  f_equal. apply IH. lia.
Qed.

(** A Series taken from the frame: its column occurs once, and its rows
    are labelled by the index. *)
Lemma getitem_Series (sim : SimFrame) (p : string) (col : list (string * R)) :
  getitem sim p = Ok (Series col) ->
  count_occ string_dec (sim_columns sim) p = 1%nat /\
  exists j, col = combine (sim_index sim) (map (fun r => nth j r 0%R) (sim_values sim)).
Proof.
  unfold getitem. rewrite <- (positions_length p (sim_columns sim) 0).
  destruct (positions p (sim_columns sim) 0) as [| j [| j' js]]; try discriminate.
  intros H. injection H as <-. split; [reflexivity |]. exists j. reflexivity.
Qed.

Lemma getitem_labels (csv : list (option (row string))) (self : RecommenderSystem)
    (p : string) (col : list (string * R)) :
  __init__ csv = Ok self ->
  getitem (product_similarity_df self) p = Ok (Series col) ->
  map fst col = map fst (product_features self) /\
  count_occ string_dec (map fst col) p = 1%nat.
Proof.
  intros Hinit Hcol.
  destruct (init_index csv self Hinit) as (Hidx & Hcols & Hlen & _).
  destruct (getitem_Series _ _ _ Hcol) as (Hone & j & ->).
  rewrite map_fst_combine by (rewrite length_map; symmetry; exact Hlen).
  split; [exact Hidx |]. rewrite <- Hcols. exact Hone.
Qed.

(** The list [recommend_products] returns: at most [N] labels of the
    index, the query product not among them. *)
Lemma recommend_products_list (csv : list (option (row string)))
    (self : RecommenderSystem) (p : string) (N : nat) (l : list string) :
  __init__ csv = Ok self ->
  fst (recommend_products p N self) = Ok l ->
  ~ In p l /\ (List.length l <= N)%nat /\ incl l (map fst (product_features self)).
Proof.
  intros Hinit Hl.
  destruct (recommend_products_Ok p N self l Hl) as (col & Hcol & Hrem).
  destruct (getitem_labels csv self p col Hinit Hcol) as (Hlabels & Hone).
  set (top := map fst (firstn (N + 1) (sort_desc col))) in *.
  assert (Htop : (count_occ string_dec top p <= 1)%nat).
  { unfold top. rewrite <- firstn_map.
    eapply Nat.le_trans; [apply count_occ_firstn |].
    rewrite <- Hone. apply Nat.eq_le_incl.
    apply Permutation_count_occ. apply Permutation_map. apply sort_desc_perm. }
  assert (Hlen : (List.length top <= N + 1)%nat).
  { unfold top. rewrite length_map. apply firstn_le_length. }
  assert (Hincl : incl top (map fst (product_features self))).
  { rewrite <- Hlabels. unfold top. intros a Ha.
    apply in_map_iff in Ha. destruct Ha as (q & <- & Hq).
    apply in_map. apply (Permutation_in _ (sort_desc_perm col)).
    apply (firstn_incl _ _ _ Hq). }
  destruct (list_remove_Ok _ _ _ Hrem) as (pre & post & Heq & -> & Hpre).
  rewrite Heq in Htop, Hlen, Hincl.
  rewrite count_occ_app in Htop. simpl in Htop.
  destruct (string_dec p p) as [_ | Hne]; [| congruence].
  rewrite length_app in Hlen |- *. simpl in Hlen.
  repeat split.
  - intros Hin. apply in_app_or in Hin. destruct Hin as [Hin | Hin].
    + exact (Hpre Hin).
    + apply (count_occ_In string_dec) in Hin. lia.
  - lia.
  - intros a Ha. apply Hincl. apply in_app_or in Ha. apply in_or_app.
    destruct Ha as [Ha | Ha]; [left | right; right]; exact Ha.
Qed.

(** ** Counting the rows of a column *)

Lemma filter_length_perm {A} (f : A -> bool) (l l' : list A) :
  Permutation l l' -> List.length (filter f l) = List.length (filter f l').
Proof.
  induction 1 as [| x l l' _ IH | x y l | l l' l'' _ IH1 _ IH2]; simpl.
  - reflexivity.
  - destruct (f x); simpl; congruence.
  - destruct (f x), (f y); reflexivity.
  - congruence.
Qed.

Lemma filter_nothing {A} (f : A -> bool) (l : list A) :
  (forall a, In a l -> f a = false) -> filter f l = [].
Proof.
  induction l as [| a l IH]; simpl; intros H; [reflexivity |].
  rewrite (H a (or_introl eq_refl)). apply IH. intros b Hb. apply H. right. exact Hb.
Qed.

Lemma filter_everything {A} (f : A -> bool) (l : list A) :
  (forall a, In a l -> f a = true) -> filter f l = l.
Proof.
  induction l as [| a l IH]; simpl; intros H; [reflexivity |].
  rewrite (H a (or_introl eq_refl)). f_equal. apply IH. intros b Hb.
  apply H. right. exact Hb.
Qed.

Lemma filter_length_lt {A} (f : A -> bool) (l : list A) (a : A) :
  In a l -> f a = false -> (List.length (filter f l) < List.length l)%nat.
Proof.
  induction l as [| b l IH]; simpl; intros Hin Hf; [contradiction |].
  pose proof (filter_length_le f l) as Hle.
  destruct Hin as [-> | Hin].
  - rewrite Hf. lia.
  - specialize (IH Hin Hf). destruct (f b); simpl; lia.
Qed.

(** In a sorted list, the rows before a row are not below it. *)
Lemma StronglySorted_before {A} (rel : A -> A -> Prop) (l1 l2 : list A) (b : A) :
  StronglySorted rel (l1 ++ b :: l2) -> forall a, In a l1 -> rel a b.
Proof.
  induction l1 as [| x l1 IH]; simpl; intros Hs a Ha; [contradiction |].
  apply StronglySorted_inv in Hs. destruct Hs as (Hs & Hx).
  destruct Ha as [<- | Ha].
  - apply (proj1 (Forall_forall _ _) Hx). apply in_or_app. right. left. reflexivity.
  - apply (IH Hs a Ha).
Qed.

(** A row among the [N + 1] first rows of the sorted column has at most
    [N] rows of the column strictly above it, however rows of equal value
    are ordered. *)
Lemma head_row_few_above (s : list (string * R)) (N : nat) (x : string) (v : R) :
  In (x, v) (firstn (N + 1) (sort_desc s)) ->
  (List.length (filter (fun row => Rltb v (snd row)) s) <= N)%nat.
Proof.
  intros Hx.
  rewrite <- (filter_length_perm _ _ _ (sort_desc_perm s)).
  rewrite <- (firstn_skipn (N + 1) (sort_desc s)) at 1.
  rewrite filter_app, length_app.
  rewrite (filter_nothing _ (skipn (N + 1) (sort_desc s))).
  - pose proof (filter_length_lt (fun row : string * R => Rltb v (snd row))
                  _ (x, v) Hx) as Hlt.
    pose proof (firstn_le_length (N + 1) (sort_desc s)) as Hlen.
    simpl in Hlt. rewrite Rltb_false in Hlt by lra.
    specialize (Hlt eq_refl). simpl. lia.
  - intros [y w] Hy. simpl. apply Rltb_false.
    pose proof (sorted_head_above above (sort_desc s) (N + 1) (sort_desc_sorted s)
                  (x, v) (y, w) Hx Hy) as Habove.
    unfold above in Habove. simpl in Habove. lra.
Qed.

(** A row whose label occurs once, with at most [N] other rows not below
    it, is among the [N + 1] first rows of the sorted column, however
    rows of equal value are ordered. *)
Lemma unrivalled_row_in_head (s : list (string * R)) (N : nat) (p : string) (v : R) :
  count_occ string_dec (map fst s) p = 1%nat ->
  In (p, v) s ->
  (List.length
     (filter (fun row => negb (String.eqb (fst row) p) && negb (Rltb (snd row) v)) s)
   <= N)%nat ->
  In p (map fst (firstn (N + 1) (sort_desc s))).
Proof.
  intros Hone Hin Hfew.
  rewrite <- (filter_length_perm _ _ _ (sort_desc_perm s)) in Hfew.
  assert (Hone' : count_occ string_dec (map fst (sort_desc s)) p = 1%nat).
  { rewrite <- Hone. apply Permutation_count_occ.
    apply Permutation_map. apply sort_desc_perm. }
  pose proof (sort_desc_sorted s) as Hsorted.
  apply (Permutation_in _ (Permutation_sym (sort_desc_perm s))) in Hin.
  apply in_split in Hin. destruct Hin as (l1 & l2 & Heq).
  rewrite Heq in Hfew, Hone', Hsorted |- *.
  rewrite map_app, count_occ_app in Hone'. cbn [map fst count_occ] in Hone'.
  destruct (string_dec p p) as [_ | Hne]; [| contradiction].
  assert (Hnot : ~ In p (map fst l1)).
  { apply (count_occ_not_In string_dec). lia. }
  rewrite filter_app, length_app in Hfew.
  rewrite (filter_everything _ l1) in Hfew.
  - rewrite firstn_app, map_app. apply in_or_app. right.
    replace (N + 1 - List.length l1)%nat with (S (N - List.length l1)) by lia.
    left. reflexivity.
  - intros [y w] Hy. cbn [fst snd]. apply andb_true_intro. split.
    + apply negb_true_iff. apply String.eqb_neq. intros ->.
      apply Hnot. apply (in_map fst _ _ Hy).
    + apply negb_true_iff. apply Rltb_false.
      pose proof (StronglySorted_before above l1 l2 (p, v) Hsorted (y, w) Hy) as Habove.
      unfold above in Habove. simpl in Habove. lra.
Qed.

(* ===================================================================== *)
(** * A product whose feature vector is zero                              *)
(* ===================================================================== *)

Lemma positions_In (label : string) (labels : list string) (k j : nat) :
  In j (positions label labels k) <->
  (k <= j)%nat /\ nth_error labels (j - k) = Some label.
Proof.
  revert k. induction labels as [| l rest IH]; intros k; simpl.
  - split; [contradiction |]. intros (_ & H). destruct (j - k)%nat; discriminate.
  - assert (Hrest : In j (positions label rest (S k)) <->
                    (k < j)%nat /\ nth_error (l :: rest) (j - k) = Some label).
    { rewrite IH. split; intros (Hle & Hnth); (split; [lia |]).
      - replace (j - k)%nat with (S (j - S k)) by lia. exact Hnth.
      - replace (j - k)%nat with (S (j - S k)) in Hnth by lia. exact Hnth. }
    destruct (String.eqb_spec l label) as [-> | Hne].
    + simpl. rewrite Hrest. split.
      * intros [<- | (Hlt & Hnth)].
        -- split; [lia |]. rewrite Nat.sub_diag. reflexivity.
        -- split; [lia | exact Hnth].
      * intros (Hle & Hnth). destruct (Nat.eq_dec k j) as [-> | Hkj]; [left; reflexivity |].
        right. split; [lia | exact Hnth].
    + rewrite Hrest. split.
      * intros (Hlt & Hnth). split; [lia | exact Hnth].
      * intros (Hle & Hnth). split; [| exact Hnth].
        destruct (Nat.eq_dec k j) as [-> | Hkj]; [| lia].
        rewrite Nat.sub_diag in Hnth. simpl in Hnth. congruence.
Qed.

Section ZeroRow.
Local Open Scope R_scope.

Variable csv : list (option (row string)).
Variable self : RecommenderSystem.
Hypothesis built : __init__ csv = Ok self.

Variable i : nat.
Variable p : string.
Variable v : list (option R).
Hypothesis at_i : nth_error (product_features self) i = Some (p, v).
Hypothesis all_zero : Forall (fun c => c = Some 0) v.

(** Its similarity column, when it is a Series, is zero on every row. *)
Lemma zero_row_column (col : list (string * R)) :
  getitem (product_similarity_df self) p = Ok (Series col) ->
  map fst col = map fst (product_features self) /\
  Forall (fun q => snd q = 0) col /\
  (forall k, nth_error (map fst col) k = Some p -> k = i).
Proof.
  intros Hcol.
  destruct (getitem_labels csv self p col built Hcol) as (Hlabels & _).
  destruct (init_Ok csv self built) as (X & _ & _ & _ & _ & HX & Hsim).
  destruct (init_index csv self built) as (Hidx & Hcols & Hlen & _).
  assert (Hpi : nth_error (sim_columns (product_similarity_df self)) i = Some p).
  { rewrite Hcols, Hidx, nth_error_map, at_i. reflexivity. }
  unfold getitem in Hcol.
  destruct (positions p (sim_columns (product_similarity_df self)) 0)
    as [| j [| j' js]] eqn:Hpos; try discriminate.
  assert (Honly : forall k,
             nth_error (sim_columns (product_similarity_df self)) k = Some p -> k = j).
  { intros k Hk.
    assert (Hin : In k (positions p (sim_columns (product_similarity_df self)) 0)).
    { apply positions_In. rewrite Nat.sub_0_r. split; [lia | exact Hk]. }
    rewrite Hpos in Hin. destruct Hin as [<- | []]. reflexivity. }
  assert (j = i) as -> by (symmetry; apply Honly; exact Hpi).
  injection Hcol as <-.
  split; [exact Hlabels |]. split.
  - rewrite Forall_forall. intros [a w] Hq. simpl.
    apply in_combine_r in Hq. apply in_map_iff in Hq.
    destruct Hq as (r & <- & Hr). rewrite Hsim in Hr. simpl in Hr.
    unfold Pairwise.cosine_similarity in Hr. apply in_map_iff in Hr.
    destruct Hr as (x & <- & _).
    assert (Hvi : nth_error (map snd (product_features self)) i = Some v)
      by (rewrite nth_error_map, at_i; reflexivity).
    destruct (finite_rows_nth _ _ HX i v Hvi) as (z & Hz & Hvz).
    assert (Hcell : nth i (map (fun y => Pairwise.cosine x y) X) 0 = Pairwise.cosine x z).
    { apply nth_error_nth. rewrite nth_error_map, Hz. reflexivity. }
    rewrite Hcell. apply PairwiseFacts.cosine_zero_row_r.
    apply PairwiseFacts.dot_self_zero_iff.
    rewrite Forall_forall in all_zero |- *. intros a' Ha'.
    assert (Hin : In (Some a') v) by (rewrite Hvz; apply in_map; exact Ha').
    specialize (all_zero _ Hin). injection all_zero as ->. reflexivity.
  - intros k Hk. apply Honly. rewrite Hcols, Hidx, <- Hlabels.
    rewrite map_fst_combine in Hk |- * by (rewrite length_map; symmetry; exact Hlen).
    exact Hk.
Qed.

(** With [num_recommendations + 1] rows or more above it in the table,
    the removal does not find it. *)
Lemma zero_row_query_raises (N : nat) (col : list (string * R)) :
  getitem (product_similarity_df self) p = Ok (Series col) ->
  (N + 1 <= i)%nat ->
  recommend_products p N self = (Raise ValueError, self).
Proof.
  intros Hcol Hi.
  destruct (zero_row_column col Hcol) as (_ & Hzero & Honly).
  rewrite (recommend_products_run self p N col Hcol).
  rewrite (sort_desc_constant 0 col Hzero).
  rewrite list_remove_absent; [reflexivity |].
  intros Hin. rewrite <- firstn_map in Hin.
  destruct (In_nth_error _ _ Hin) as (k & Hk).
  assert (Hlt : (k < N + 1)%nat).
  { assert (Hsome : nth_error (firstn (N + 1) (map fst col)) k <> None)
      by (rewrite Hk; discriminate).
    apply nth_error_Some in Hsome. rewrite length_firstn in Hsome. lia. }
  rewrite nth_error_firstn in Hk.
  destruct (Nat.ltb_spec k (N + 1)) as [_ | Hge]; [| lia].
  apply Honly in Hk. lia.
Qed.

End ZeroRow.

(* ===================================================================== *)
(** * The two datasets, run                                               *)
(* ===================================================================== *)

(** Decides the comparisons of float literals met while running a
    method. *)
Ltac eval_R_step :=
  match goal with
  | |- context [Rmin ?a ?b] =>
      first [ rewrite (Rmin_left a b) by lra | rewrite (Rmin_right a b) by lra ]
  | |- context [Rmax ?a ?b] =>
      first [ rewrite (Rmax_left a b) by lra | rewrite (Rmax_right a b) by lra ]
  | |- context [Reqb ?a ?b] =>
      first [ rewrite (Reqb_true a b) by lra | rewrite (Reqb_false a b) by lra ]
  | |- context [Rltb ?a ?b] =>
      first [ rewrite (Rltb_true a b) by lra | rewrite (Rltb_false a b) by lra ]
  end.

Ltac eval_R := repeat (eval_R_step; cbn [andb orb negb forallb existsb]).

Ltac eval_dot :=
  unfold Pairwise.dot; cbn [combine map fold_right fst snd]; try lra.

Ltac eval_cells :=
  do 2 f_equal;
  repeat match goal with
         | |- (_ :: _) = (_ :: _) =>
             apply f_equal2; [ apply (f_equal (pair _)); eval_dot | ]
         end;
  try reflexivity.

Ltac eval_sort :=
  unfold sort_desc;
  repeat (cbn [fold_right insert_desc fst snd]; eval_R_step);
  cbn [fold_right insert_desc fst snd].

Section Runs.
Import Pairwise PairwiseFacts.
Local Open Scope R_scope.

(** ** The grocery *)

Lemma grocery_encoded :
  _encode_features (dropna grocery) = (grocery_frame, grocery_encoders).
Proof. reflexivity. Qed.

Lemma grocery_product_features :
  _create_product_features grocery_frame = grocery_features.
Proof.
  unfold _create_product_features, drop_duplicates, grocery_frame, grocery_features.
  cbn. eval_R. cbn. 
  unfold min_max, col_min, col_max. cbn. eval_R.
  repeat (f_equal; try lra).
Qed.

Lemma grocery_init : __init__ grocery = Ok grocery_system.
Proof.
  unfold __init__. rewrite grocery_encoded, grocery_product_features.
  reflexivity.
Qed.

Lemma grocery_column_Bread :
  getitem grocery_sim "Bread" =
  Ok (Series [("Bread", 1); ("Milk", 1 / 2); ("Chips", 0)]).
Proof.
  unfold getitem.
  cbn [grocery_sim sim_columns sim_index sim_values positions String.eqb Ascii.eqb Bool.eqb].
  unfold cosine_similarity, grocery_rows. cbn [map nth combine].
  rewrite !cosine_formula.
  rewrite (scale_of_norm [0; 1; 0; 0; 0; 0; 0] 1) by eval_dot.
  rewrite (scale_of_norm [1; 1; 1; 1; 0; 0; 0] 2) by eval_dot.
  eval_cells.
Qed.

Lemma grocery_column_Milk :
  getitem grocery_sim "Milk" =
  Ok (Series [("Bread", 1 / 2); ("Milk", 1); ("Chips", 2 / 3)]).
Proof.
  unfold getitem.
  cbn [grocery_sim sim_columns sim_index sim_values positions String.eqb Ascii.eqb Bool.eqb].
  unfold cosine_similarity, grocery_rows. cbn [map nth combine].
  rewrite !cosine_formula.
  rewrite (scale_of_norm [0; 1; 0; 0; 0; 0; 0] 1) by eval_dot.
  rewrite (scale_of_norm [1; 1; 1; 1; 0; 0; 0] 2) by eval_dot.
  rewrite (scale_of_norm [2; 0; 1; 1; 1; 1; 1] 3) by eval_dot.
  eval_cells.
Qed.

Lemma grocery_recommend_Bread :
  recommend_products "Bread" 2 grocery_system = (Ok ["Milk"; "Chips"], grocery_system).
Proof.
  rewrite (recommend_products_run grocery_system "Bread" 2 _ grocery_column_Bread).
  eval_sort. reflexivity.
Qed.

Lemma grocery_recommend_Milk :
  recommend_products "Milk" 2 grocery_system = (Ok ["Chips"; "Bread"], grocery_system).
Proof.
  rewrite (recommend_products_run grocery_system "Milk" 2 _ grocery_column_Milk).
  eval_sort. reflexivity.
Qed.

Lemma grocery_recommend_Milk_5 :
  recommend_products "Milk" 5 grocery_system = (Ok ["Chips"; "Bread"], grocery_system).
Proof.
  rewrite (recommend_products_run grocery_system "Milk" 5 _ grocery_column_Milk).
  eval_sort. reflexivity.
Qed.

(** ** The dairy *)

Lemma dairy_encoded :
  _encode_features (dropna dairy) = (dairy_frame, dairy_encoders).
Proof. reflexivity. Qed.

Lemma dairy_product_features :
  _create_product_features dairy_frame = dairy_features.
Proof.
  unfold _create_product_features, drop_duplicates, dairy_frame, dairy_features.
  cbn. eval_R. cbn.
  unfold min_max, col_min, col_max. cbn. eval_R.
  repeat (f_equal; try lra).
Qed.

Lemma dairy_init : __init__ dairy = Ok dairy_system.
Proof.
  unfold __init__. rewrite dairy_encoded, dairy_product_features.
  reflexivity.
Qed.

Lemma dairy_column_Bread :
  getitem dairy_sim "Bread" =
  Ok (Series [("Milk", 0); ("Curd", 0); ("Bread", 0)]).
Proof.
  unfold getitem.
  cbn [dairy_sim sim_columns sim_index sim_values positions String.eqb Ascii.eqb Bool.eqb].
  unfold cosine_similarity, dairy_rows. cbn [map nth combine].
  rewrite !(cosine_zero_row_r _ [0; 0; 0; 0; 0; 0; 0]) by eval_dot.
  reflexivity.
Qed.

Lemma dairy_recommend_Bread :
  recommend_products "Bread" 1 dairy_system = (Raise ValueError, dairy_system).
Proof.
  rewrite (recommend_products_run dairy_system "Bread" 1 _ dairy_column_Bread).
  eval_sort. reflexivity.
Qed.

(** ** The pantry *)

Lemma pantry_encoded :
  _encode_features (dropna pantry) = (pantry_frame, pantry_encoders).
Proof. reflexivity. Qed.

Lemma pantry_product_features :
  _create_product_features pantry_frame = pantry_features.
Proof.
  unfold _create_product_features, drop_duplicates, pantry_frame, pantry_features.
  cbn. eval_R. cbn.
  unfold min_max, col_min, col_max. cbn. eval_R.
  repeat (f_equal; try lra).
Qed.

Lemma pantry_init : __init__ pantry = Ok pantry_system.
Proof.
  unfold __init__. rewrite pantry_encoded, pantry_product_features.
  reflexivity.
Qed.

(** ** The grocery, its lines in another order *)

Lemma grocery_restocked_encoded :
  _encode_features (dropna grocery_restocked)
  = (grocery_restocked_frame, grocery_encoders).
Proof. reflexivity. Qed.

Lemma grocery_restocked_product_features :
  _create_product_features grocery_restocked_frame = grocery_restocked_features.
Proof.
  unfold _create_product_features, drop_duplicates, grocery_restocked_frame,
    grocery_restocked_features.
  cbn. eval_R. cbn.
  unfold min_max, col_min, col_max. cbn. eval_R.
  repeat (f_equal; try lra).
Qed.

Lemma grocery_restocked_init : __init__ grocery_restocked = Ok grocery_restocked_system.
Proof.
  unfold __init__.
  rewrite grocery_restocked_encoded, grocery_restocked_product_features.
  reflexivity.
Qed.

Lemma grocery_restocked_column_Milk :
  getitem grocery_restocked_sim "Milk" =
  Ok (Series [("Chips", 2 / 3); ("Milk", 1); ("Bread", 1 / 2)]).
Proof.
  unfold getitem.
  cbn [grocery_restocked_sim sim_columns sim_index sim_values positions
       String.eqb Ascii.eqb Bool.eqb].
  unfold cosine_similarity, grocery_restocked_rows. cbn [map nth combine].
  rewrite !cosine_formula.
  rewrite (scale_of_norm [0; 1; 0; 0; 0; 0; 0] 1) by eval_dot.
  rewrite (scale_of_norm [1; 1; 1; 1; 0; 0; 0] 2) by eval_dot.
  rewrite (scale_of_norm [2; 0; 1; 1; 1; 1; 1] 3) by eval_dot.
  eval_cells.
Qed.

Lemma grocery_restocked_recommend_Milk_5 :
  recommend_products "Milk" 5 grocery_restocked_system
  = (Ok ["Chips"; "Bread"], grocery_restocked_system).
Proof.
  rewrite (recommend_products_run grocery_restocked_system "Milk" 5 _
             grocery_restocked_column_Milk).
  eval_sort. reflexivity.
Qed.

(** ** One product at two prices *)

Lemma repriced_encoded :
  _encode_features (dropna repriced) = (repriced_frame, repriced_encoders).
Proof. reflexivity. Qed.

Lemma repriced_product_features :
  _create_product_features repriced_frame = repriced_features.
Proof.
  unfold _create_product_features, drop_duplicates, repriced_frame, repriced_features.
  cbn. eval_R. cbn.
  unfold min_max, col_min, col_max. cbn. eval_R.
  repeat (f_equal; try lra).
Qed.

Lemma repriced_init : __init__ repriced = Ok repriced_system.
Proof.
  unfold __init__. rewrite repriced_encoded, repriced_product_features.
  reflexivity.
Qed.

(** The label selects two columns, and the sort of a frame lacks its
    [by] argument. *)
Lemma repriced_recommend_Milk (N : nat) :
  recommend_products "Milk" N repriced_system = (Raise TypeError, repriced_system).
Proof. reflexivity. Qed.

End Runs.

(* ===================================================================== *)
(** * The similarity matrix                                               *)
(* ===================================================================== *)

Section SimilarityMatrix.
Local Open Scope R_scope.

Lemma map_Some_inj {A} (x y : list A) : map Some x = map Some y -> x = y.
Proof.
  revert y. induction x as [| a x IH]; intros [| b y] H; simpl in H;
    try discriminate.
  - reflexivity.
  - injection H as -> H. f_equal. apply IH. exact H.
Qed.

(** The cell at two positions of the index is a cosine, whatever the
    feature vectors are. *)
Lemma cell_is_cosine (csv : list (option (row string))) (self : RecommenderSystem)
    (i j : nat) (a b : string) :
  __init__ csv = Ok self ->
  nth_error (sim_index (product_similarity_df self)) i = Some a ->
  nth_error (sim_index (product_similarity_df self)) j = Some b ->
  exists x y,
    entry (product_similarity_df self) i j = Pairwise.cosine x y /\
    entry (product_similarity_df self) j i = Pairwise.cosine y x.
Proof.
  intros Hinit Hi Hj.
  destruct (index_features csv self Hinit i a Hi) as (v & Hv).
  destruct (index_features csv self Hinit j b Hj) as (w & Hw).
  destruct (init_entry csv self Hinit i j a b v w Hv Hw) as (x & y & Hx & Hy & Hij).
  destruct (init_entry csv self Hinit j i b a w v Hw Hv) as (y' & x' & Hy' & Hx' & Hji).
  rewrite Hx in Hx'. apply map_Some_inj in Hx'. subst x'.
  rewrite Hy in Hy'. apply map_Some_inj in Hy'. subst y'.
  exists x, y. split; assumption.
Qed.


(** C3.  For every two products of the product feature table the cell of
    the similarity matrix at (a, b) equals the cell at (b, a): by
    position, and by label. *)
Theorem similarity_symmetric (csv : list (option (row string)))
    (self : RecommenderSystem) :
  __init__ csv = Ok self ->
  (forall i j a b,
      nth_error (sim_index (product_similarity_df self)) i = Some a ->
      nth_error (sim_index (product_similarity_df self)) j = Some b ->
      entry (product_similarity_df self) i j = entry (product_similarity_df self) j i) /\
  (forall a b,
      In a (sim_index (product_similarity_df self)) ->
      In b (sim_index (product_similarity_df self)) ->
      loc (product_similarity_df self) a b = loc (product_similarity_df self) b a).
Proof.
  intros Hinit.
  assert (Hpos : forall i j a b,
             nth_error (sim_index (product_similarity_df self)) i = Some a ->
             nth_error (sim_index (product_similarity_df self)) j = Some b ->
             entry (product_similarity_df self) i j
             = entry (product_similarity_df self) j i).
  { intros i j a b Hi Hj.
    destruct (cell_is_cosine csv self i j a b Hinit Hi Hj) as (x & y & -> & ->).
    apply PairwiseFacts.cosine_comm. }
  split; [exact Hpos |].
  intros a b Ha Hb. unfold loc.
  destruct (init_index csv self Hinit) as (_ & Hcols & _).
  rewrite Hcols.
  apply (Hpos _ _ a b); apply index_of_nth_error; assumption.
Qed.

(** C8, as the code has it.  The similarity matrix is square, its rows
    and its columns carry the product identifiers of the product feature
    table, in the same order, and in exact arithmetic every cell lies in
    [-1, 1].  (Computed in binary64 a cell can be above 1 by a rounding
    error: see [similarity_above_one_in_binary64].) *)
Theorem similarity_matrix_shape (csv : list (option (row string)))
    (self : RecommenderSystem) :
  __init__ csv = Ok self ->
  sim_index (product_similarity_df self) = map fst (product_features self) /\
  sim_columns (product_similarity_df self) = sim_index (product_similarity_df self) /\
  List.length (sim_values (product_similarity_df self))
    = List.length (sim_index (product_similarity_df self)) /\
  (forall r, In r (sim_values (product_similarity_df self)) ->
     List.length r = List.length (sim_columns (product_similarity_df self))) /\
  (forall i j,
     (i < List.length (sim_index (product_similarity_df self)))%nat ->
     (j < List.length (sim_columns (product_similarity_df self)))%nat ->
     -1 <= entry (product_similarity_df self) i j <= 1).
Proof.
  intros Hinit.
  destruct (init_index csv self Hinit) as (Hidx & Hcols & Hlen & Hrows).
  split; [exact Hidx |]. split; [exact Hcols |]. split; [exact Hlen |].
  split; [exact Hrows |].
  intros i j Hi Hj. rewrite Hcols in Hj.
  destruct (nth_error (sim_index (product_similarity_df self)) i) as [a |] eqn:Ha;
    [| apply nth_error_None in Ha; lia].
  destruct (nth_error (sim_index (product_similarity_df self)) j) as [b |] eqn:Hb;
    [| apply nth_error_None in Hb; lia].
  destruct (cell_is_cosine csv self i j a b Hinit Ha Hb) as (x & y & -> & _).
  apply PairwiseFacts.cosine_bounds.
Qed.

End SimilarityMatrix.

(* ===================================================================== *)
(** * The product feature table                                           *)
(* ===================================================================== *)

Section ProductFeatures.
Local Open Scope R_scope.

Lemma product_features_row (frame : list (row nat)) (id : string)
    (v : list (option R)) :
  In (id, v) (_create_product_features frame) ->
  exists r selected,
    In r selected /\ incl selected frame /\ id = Product_ID r /\
    v = Some (INR (Product_Category r))
          :: map (fun col => min_max (map col selected) (col r)) numeric_columns.
Proof.
  unfold _create_product_features. intros H. apply in_map_iff in H.
  destruct H as (r & Heq & Hr). injection Heq as <- <-.
  exists r, (drop_duplicates product_key_eqb product_key frame).
  repeat split; [exact Hr | apply drop_duplicates_incl].
Qed.

Lemma product_ids_in_frame (csv : list (option (row string)))
    (self : RecommenderSystem) (p : string) :
  __init__ csv = Ok self ->
  In p (map fst (product_features self)) -> In p (map Product_ID (df self)).
Proof.
  intros Hinit Hp. destruct (init_Ok csv self Hinit) as (_ & _ & _ & Hpf & _).
  apply in_map_iff in Hp. destruct Hp as ([id v] & <- & Hin).
  rewrite Hpf in Hin.
  destruct (product_features_row _ _ _ Hin) as (r & selected & Hr & Hincl & -> & _).
  simpl. apply in_map. apply Hincl. exact Hr.
Qed.

(** C5, as the code has it.  After construction every row of the product
    feature table is the code of the product category, an integer below
    the number of categories, followed by the six numeric columns, each
    of them rescaled into [0, 1] (exact arithmetic: the subtractions of
    the rescaling neither wrap around nor overflow). *)
Theorem numeric_columns_rescaled (csv : list (option (row string)))
    (self : RecommenderSystem) (id : string) (v : list (option R)) :
  __init__ csv = Ok self ->
  In (id, v) (product_features self) ->
  exists (c : nat) (scaled : list (option R)) (le : LabelEncoder.t),
    v = Some (INR c) :: scaled /\
    List.length scaled = 6%nat /\
    normalized scaled /\
    dict_get (label_encoders self) "Product_Category" = Ok le /\
    (c < List.length (LabelEncoder.classes_ le))%nat.
Proof.
  intros Hinit Hin.
  destruct (init_Ok csv self Hinit) as (X & Hdf & Henc & Hpf & _ & HX & _).
  assert (Hfinite : exists x, v = map Some x).
  { destruct (In_nth_error _ _ Hin) as (i & Hi).
    assert (Hi' : nth_error (map snd (product_features self)) i = Some v)
      by (rewrite nth_error_map, Hi; reflexivity).
    destruct (finite_rows_nth _ _ HX i v Hi') as (x & _ & Hx). exists x. exact Hx. }
  destruct Hfinite as (x & Hx).
  rewrite Hpf in Hin.
  destruct (product_features_row _ _ _ Hin) as (r & selected & Hr & Hincl & _ & Hv).
  exists (Product_Category r),
    (map (fun col => min_max (map col selected) (col r)) numeric_columns),
    (LabelEncoder.fit (map Product_Category (dropna csv))).
  split; [exact Hv |]. split; [reflexivity |]. split; [| split].
  - unfold normalized. rewrite Forall_forall. intros cell Hcell.
    assert (Hsome : exists a, cell = Some a).
    { assert (Hc : In cell v) by (rewrite Hv; right; exact Hcell).
      rewrite Hx in Hc. apply in_map_iff in Hc.
      destruct Hc as (a & <- & _). exists a. reflexivity. }
    destruct Hsome as (a & ->).
    apply in_map_iff in Hcell. destruct Hcell as (col & Hcol & _).
    exists a. split; [reflexivity |].
    apply (min_max_unit (map col selected) (col r) a); [| exact Hcol].
    apply in_map. exact Hr.
  - rewrite Henc. reflexivity.
  - assert (Hrf : In r (df self)) by (apply Hincl; exact Hr).
    rewrite Hdf, encode_features_rows in Hrf. apply in_map_iff in Hrf.
    destruct Hrf as (r0 & <- & Hr0). simpl.
    unfold LabelEncoder.code. apply index_of_lt. simpl.
    apply LabelEncoderFacts.unique_In. apply in_map. exact Hr0.
Qed.

End ProductFeatures.

(* ===================================================================== *)
(** * An identifier the dataset does not hold                             *)
(* ===================================================================== *)

Lemma rows_of_unknown_customer {A} (cid : string) (frame : list (row A)) :
  ~ In cid (map Customer_ID frame) -> rows_of_customer cid frame = [].
Proof.
  unfold rows_of_customer. induction frame as [| r rest IH]; simpl; intros H.
  - reflexivity.
  - destruct (String.eqb_spec (Customer_ID r) cid) as [Heq | Hne].
    + exfalso. apply H. left. exact Heq.
    + apply IH. intros Hin. apply H. right. exact Hin.
Qed.

Lemma rows_of_customer_In {A} (cid : string) (frame : list (row A)) (r : row A) :
  In r (rows_of_customer cid frame) <-> In r frame /\ Customer_ID r = cid.
Proof.
  unfold rows_of_customer. rewrite filter_In, String.eqb_eq. reflexivity.
Qed.

(** C4.  For a customer identifier that is not in the [Customer_ID]
    column of the loaded dataset, [recommend_products_for_customer]
    returns no product, no category and "Unknown" for the city and for
    the age group; the instance (dataset, encoders, feature table,
    similarity matrix) is as before the call; and the page shows its
    warning. *)
Theorem unknown_customer (set_iteration : list string -> list string)
    (self : RecommenderSystem) (customer_id : string) (num_recommendations : nat) :
  ~ In customer_id (map Customer_ID (df self)) ->
  recommend_products_for_customer set_iteration customer_id num_recommendations self
    = (Ok ([], [], "Unknown", "Unknown"), self) /\
  exists message,
    on_get_recommendations set_iteration customer_id self = (Ok (Warning message), self).
Proof.
  intros Hnot.
  assert (Hcall : forall N,
             recommend_products_for_customer set_iteration customer_id N self
             = (Ok ([], [], "Unknown", "Unknown"), self)).
  { intros N. unfold recommend_products_for_customer, bind, gets, ret.
    rewrite (rows_of_unknown_customer customer_id (df self) Hnot). reflexivity. }
  split; [apply Hcall |].
  unfold on_get_recommendations, bind. rewrite Hcall. simpl.
  eexists. reflexivity.
Qed.

(* ===================================================================== *)
(** * The label encoders                                                  *)
(* ===================================================================== *)

Lemma rows_of_customer_encoded (cid : string) (raw : list (row string)) :
  rows_of_customer cid (fst (_encode_features raw)) =
  map (encode_row (LabelEncoder.fit (map Gender raw))
         (LabelEncoder.fit (map City raw))
         (LabelEncoder.fit (map Product_Category raw))
         (LabelEncoder.fit (map Payment_Method raw))
         (LabelEncoder.fit (map Age_Group raw))
         (LabelEncoder.fit (map Loyalty_Tier raw)))
      (rows_of_customer cid raw).
Proof.
  rewrite encode_features_rows. unfold rows_of_customer.
  rewrite filter_map_comm. reflexivity.
Qed.

Lemma categories_of_encoded (prods : list string) (raw : list (row string)) :
  map Product_Category
    (drop_duplicates String.eqb Product_ID
       (filter (fun r => mem (Product_ID r) prods) (fst (_encode_features raw)))) =
  map (LabelEncoder.code (LabelEncoder.fit (map Product_Category raw)))
    (map Product_Category
       (drop_duplicates String.eqb Product_ID
          (filter (fun r => mem (Product_ID r) prods) raw))).
Proof.
  rewrite encode_features_rows, filter_map_comm. unfold drop_duplicates.
  rewrite drop_duplicates_from_map, !map_map. reflexivity.
Qed.

(** C9.  Every encoder stored for one of the six encoded columns decodes
    what it encoded: on each row of the loaded dataset the cell of the
    encoded frame is the code of the original value and
    [inverse_transform] gives the original value back.  So the city and
    the age group returned for a customer are those of the customer's
    first row, and the categories returned are the original category
    strings of the selected rows. *)
Theorem label_encoding_invertible (csv : list (option (row string)))
    (self : RecommenderSystem) :
  __init__ csv = Ok self ->
  (forall name column, In (name, column) categorical_columns ->
     exists le,
       dict_get (label_encoders self) name = Ok le /\
       forall i r, nth_error (dropna csv) i = Some r ->
         exists r',
           nth_error (df self) i = Some r' /\
           LabelEncoder.transform le [column string r] = Ok [column nat r'] /\
           LabelEncoder.inverse_transform le [column nat r'] = Ok [column string r]) /\
  (forall set_iteration cid N prods cats city age first rest,
     rows_of_customer cid (dropna csv) = first :: rest ->
     fst (recommend_products_for_customer set_iteration cid N self)
       = Ok (prods, cats, city, age) ->
     city = City first /\ age = Age_Group first /\
     cats = map Product_Category
              (drop_duplicates String.eqb Product_ID
                 (filter (fun r => mem (Product_ID r) prods) (dropna csv)))).
Proof.
  intros Hinit.
  destruct (init_Ok csv self Hinit) as (_ & Hdf & Henc & _).
  set (raw := dropna csv) in *.
  split.
  - intros name column Hin.
    destruct (encode_features_column raw name column Hin) as (Hget & Hrows).
    exists (LabelEncoder.fit (map (column string) raw)).
    split; [rewrite Henc; exact Hget |].
    intros i r Hi. destruct (Hrows i r Hi) as (r' & Hi' & _ & _ & Hcode).
    assert (Hmem : In (column string r) (map (column string) raw))
      by (apply in_map; apply (nth_error_In _ _ Hi)).
    exists r'. split; [rewrite Hdf; exact Hi' |]. rewrite Hcode. split.
    + apply LabelEncoderFacts.transform_fit. exact Hmem.
    + apply LabelEncoderFacts.inverse_transform_fit. exact Hmem.
  - intros set_iteration cid N prods cats city age first rest Hrows Hcall.
    assert (Hfirst : In first raw).
    { apply (rows_of_customer_In cid raw first). rewrite Hrows. left. reflexivity. }
    pose proof (rows_of_customer_encoded cid raw) as Henc_rows.
    rewrite <- Hdf, Hrows in Henc_rows. cbn [map] in Henc_rows.
    destruct (customer_Ok set_iteration cid N self prods cats city age _ _
                Henc_rows Hcall)
      as (le_city & le_age & le_cat & added & Hdc & Hcity & Hda & Hage & _ & _ & Hdp & Hcats).
    rewrite Henc in Hdc, Hda, Hdp.
    injection Hdc as <-. injection Hda as <-. injection Hdp as <-.
    cbn [City Age_Group encode_row] in Hcity, Hage.
    rewrite LabelEncoderFacts.fit_code_decodes in Hcity by (apply in_map; exact Hfirst).
    rewrite LabelEncoderFacts.fit_code_decodes in Hage by (apply in_map; exact Hfirst).
    injection Hcity as <-. injection Hage as <-.
    split; [reflexivity |]. split; [reflexivity |].
    rewrite Hdf, categories_of_encoded in Hcats.
    rewrite LabelEncoderFacts.inverse_transform_codes in Hcats.
    + injection Hcats as <-. reflexivity.
    + intros c Hc. apply in_map_iff in Hc. destruct Hc as (r & <- & Hr).
      apply in_map. apply drop_duplicates_incl in Hr.
      apply filter_In in Hr. apply Hr.
Qed.

(* ===================================================================== *)
(** * Recommendations for a customer                                      *)
(* ===================================================================== *)

Lemma inverse_transform_length (le : LabelEncoder.t) (codes : list nat)
    (vs : list string) :
  LabelEncoder.inverse_transform le codes = Ok vs ->
  List.length vs = List.length codes.
Proof.
  revert vs. induction codes as [| c rest IH]; simpl; intros vs H.
  - injection H as <-. reflexivity.
  - destruct (nth_error (LabelEncoder.classes_ le) c) as [v |]; [| discriminate].
    apply rbind_Ok in H. destruct H as (vs' & Hrest & Hvs).
    injection Hvs as <-. simpl. f_equal. apply IH. exact Hrest.
Qed.

Lemma selected_ids {A} (prods : list string) (frame : list (row A)) (p : string) :
  In p (map Product_ID (filter (fun r => mem (Product_ID r) prods) frame)) <->
  In p (map Product_ID frame) /\ In p prods.
Proof.
  rewrite !in_map_iff. split.
  - intros (r & <- & Hr). apply filter_In in Hr. destruct Hr as (Hr & Hmem).
    split; [exists r; auto | apply mem_In; exact Hmem].
  - intros ((r & <- & Hr) & Hp). exists r. split; [reflexivity |].
    apply filter_In. split; [exact Hr | apply mem_In; exact Hp].
Qed.

Section CustomerLists.

Variable set_iteration : list string -> list string.

(** A set iterates over the distinct strings that were added to it. *)
Hypothesis set_iteration_spec :
  forall added, Permutation (set_iteration added) (nodup string_dec added).

Lemma set_iteration_In (added : list string) (x : string) :
  In x (set_iteration added) <-> In x added.
Proof.
  split; intros H.
  - apply (nodup_In string_dec).
    apply (Permutation_in _ (set_iteration_spec added)). exact H.
  - apply (Permutation_in _ (Permutation_sym (set_iteration_spec added))).
    apply (nodup_In string_dec). exact H.
Qed.

Lemma set_iteration_NoDup (added : list string) : NoDup (set_iteration added).
Proof.
  apply (Permutation_NoDup (Permutation_sym (set_iteration_spec added))).
  apply NoDup_nodup.
Qed.

Lemma Forall2_In_right {A B} (rel : A -> B -> Prop) (l1 : list A) (l2 : list B)
    (b : B) :
  Forall2 rel l1 l2 -> In b l2 -> exists a, In a l1 /\ rel a b.
Proof.
  induction 1 as [| a b' l1 l2 Hab _ IH]; intros Hin.
  - contradiction.
  - destruct Hin as [-> | Hin].
    + exists a. split; [left; reflexivity | exact Hab].
    + destruct (IH Hin) as (a' & Ha' & Hrel).
      exists a'. split; [right; exact Ha' | exact Hrel].
Qed.

(** Every product of the answer is in the list [recommend_products]
    returns for a product of one of the customer's rows. *)
Lemma customer_products (cid : string) (N : nat) (self : RecommenderSystem)
    (prods cats : list string) (city age : string) :
  fst (recommend_products_for_customer set_iteration cid N self)
    = Ok (prods, cats, city, age) ->
  NoDup prods /\ (List.length prods <= N)%nat /\
  forall x, In x prods ->
    exists p l,
      In p (map Product_ID (rows_of_customer cid (df self))) /\
      fst (recommend_products p N self) = Ok l /\ In x l.
Proof.
  intros Hcall.
  destruct (rows_of_customer cid (df self)) as [| first rest] eqn:Hrows.
  - unfold recommend_products_for_customer, bind, gets, ret in Hcall.
    rewrite Hrows in Hcall. simpl in Hcall. injection Hcall as <- _ _ _.
    split; [constructor |]. split; [simpl; lia |]. intros x [].
  - destruct (customer_Ok set_iteration cid N self prods cats city age first rest
                Hrows Hcall)
      as (_ & _ & _ & added & _ & _ & _ & _ & Hupd & -> & _).
    split; [apply NoDup_firstn, set_iteration_NoDup |].
    split; [apply firstn_le_length |].
    intros x Hx. apply firstn_incl in Hx.
    apply (proj1 (set_iteration_In _ _)) in Hx.
    destruct (update_from_Ok _ _ _ _ _ Hupd) as (recs & Hrecs & ->).
    simpl in Hx. apply in_concat in Hx. destruct Hx as (l & Hl & Hxl).
    destruct (Forall2_In_right _ _ _ _ Hrecs Hl) as (p & Hp & Hpl).
    exists p, l. split; [exact Hp | split; assumption].
Qed.

Lemma customer_list_in_table (csv : list (option (row string)))
    (self : RecommenderSystem) (cid : string) (N : nat)
    (prods cats : list string) (city age : string) :
  __init__ csv = Ok self ->
  fst (recommend_products_for_customer set_iteration cid N self)
    = Ok (prods, cats, city, age) ->
  NoDup prods /\ incl prods (map fst (product_features self)).
Proof.
  intros Hinit Hcall.
  destruct (customer_products _ _ _ _ _ _ _ Hcall) as (Hnd & _ & Hfrom).
  split; [exact Hnd |]. intros x Hx.
  destruct (Hfrom x Hx) as (p & l & _ & Hl & Hxl).
  destruct (recommend_products_list csv self p _ l Hinit Hl) as (_ & _ & Hincl).
  apply Hincl. exact Hxl.
Qed.

(** C10.  The list returned for a customer has at most
    [num_recommendations] products, however many distinct products the
    lists of the customer's purchases hold together, and each of them is
    a product identifier of the product feature table. *)
Theorem customer_list_bounded (csv : list (option (row string)))
    (self : RecommenderSystem) (customer_id : string) (num_recommendations : nat)
    (prods cats : list string) (city age : string) :
  __init__ csv = Ok self ->
  fst (recommend_products_for_customer set_iteration customer_id
         num_recommendations self) = Ok (prods, cats, city, age) ->
  (List.length prods <= num_recommendations)%nat /\
  forall x, In x prods -> In x (map fst (product_features self)).
Proof.
  intros Hinit Hcall.
  destruct (customer_products _ _ _ _ _ _ _ Hcall) as (_ & Hlen & Hfrom).
  split; [exact Hlen |]. intros x Hx.
  destruct (Hfrom x Hx) as (p & l & _ & Hl & Hxl).
  destruct (recommend_products_list csv self p _ l Hinit Hl) as (_ & _ & Hincl).
  apply Hincl. exact Hxl.
Qed.

(** C6, as the code has it.  The list returned for a customer is made
    of the lists [recommend_products] returns for the product of each of
    the customer's rows: their products, each once, in the iteration
    order of the set, cut to [num_recommendations].  So it has no
    repetition and at most [num_recommendations] products, and each of
    them is, for some product [p] the customer bought, another product
    than [p] with at most [num_recommendations] rows of the similarity
    column of [p] strictly above it.  The order of the list is the
    iteration order of the set, whatever the similarities are. *)
Theorem customer_list_from_top_rows (csv : list (option (row string)))
    (self : RecommenderSystem) (customer_id : string) (num_recommendations : nat)
    (prods cats : list string) (city age : string) :
  __init__ csv = Ok self ->
  fst (recommend_products_for_customer set_iteration customer_id
         num_recommendations self) = Ok (prods, cats, city, age) ->
  exists recs,
    Forall2 (fun p l => fst (recommend_products p num_recommendations self) = Ok l)
      (map Product_ID (rows_of_customer customer_id (df self))) recs /\
    prods = firstn num_recommendations (set_iteration (List.concat recs)) /\
    NoDup prods /\
    (List.length prods <= num_recommendations)%nat /\
    forall x, In x prods ->
      exists p col v,
        In p (map Product_ID (rows_of_customer customer_id (df self))) /\
        getitem (product_similarity_df self) p = Ok (Series col) /\
        x <> p /\
        In (x, v) col /\
        (List.length (filter (fun row => Rltb v (snd row)) col)
         <= num_recommendations)%nat.
Proof.
  intros Hinit Hcall.
  destruct (customer_products _ _ _ _ _ _ _ Hcall) as (Hnd & Hlen & Hfrom).
  assert (Hrecs : exists recs,
             Forall2 (fun p l => fst (recommend_products p num_recommendations self)
                                 = Ok l)
               (map Product_ID (rows_of_customer customer_id (df self))) recs /\
             prods = firstn num_recommendations (set_iteration (List.concat recs))).
  { destruct (rows_of_customer customer_id (df self)) as [| first rest] eqn:Hrows.
    - exists []. split; [constructor |].
      unfold recommend_products_for_customer, bind, gets, ret in Hcall.
      rewrite Hrows in Hcall. simpl in Hcall. injection Hcall as <- _ _ _.
      assert (Hnil : set_iteration [] = []).
      { apply Permutation_nil, Permutation_sym. apply (set_iteration_spec []). }
      cbn [List.concat]. rewrite Hnil, firstn_nil. reflexivity.
    - destruct (customer_Ok set_iteration customer_id _ self prods cats city age
                  first rest Hrows Hcall)
        as (_ & _ & _ & added & _ & _ & _ & _ & Hupd & -> & _).
      destruct (update_from_Ok _ _ _ _ _ Hupd) as (recs & Hrecs & ->).
      exists recs. split; [exact Hrecs | reflexivity]. }
  destruct Hrecs as (recs & Hrecs & Hprods).
  exists recs. split; [exact Hrecs |]. split; [exact Hprods |].
  split; [exact Hnd |]. split; [exact Hlen |].
  intros x Hx. destruct (Hfrom x Hx) as (p & l & Hp & Hl & Hxl).
  destruct (recommend_products_list csv self p _ l Hinit Hl) as (Hnot & _ & _).
  destruct (recommend_products_Ok p _ self l Hl) as (col & Hcol & Hrem).
  apply (list_remove_incl _ _ _ Hrem) in Hxl as Hxtop.
  apply in_map_iff in Hxtop. destruct Hxtop as ([x' v] & Heq & Hxv).
  simpl in Heq. subst x'.
  exists p, col, v. split; [exact Hp |]. split; [exact Hcol |].
  split; [intros ->; exact (Hnot Hxl) |]. split.
  - apply (Permutation_in _ (sort_desc_perm col)).
    apply (firstn_incl _ _ _ Hxv).
  - apply (head_row_few_above col num_recommendations x v Hxv).
Qed.

(** The answer for a customer has as many categories as products. *)
Lemma categories_same_length (csv : list (option (row string)))
    (self : RecommenderSystem) (cid : string) (N : nat)
    (prods cats : list string) (city age : string) :
  __init__ csv = Ok self ->
  fst (recommend_products_for_customer set_iteration cid N self)
    = Ok (prods, cats, city, age) ->
  List.length cats = List.length prods.
Proof.
  intros Hinit Hcall.
  destruct (customer_list_in_table csv self cid N prods cats city age Hinit Hcall)
    as (Hnd & Htable).
  destruct (rows_of_customer cid (df self)) as [| first rest] eqn:Hrows.
  - unfold recommend_products_for_customer, bind, gets, ret in Hcall.
    rewrite Hrows in Hcall. simpl in Hcall. injection Hcall as <- <- _ _.
    reflexivity.
  - destruct (customer_Ok set_iteration cid N self prods cats city age first rest
                Hrows Hcall)
      as (_ & _ & le_cat & _ & _ & _ & _ & _ & _ & _ & _ & Hcats).
    rewrite (inverse_transform_length _ _ _ Hcats), length_map.
    rewrite <- (length_map Product_ID).
    apply Permutation_length. apply NoDup_Permutation.
    + apply drop_duplicates_ids.
    + exact Hnd.
    + intros p. rewrite (proj2 (drop_duplicates_ids _) p), selected_ids. split.
      * intros (_ & Hp). exact Hp.
      * intros Hp. split; [| exact Hp].
        apply (product_ids_in_frame csv self p Hinit). apply Htable. exact Hp.
Qed.

End CustomerLists.

(* ===================================================================== *)
(** * The datasets, asked for recommendations                             *)
(* ===================================================================== *)

Section Answers.
Import Pairwise PairwiseFacts.
Local Open Scope R_scope.

Lemma grocery_loc_Milk :
  loc grocery_sim "Bread" "Milk" = 1 / 2 /\
  loc grocery_sim "Chips" "Milk" = 2 / 3 /\
  loc grocery_sim "Milk" "Milk" = 1.
Proof.
  unfold loc, entry.
  cbn [grocery_sim sim_columns sim_index sim_values index_of String.eqb Ascii.eqb Bool.eqb].
  unfold cosine_similarity, grocery_rows. cbn [map nth].
  rewrite !cosine_formula.
  rewrite (scale_of_norm [0; 1; 0; 0; 0; 0; 0] 1) by eval_dot.
  rewrite (scale_of_norm [1; 1; 1; 1; 0; 0; 0] 2) by eval_dot.
  rewrite (scale_of_norm [2; 0; 1; 1; 1; 1; 1] 3) by eval_dot.
  repeat split; eval_dot.
Qed.


(** The first customer of the grocery bought bread and milk. *)
Lemma grocery_customer_1 :
  recommend_products_for_customer insertion_order "ZP_CUST1" 2 grocery_system =
  (Ok (["Milk"; "Chips"], ["Dairy"; "Snacks"], "Pune", "18-25"), grocery_system).
Proof.
  apply (customer_run insertion_order "ZP_CUST1" 2 grocery_system
           (encoded "ZP_CUST1" "Bread" 0 2 0 2 0 1 2 1 1 1 1 1)
           [encoded "ZP_CUST1" "Milk" 0 2 1 2 0 1 2 2 2 1 1 1]
           (LabelEncoder.Build ["Delhi"; "Mumbai"; "Pune"])
           (LabelEncoder.Build ["18-25"; "26-35"; "36-45"])
           (LabelEncoder.Build ["Bakery"; "Dairy"; "Snacks"])
           "Pune" "18-25" [["Milk"; "Chips"]; ["Chips"; "Bread"]]
           ["Dairy"; "Snacks"]); try reflexivity.
  cbn [map Product_ID encoded].
  constructor; [rewrite grocery_recommend_Bread; reflexivity |].
  constructor; [rewrite grocery_recommend_Milk; reflexivity |].
  constructor.
Qed.

(** The second customer bought milk. *)
Lemma grocery_customer_2 :
  recommend_products_for_customer reversed_order "ZP_CUST2" 2 grocery_system =
  (Ok (["Bread"; "Chips"], ["Bakery"; "Snacks"], "Delhi", "26-35"), grocery_system).
Proof.
  apply (customer_run reversed_order "ZP_CUST2" 2 grocery_system
           (encoded "ZP_CUST2" "Milk" 1 0 1 0 1 2 2 2 2 1 1 1) []
           (LabelEncoder.Build ["Delhi"; "Mumbai"; "Pune"])
           (LabelEncoder.Build ["18-25"; "26-35"; "36-45"])
           (LabelEncoder.Build ["Bakery"; "Dairy"; "Snacks"])
           "Delhi" "26-35" [["Chips"; "Bread"]]
           ["Bakery"; "Snacks"]); try reflexivity.
  cbn [map Product_ID encoded].
  constructor; [rewrite grocery_recommend_Milk; reflexivity |].
  constructor.
Qed.

Lemma grocery_customer_2_page :
  recommend_products_for_customer insertion_order "ZP_CUST2" 5 grocery_system =
  (Ok (["Chips"; "Bread"], ["Bakery"; "Snacks"], "Delhi", "26-35"), grocery_system).
Proof.
  apply (customer_run insertion_order "ZP_CUST2" 5 grocery_system
           (encoded "ZP_CUST2" "Milk" 1 0 1 0 1 2 2 2 2 1 1 1) []
           (LabelEncoder.Build ["Delhi"; "Mumbai"; "Pune"])
           (LabelEncoder.Build ["18-25"; "26-35"; "36-45"])
           (LabelEncoder.Build ["Bakery"; "Dairy"; "Snacks"])
           "Delhi" "26-35" [["Chips"; "Bread"]]
           ["Bakery"; "Snacks"]); try reflexivity.
  cbn [map Product_ID encoded].
  constructor; [rewrite grocery_recommend_Milk_5; reflexivity |].
  constructor.
Qed.

(** The third customer of the dairy bought the bread. *)
Lemma dairy_customer_3 (set_iteration : list string -> list string) :
  recommend_products_for_customer set_iteration "ZP_CUST3" 1 dairy_system =
  (Raise ValueError, dairy_system).
Proof.
  unfold recommend_products_for_customer, bind, gets, lift, ret.
  cbn [dairy_system df label_encoders].
  change (rows_of_customer "ZP_CUST3" dairy_frame)
    with [encoded "ZP_CUST3" "Bread" 0 1 0 1 2 0 1 1 1 1 1 1].
  cbn [dict_get dairy_encoders String.eqb Ascii.eqb Bool.eqb].
  cbn [LabelEncoder.inverse_transform LabelEncoder.classes_ City Age_Group encoded
       nth_error rbind item0 map Product_ID update_from].
  unfold bind. rewrite dairy_recommend_Bread. reflexivity.
Qed.

(** Whatever order the set iterates in, the page of the second customer
    pairs a product with the category of another one: in the grocery, or
    in the same grocery with its lines in another order. *)
Lemma wrong_categories_whatever_the_order (set_iteration : list string -> list string) :
  (forall added, Permutation (set_iteration added) (nodup string_dec added)) ->
  on_get_recommendations set_iteration "ZP_CUST2" grocery_system
    = (Ok (Details "ZP_CUST2" "Delhi" "26-35"
             [("Chips", "Bakery"); ("Bread", "Snacks")]), grocery_system) \/
  on_get_recommendations set_iteration "ZP_CUST2" grocery_restocked_system
    = (Ok (Details "ZP_CUST2" "Delhi" "26-35"
             [("Bread", "Snacks"); ("Chips", "Bakery")]), grocery_restocked_system).
Proof.
  intros Hspec.
  pose proof (Hspec ["Chips"; "Bread"]) as Hperm.
  change (nodup string_dec ["Chips"; "Bread"]) with ["Chips"; "Bread"] in Hperm.
  apply Permutation_sym, Permutation_length_2_inv in Hperm.
  destruct Hperm as [Hord | Hord]; [left | right];
    unfold on_get_recommendations, bind.
  - rewrite (customer_run set_iteration "ZP_CUST2" 5 grocery_system
               (encoded "ZP_CUST2" "Milk" 1 0 1 0 1 2 2 2 2 1 1 1) []
               (LabelEncoder.Build ["Delhi"; "Mumbai"; "Pune"])
               (LabelEncoder.Build ["18-25"; "26-35"; "36-45"])
               (LabelEncoder.Build ["Bakery"; "Dairy"; "Snacks"])
               "Delhi" "26-35" [["Chips"; "Bread"]] ["Bakery"; "Snacks"]);
      try reflexivity.
    + cbn [List.concat app]. rewrite Hord. reflexivity.
    + cbn [map Product_ID encoded].
      constructor; [rewrite grocery_recommend_Milk_5; reflexivity | constructor].
    + cbn [List.concat app]. rewrite Hord. reflexivity.
  - rewrite (customer_run set_iteration "ZP_CUST2" 5 grocery_restocked_system
               (encoded "ZP_CUST2" "Milk" 1 0 1 0 1 2 2 2 2 1 1 1) []
               (LabelEncoder.Build ["Delhi"; "Mumbai"; "Pune"])
               (LabelEncoder.Build ["18-25"; "26-35"; "36-45"])
               (LabelEncoder.Build ["Bakery"; "Dairy"; "Snacks"])
               "Delhi" "26-35" [["Chips"; "Bread"]] ["Snacks"; "Bakery"]);
      try reflexivity.
    + cbn [List.concat app]. rewrite Hord. reflexivity.
    + cbn [map Product_ID encoded].
      constructor; [rewrite grocery_restocked_recommend_Milk_5; reflexivity | constructor].
    + cbn [List.concat app]. rewrite Hord. reflexivity.
Qed.

End Answers.

(* ===================================================================== *)
(** * The properties, on the datasets                                     *)
(* ===================================================================== *)

Lemma insertion_order_spec (added : list string) :
  Permutation (insertion_order added) (nodup string_dec added).
Proof. apply Permutation_refl. Qed.

Lemma reversed_order_spec (added : list string) :
  Permutation (reversed_order added) (nodup string_dec added).
Proof. apply Permutation_sym, Permutation_rev. Qed.

Section Instances.
Local Open Scope R_scope.

(** C1, where the code falls short of it.  The bread of the dairy is in
    the product feature table and its feature vector is all zeros, so its
    similarity column is all zeros; sorted, the two rows above it fill
    the [num_recommendations + 1 = 2] places, the removal does not find
    the bread and the call raises [ValueError], which the customer method
    passes on. *)
Theorem removal_misses_query_product :
  __init__ dairy = Ok dairy_system /\
  In "Bread" (map fst (product_features dairy_system)) /\
  getitem (product_similarity_df dairy_system) "Bread"
    = Ok (Series [("Milk", 0); ("Curd", 0); ("Bread", 0)]) /\
  recommend_products "Bread" 1 dairy_system = (Raise ValueError, dairy_system) /\
  (forall set_iteration,
      recommend_products_for_customer set_iteration "ZP_CUST3" 1 dairy_system
      = (Raise ValueError, dairy_system)).
Proof.
  split; [exact dairy_init |].
  split; [simpl; auto |].
  split; [exact dairy_column_Bread |].
  split; [exact dairy_recommend_Bread |].
  exact dairy_customer_3.
Qed.



(** On the grocery: bread against milk, and milk against bread. *)
Lemma similarity_symmetric_witness :
  loc (product_similarity_df grocery_system) "Bread" "Milk"
  = loc (product_similarity_df grocery_system) "Milk" "Bread".
Proof.
  apply (proj2 (similarity_symmetric grocery grocery_system grocery_init)).
  - left. reflexivity.
  - right. left. reflexivity.
Defined.

(** On the grocery: the labels, and the cell of bread against chips. *)
Lemma similarity_matrix_shape_witness :
  sim_index (product_similarity_df grocery_system) = ["Bread"; "Milk"; "Chips"] /\
  -1 <= entry (product_similarity_df grocery_system) 0 2 <= 1.
Proof.
  destruct (similarity_matrix_shape grocery grocery_system grocery_init)
    as (Hidx & _ & _ & _ & Hcells).
  split; [exact Hidx |]. apply Hcells; simpl; lia.
Defined.

(** C8 fails in binary64, on the pantry.  The cells of the product
    feature table are the counts 0, 1 and 2, the same in exact arithmetic
    and in binary64, and the row of the milk is 1, 1, 1, 0, 0, 0, 0.  In
    exact arithmetic its diagonal cell is 1.  Computed in binary64, every
    operation rounded to the nearest float, the cell is
    1.0000000000000002, the float that follows 1: it is above 1. *)
Lemma similarity_above_one_in_binary64 :
  __init__ pantry = Ok pantry_system /\
  nth_error (sim_index (product_similarity_df pantry_system)) 1 = Some "Milk" /\
  map snd (product_features pantry_system)
    = map (map (fun c => Some (INR c))) pantry_cells /\
  entry (product_similarity_df pantry_system) 1 1 = 1 /\
  Binary64.entry
    (Binary64.cosine_similarity (map (map Binary64.of_nat) pantry_cells)) 1 1
    = Binary64.after_one /\
  PrimFloat.ltb Binary64.one
    (Binary64.entry
       (Binary64.cosine_similarity (map (map Binary64.of_nat) pantry_cells)) 1 1)
    = true.
Proof.
  split; [exact pantry_init |]. split; [reflexivity |]. split; [| split; [| split]].
  - cbn [pantry_system product_features pantry_features pantry_cells map snd INR].
    repeat (f_equal; try lra).
  - unfold entry. cbn [pantry_system product_similarity_df pantry_sim sim_values].
    unfold Pairwise.cosine_similarity, pantry_rows. cbn [map nth].
    apply PairwiseFacts.cosine_self. unfold Pairwise.dot.
    cbn [combine map fold_right fst snd]. lra.
  - vm_compute. reflexivity.
  - vm_compute. reflexivity.
Qed.

(** C5 fails on the grocery: the category cell of the chips is 2. *)
Lemma category_cell_not_rescaled :
  __init__ grocery = Ok grocery_system /\
  In ("Chips", [Some 2; Some 0; Some 1; Some 1; Some 1; Some 1; Some 1])
     (product_features grocery_system) /\
  ~ normalized [Some 2; Some 0; Some 1; Some 1; Some 1; Some 1; Some 1].
Proof.
  split; [exact grocery_init |]. split; [simpl; auto |].
  intros H. inversion H as [| c rest (a & Ha & Hunit) _]; subst.
  injection Ha as <-. lra.
Qed.

(** On the grocery: the row of the chips. *)
Lemma numeric_columns_rescaled_witness :
  exists (c : nat) (scaled : list (option R)) (le : LabelEncoder.t),
    [Some 2; Some 0; Some 1; Some 1; Some 1; Some 1; Some 1] = Some (INR c) :: scaled /\
    List.length scaled = 6%nat /\
    normalized scaled /\
    dict_get (label_encoders grocery_system) "Product_Category" = Ok le /\
    (c < List.length (LabelEncoder.classes_ le))%nat.
Proof.
  apply (numeric_columns_rescaled grocery grocery_system "Chips"
           [Some 2; Some 0; Some 1; Some 1; Some 1; Some 1; Some 1] grocery_init).
  simpl. auto.
Defined.

(** The grocery has no customer ZP_CUST9. *)
Lemma unknown_customer_witness :
  ~ In "ZP_CUST9" (map Customer_ID (df grocery_system)) /\
  recommend_products_for_customer insertion_order "ZP_CUST9" 5 grocery_system
    = (Ok ([], [], "Unknown", "Unknown"), grocery_system).
Proof.
  assert (H : ~ In "ZP_CUST9" (map Customer_ID (df grocery_system))).
  { simpl. intros [H | [H | [H | [H | []]]]]; discriminate H. }
  split; [exact H |].
  apply (proj1 (unknown_customer insertion_order grocery_system "ZP_CUST9" 5 H)).
Defined.

(** C6 fails on the grocery.  The second customer bought milk only; with
    a set that iterates last-added first the list returned is bread, then
    chips, and the chips are more similar to milk than the bread is. *)
Lemma customer_list_not_ranked :
  __init__ grocery = Ok grocery_system /\
  (forall added, Permutation (reversed_order added) (nodup string_dec added)) /\
  map Product_ID (rows_of_customer "ZP_CUST2" (df grocery_system)) = ["Milk"] /\
  fst (recommend_products_for_customer reversed_order "ZP_CUST2" 2 grocery_system)
    = Ok (["Bread"; "Chips"], ["Bakery"; "Snacks"], "Delhi", "26-35") /\
  loc (product_similarity_df grocery_system) "Bread" "Milk" = 1 / 2 /\
  loc (product_similarity_df grocery_system) "Chips" "Milk" = 2 / 3 /\
  ~ ranked_descending
      (fun x => loc (product_similarity_df grocery_system) x "Milk")
      ["Bread"; "Chips"].
Proof.
  destruct grocery_loc_Milk as (Hb & Hc & Hm).
  split; [exact grocery_init |]. split; [exact reversed_order_spec |].
  split; [reflexivity |]. split; [rewrite grocery_customer_2; reflexivity |].
  split; [exact Hb |]. split; [exact Hc |].
  intros H. specialize (H 0%nat 1%nat "Bread" "Chips" Nat.lt_0_1 eq_refl eq_refl).
  cbn [grocery_system product_similarity_df] in H.
  rewrite Hb, Hc in H. lra.
Qed.

(** On the grocery: the first customer, two recommendations, a set that
    iterates in insertion order.  The lists of the bread and of the milk
    hold three products, milk, chips and bread; the answer is the first
    two, and the milk is a product the customer bought. *)
Lemma customer_list_from_top_rows_witness :
  exists recs,
    Forall2 (fun p l => fst (recommend_products p 2 grocery_system) = Ok l)
      (map Product_ID (rows_of_customer "ZP_CUST1" (df grocery_system))) recs /\
    ["Milk"; "Chips"] = firstn 2 (insertion_order (List.concat recs)) /\
    NoDup ["Milk"; "Chips"] /\
    (List.length ["Milk"; "Chips"] <= 2)%nat /\
    forall x, In x ["Milk"; "Chips"] ->
      exists p col v,
        In p (map Product_ID (rows_of_customer "ZP_CUST1" (df grocery_system))) /\
        getitem (product_similarity_df grocery_system) p = Ok (Series col) /\
        x <> p /\
        In (x, v) col /\
        (List.length (filter (fun row => Rltb v (snd row)) col) <= 2)%nat.
Proof.
  apply (customer_list_from_top_rows insertion_order insertion_order_spec
           grocery grocery_system "ZP_CUST1" 2
           ["Milk"; "Chips"] ["Dairy"; "Snacks"] "Pune" "18-25" grocery_init).
  rewrite grocery_customer_1. reflexivity.
Defined.

(** C7, where the code falls short of it.  For the second customer of the
    grocery, with a set that iterates in insertion order, the page prints
    the chips with the category of the bread and the bread with the
    category of the chips: the categories come in the order of the rows
    of the dataset, the products in the order of the set. *)
Theorem page_pairs_wrong_categories :
  __init__ grocery = Ok grocery_system /\
  recommend_products_for_customer insertion_order "ZP_CUST2" 5 grocery_system
    = (Ok (["Chips"; "Bread"], ["Bakery"; "Snacks"], "Delhi", "26-35"),
       grocery_system) /\
  on_get_recommendations insertion_order "ZP_CUST2" grocery_system
    = (Ok (Details "ZP_CUST2" "Delhi" "26-35"
             [("Chips", "Bakery"); ("Bread", "Snacks")]),
       grocery_system) /\
  ~ aligned (dropna grocery) ["Chips"; "Bread"] ["Bakery"; "Snacks"].
Proof.
  split; [exact grocery_init |]. split; [exact grocery_customer_2_page |].
  split.
  - unfold on_get_recommendations, bind. rewrite grocery_customer_2_page.
    reflexivity.
  - intros (_ & H).
    destruct (H 0%nat "Chips" "Bakery" eq_refl eq_refl) as (r & Hr & Hid & Hcat).
    simpl in Hr. destruct Hr as [<- | [<- | [<- | [<- | []]]]];
      simpl in Hid, Hcat; discriminate.
Qed.

(** On the grocery: the city of the first row, and the categories of the
    answer for the first customer. *)
Lemma label_encoding_invertible_witness :
  (exists le r',
      dict_get (label_encoders grocery_system) "City" = Ok le /\
      nth_error (df grocery_system) 0 = Some r' /\
      LabelEncoder.transform le ["Pune"] = Ok [City r'] /\
      LabelEncoder.inverse_transform le [City r'] = Ok ["Pune"]) /\
  ["Dairy"; "Snacks"] =
    map Product_Category
      (drop_duplicates String.eqb Product_ID
         (filter (fun r => mem (Product_ID r) ["Milk"; "Chips"]) (dropna grocery))).
Proof.
  destruct (label_encoding_invertible grocery grocery_system grocery_init)
    as (Hcolumns & Hanswer).
  split.
  - destruct (Hcolumns "City" (@City)) as (le & Hget & Hrows).
    { right. left. reflexivity. }
    destruct (Hrows 0%nat
                (mk_row "ZP_CUST1" "Bread" "F" "Pune" "Bakery" "UPI" "18-25" "Gold"
                   2 1 1 1 1 1) eq_refl) as (r' & Hr' & Ht & Hi).
    exists le, r'. repeat split; assumption.
  - apply (Hanswer insertion_order "ZP_CUST1" 2%nat ["Milk"; "Chips"]
             ["Dairy"; "Snacks"] "Pune" "18-25"
             (mk_row "ZP_CUST1" "Bread" "F" "Pune" "Bakery" "UPI" "18-25" "Gold"
                2 1 1 1 1 1)
             [mk_row "ZP_CUST1" "Milk" "F" "Pune" "Dairy" "UPI" "18-25" "Gold"
                2 2 2 1 1 1]).
    + reflexivity.
    + rewrite grocery_customer_1. reflexivity.
Defined.

(** On the grocery: the lists of the first customer's two purchases hold
    three products, the answer two. *)
Lemma customer_list_bounded_witness :
  (List.length ["Milk"; "Chips"] <= 2)%nat /\
  forall x, In x ["Milk"; "Chips"] -> In x (map fst (product_features grocery_system)).
Proof.
  apply (customer_list_bounded insertion_order insertion_order_spec
           grocery grocery_system "ZP_CUST1" 2
           ["Milk"; "Chips"] ["Dairy"; "Snacks"] "Pune" "18-25" grocery_init).
  rewrite grocery_customer_1. reflexivity.
Defined.

End Instances.

(* ===================================================================== *)
(** * More on [recommend_products]                                        *)
(* ===================================================================== *)

Lemma list_remove_app (x : string) (a b l : list string) :
  list_remove x a = Ok l -> list_remove x (a ++ b) = Ok (l ++ b).
Proof.
  revert l. induction a as [| y a IH]; simpl; intros l H.
  - discriminate H.
  - destruct (y =? x).
    + injection H as <-. reflexivity.
    + apply rbind_Ok in H. destruct H as (l' & Hl' & Hl).
      injection Hl as <-. rewrite (IH l' Hl'). reflexivity.
Qed.

(** Removing a label from the labels of a column removes one row. *)
Lemma list_remove_rows (x : string) (s : list (string * R)) (l : list string) :
  list_remove x (map fst s) = Ok l ->
  exists pre q post,
    s = pre ++ q :: post /\ fst q = x /\ l = map fst (pre ++ post) /\
    ~ In x (map fst pre).
Proof.
  revert l. induction s as [| q s IH]; simpl; intros l H.
  - discriminate H.
  - destruct (String.eqb_spec (fst q) x) as [Heq | Hne].
    + injection H as <-. exists [], q, s. simpl. auto.
    + apply rbind_Ok in H. destruct H as (l' & Hl' & Hl). injection Hl as <-.
      destruct (IH l' Hl') as (pre & q' & post & -> & Hq' & -> & Hpre).
      exists (q :: pre), q', post. simpl. repeat split; try assumption.
      intros [Heq | Hin]; [exact (Hne Heq) | exact (Hpre Hin)].
Qed.

Lemma StronglySorted_firstn {A} (rel : A -> A -> Prop) (k : nat) (l : list A) :
  StronglySorted rel l -> StronglySorted rel (firstn k l).
Proof.
  intros H. revert k. induction H as [| a l Hl IH Ha]; intros k.
  - rewrite firstn_nil. constructor.
  - destruct k as [| k]; simpl; [constructor |].
    constructor; [apply IH |].
    rewrite Forall_forall in Ha |- *. intros b Hb. apply Ha.
    apply (firstn_incl k l). exact Hb.
Qed.

Lemma StronglySorted_drop {A} (rel : A -> A -> Prop) (pre post : list A) (q : A) :
  StronglySorted rel (pre ++ q :: post) -> StronglySorted rel (pre ++ post).
Proof.
  induction pre as [| a pre IH]; simpl; intros H.
  - inversion H; assumption.
  - inversion H as [| ? ? Hrest Ha]; subst. constructor; [apply IH; exact Hrest |].
    rewrite Forall_forall in Ha |- *. intros b Hb. apply Ha.
    apply in_app_or in Hb. apply in_or_app.
    destruct Hb as [Hb | Hb]; [left | right; right]; exact Hb.
Qed.

Lemma firstn_plus {A} (n m : nat) (l : list A) :
  firstn (n + m) l = firstn n l ++ firstn m (skipn n l).
Proof.
  revert l. induction n as [| n IH]; intros l; simpl.
  - reflexivity.
  - destruct l as [| a l]; simpl.
    + rewrite firstn_nil. reflexivity.
    + rewrite IH. reflexivity.
Qed.

Lemma StronglySorted_nth {A} (rel : A -> A -> Prop) (l : list A) :
  StronglySorted rel l ->
  forall i j a b, (i < j)%nat ->
    nth_error l i = Some a -> nth_error l j = Some b -> rel a b.
Proof.
  induction 1 as [| x l Hl IH Hx]; intros i j a b Hij Hi Hj.
  - destruct i; discriminate.
  - destruct j as [| j]; [lia |]. simpl in Hj.
    destruct i as [| i]; simpl in Hi.
    + injection Hi as <-. rewrite Forall_forall in Hx. apply Hx.
      apply (nth_error_In _ _ Hj).
    + apply (IH i j); [lia | assumption | assumption].
Qed.

Lemma nth_error_combine_parts {A B} (k : nat) (a : list A) (b : list B) (x : A) (y : B) :
  nth_error (combine a b) k = Some (x, y) ->
  nth_error a k = Some x /\ nth_error b k = Some y.
Proof.
  revert a b. induction k as [| k IH]; intros [| a0 a] [| b0 b] H; simpl in H;
    try discriminate.
  - injection H as <- <-. split; reflexivity.
  - apply IH. exact H.
Qed.

(** How many columns carry the label decides what [frame[label]] is. *)
Lemma getitem_by_count (sim : SimFrame) (p : string) :
  match count_occ string_dec (sim_columns sim) p with
  | 0%nat => getitem sim p = Raise KeyError
  | 1%nat => exists col, getitem sim p = Ok (Series col)
  | S (S n) => getitem sim p = Ok (SubFrame (S (S n)))
  end.
Proof.
  unfold getitem. rewrite <- (positions_length p (sim_columns sim) 0).
  destruct (positions p (sim_columns sim) 0) as [| j [| j' js]]; simpl.
  - reflexivity.
  - eexists. reflexivity.
  - reflexivity.
Qed.

Lemma table_columns (csv : list (option (row string))) (self : RecommenderSystem) :
  __init__ csv = Ok self ->
  sim_columns (product_similarity_df self) = map fst (product_features self).
Proof.
  intros Hinit. destruct (init_index csv self Hinit) as (Hidx & Hcols & _).
  rewrite Hcols. exact Hidx.
Qed.

(** In a column read from the frame under labels that occur once, the
    value on the row of [x] is the cell at ([x], [p]). *)
Lemma column_value_is_loc (csv : list (option (row string)))
    (self : RecommenderSystem) (p x : string) (v : R) (col : list (string * R)) :
  __init__ csv = Ok self ->
  NoDup (map fst (product_features self)) ->
  getitem (product_similarity_df self) p = Ok (Series col) ->
  In (x, v) col ->
  v = loc (product_similarity_df self) x p.
Proof.
  intros Hinit Hnd Hcol Hin.
  destruct (init_index csv self Hinit) as (Hidx & Hcols & Hlen & _).
  unfold getitem in Hcol.
  destruct (positions p (sim_columns (product_similarity_df self)) 0)
    as [| j [| j' js]] eqn:Hpos; try discriminate.
  injection Hcol as <-.
  assert (Hj : nth_error (sim_columns (product_similarity_df self)) j = Some p).
  { assert (Hinj : In j (positions p (sim_columns (product_similarity_df self)) 0))
      by (rewrite Hpos; left; reflexivity).
    apply positions_In in Hinj. rewrite Nat.sub_0_r in Hinj. apply Hinj. }
  assert (Hjp : index_of p (sim_columns (product_similarity_df self)) = j).
  { rewrite Hcols, Hidx in Hj |- *.
    assert (Hinp : In p (map fst (product_features self)))
      by (apply (nth_error_In _ _ Hj)).
    pose proof (index_of_nth_error p _ Hinp) as Hfirst.
    destruct (proj1 (NoDup_nth_error _) Hnd (index_of p (map fst (product_features self))) j)
      as []; [| rewrite Hfirst, Hj; reflexivity | reflexivity].
    apply index_of_lt. exact Hinp. }
  destruct (In_nth_error _ _ Hin) as (k & Hk).
  pose proof (nth_error_combine_parts k _ _ _ _ Hk) as (Hkx & Hkv).
  assert (Hkx' : index_of x (sim_index (product_similarity_df self)) = k).
  { rewrite Hidx in Hkx |- *.
    assert (Hinx : In x (map fst (product_features self)))
      by (apply (nth_error_In _ _ Hkx)).
    pose proof (index_of_nth_error x _ Hinx) as Hfirst.
    destruct (proj1 (NoDup_nth_error _) Hnd (index_of x (map fst (product_features self))) k)
      as []; [| rewrite Hfirst, Hkx; reflexivity | reflexivity].
    apply index_of_lt. exact Hinx. }
  unfold loc, entry. rewrite Hkx', Hjp.
  rewrite nth_error_map in Hkv.
  destruct (nth_error (sim_values (product_similarity_df self)) k) as [r |] eqn:Hr;
    [| discriminate].
  injection Hkv as <-. rewrite (nth_error_nth _ _ [] Hr). reflexivity.
Qed.

Section RecommendProducts.
Local Open Scope R_scope.

Variable csv : list (option (row string)).
Variable self : RecommenderSystem.
Hypothesis built : __init__ csv = Ok self.

(** X1.  When [recommend_products] returns, the list does not hold the
    query product, has at most [num_recommendations] products, all of
    them identifiers of the product feature table, and the instance is as
    before the call. *)
Theorem recommended_excludes_query (product_id : string) (num_recommendations : nat)
    (l : list string) :
  fst (recommend_products product_id num_recommendations self) = Ok l ->
  ~ In product_id l /\
  (List.length l <= num_recommendations)%nat /\
  incl l (map fst (product_features self)) /\
  snd (recommend_products product_id num_recommendations self) = self.
Proof.
  intros Hl.
  destruct (recommend_products_list csv self product_id _ l built Hl)
    as (Hnot & Hlen & Hincl).
  repeat split; try assumption. apply recommend_products_self.
Qed.

(** X2.  When every product identifier labels one row of the product
    feature table, the list [recommend_products] returns has no
    repetition, is in descending order of similarity to the query
    product, and no other product of the table left out of it is more
    similar to the query product than a product of the list. *)
Theorem recommended_ranked (product_id : string) (num_recommendations : nat)
    (l : list string) :
  NoDup (map fst (product_features self)) ->
  fst (recommend_products product_id num_recommendations self) = Ok l ->
  NoDup l /\
  ranked_descending (fun x => loc (product_similarity_df self) x product_id) l /\
  none_better_omitted (fun x => loc (product_similarity_df self) x product_id)
    (List.remove string_dec product_id (map fst (product_features self))) l.
Proof.
  intros Hnd Hl.
  destruct (recommend_products_Ok product_id _ self l Hl) as (col & Hcol & Hrem).
  destruct (getitem_labels csv self product_id col built Hcol) as (Hlabels & _).
  pose proof (sort_desc_perm col) as Hperm.
  pose proof (sort_desc_sorted col) as Hsorted.
  set (sorted := sort_desc col) in *.
  set (k := (num_recommendations + 1)%nat) in *.
  destruct (list_remove_rows _ _ _ Hrem) as (pre & q & post & Htop & Hq & -> & Hpre).
  assert (Hrows_sorted : StronglySorted above (pre ++ post)).
  { apply (StronglySorted_drop above pre post q). rewrite <- Htop.
    apply StronglySorted_firstn. exact Hsorted. }
  assert (Hin_col : forall a, In a (pre ++ post) -> In a col).
  { intros a Ha. apply (Permutation_in _ Hperm). apply (firstn_incl k sorted).
    rewrite Htop. apply in_app_or in Ha. apply in_or_app.
    destruct Ha as [Ha | Ha]; [left | right; right]; exact Ha. }
  assert (Hvalue : forall x v, In (x, v) col ->
             v = loc (product_similarity_df self) x product_id).
  { intros x v Hxv. apply (column_value_is_loc csv self product_id x v col); assumption. }
  assert (Hnd_sorted : NoDup (map fst sorted)).
  { apply (Permutation_NoDup (l := map fst col)).
    - apply Permutation_map, Permutation_sym. exact Hperm.
    - rewrite Hlabels. exact Hnd. }
  split; [| split].
  - assert (Hnd_top : NoDup (map fst (firstn k sorted))).
    { rewrite <- firstn_map. apply NoDup_firstn. exact Hnd_sorted. }
    rewrite Htop, map_app in Hnd_top. simpl in Hnd_top.
    apply NoDup_remove_1 in Hnd_top. rewrite map_app. exact Hnd_top.
  - intros i j x y Hij Hi Hj.
    rewrite nth_error_map in Hi, Hj.
    destruct (nth_error (pre ++ post) i) as [[x' vx] |] eqn:Hri; [| discriminate].
    destruct (nth_error (pre ++ post) j) as [[y' vy] |] eqn:Hrj; [| discriminate].
    simpl in Hi, Hj. injection Hi as ->. injection Hj as ->.
    pose proof (StronglySorted_nth above _ Hrows_sorted i j _ _ Hij Hri Hrj) as Habove.
    unfold above in Habove. simpl in Habove.
    rewrite <- (Hvalue x vx) by (apply Hin_col, (nth_error_In _ _ Hri)).
    rewrite <- (Hvalue y vy) by (apply Hin_col, (nth_error_In _ _ Hrj)).
    exact Habove.
  - intros x y Hx Hxl Hy.
    apply in_remove in Hx. destruct Hx as (Hx & Hxp).
    rewrite <- Hlabels in Hx. apply in_map_iff in Hx.
    destruct Hx as ([x' vx] & Hfst & Hxcol). simpl in Hfst. subst x'.
    apply in_map_iff in Hy. destruct Hy as ([y' vy] & Hfst & Hyrows).
    simpl in Hfst. subst y'.
    rewrite <- (Hvalue x vx Hxcol).
    rewrite <- (Hvalue y vy) by (apply Hin_col; exact Hyrows).
    assert (Hx_sorted : In (x, vx) sorted)
      by (apply (Permutation_in _ (Permutation_sym Hperm)); exact Hxcol).
    rewrite <- (firstn_skipn k sorted) in Hx_sorted.
    apply in_app_or in Hx_sorted. destruct Hx_sorted as [Hx_top | Hx_rest].
    + exfalso. rewrite Htop in Hx_top. apply in_app_or in Hx_top.
      destruct Hx_top as [Hx_pre | [Hx_q | Hx_post]].
      * apply Hxl. apply in_map_iff. exists (x, vx). split; [reflexivity |].
        apply in_or_app. left. exact Hx_pre.
      * apply Hxp. rewrite Hx_q in Hq. simpl in Hq. exact Hq.
      * apply Hxl. apply in_map_iff. exists (x, vx). split; [reflexivity |].
        apply in_or_app. right. exact Hx_post.
    + assert (Hy_top : In (y, vy) (firstn k sorted)).
      { rewrite Htop. apply in_app_or in Hyrows. apply in_or_app.
        destruct Hyrows as [H | H]; [left | right; right]; exact H. }
      apply (sorted_head_above above sorted k Hsorted (y, vy) (x, vx) Hy_top Hx_rest).
Qed.

(** X3.  For a product identifier that is not in the product feature
    table [recommend_products] raises [KeyError]; for one that labels
    two rows of the table or more it raises [TypeError].  Either way the
    instance is as before. *)
Theorem recommend_products_bad_label (product_id : string) (num_recommendations : nat) :
  (~ In product_id (map fst (product_features self)) ->
     recommend_products product_id num_recommendations self = (Raise KeyError, self)) /\
  ((2 <= count_occ string_dec (map fst (product_features self)) product_id)%nat ->
     recommend_products product_id num_recommendations self = (Raise TypeError, self)).
Proof.
  pose proof (getitem_by_count (product_similarity_df self) product_id) as Hget.
  rewrite (table_columns csv self built) in Hget.
  split; intros H.
  - apply (count_occ_not_In string_dec) in H. rewrite H in Hget.
    unfold recommend_products, bind, gets, lift. rewrite Hget. reflexivity.
  - destruct (count_occ string_dec (map fst (product_features self)) product_id)
      as [| [| n]]; [lia | lia |].
    unfold recommend_products, bind, gets, lift. rewrite Hget. reflexivity.
Qed.

(** X4.  [recommend_products] returns for a product whenever at most
    [num_recommendations] other rows of its similarity column are not
    below the product's own cell, however rows of equal value are
    ordered: the product is then among the first
    [num_recommendations + 1] rows and the removal finds it. *)
Theorem recommend_products_returns_when_unrivalled (product_id : string)
    (num_recommendations : nat) (col : list (string * R)) (v : R) :
  getitem (product_similarity_df self) product_id = Ok (Series col) ->
  In (product_id, v) col ->
  (List.length
     (filter (fun row => negb (String.eqb (fst row) product_id)
                         && negb (Rltb (snd row) v)) col)
   <= num_recommendations)%nat ->
  exists l,
    recommend_products product_id num_recommendations self = (Ok l, self).
Proof.
  intros Hcol Hv Hfew.
  destruct (getitem_labels csv self product_id col built Hcol) as (_ & Hone).
  rewrite (recommend_products_run self product_id num_recommendations col Hcol).
  destruct (list_remove_In product_id
              (map fst (firstn (num_recommendations + 1) (sort_desc col))))
    as (l & Hl).
  - apply (unrivalled_row_in_head col num_recommendations product_id v Hone Hv Hfew).
  - exists l. rewrite Hl. reflexivity.
Qed.

(** X5.  For a product identifier that labels one row of the product
    feature table, asked for at least as many recommendations as the
    table has other rows, [recommend_products] returns, and the list is
    every other row of the table. *)
Theorem recommend_products_all_others (product_id : string)
    (num_recommendations : nat) :
  count_occ string_dec (map fst (product_features self)) product_id = 1%nat ->
  (List.length (product_features self) <= num_recommendations + 1)%nat ->
  exists l,
    recommend_products product_id num_recommendations self = (Ok l, self) /\
    Permutation (product_id :: l) (map fst (product_features self)).
Proof.
  intros Hone Hlen.
  pose proof (getitem_by_count (product_similarity_df self) product_id) as Hget.
  rewrite (table_columns csv self built), Hone in Hget.
  destruct Hget as (col & Hcol).
  destruct (getitem_labels csv self product_id col built Hcol) as (Hlabels & _).
  rewrite (recommend_products_run self product_id num_recommendations col Hcol).
  pose proof (sort_desc_perm col) as Hperm.
  assert (Hall : firstn (num_recommendations + 1) (sort_desc col) = sort_desc col).
  { apply firstn_all2. rewrite (Permutation_length Hperm).
    rewrite <- (length_map fst col), Hlabels, length_map. exact Hlen. }
  rewrite Hall.
  assert (Hlabels' : Permutation (map fst (sort_desc col)) (map fst (product_features self))).
  { rewrite <- Hlabels. apply Permutation_map. exact Hperm. }
  assert (Hin : In product_id (map fst (sort_desc col))).
  { apply (Permutation_in _ (Permutation_sym Hlabels')).
    apply (count_occ_In string_dec). lia. }
  destruct (list_remove_In _ _ Hin) as (l & Hl). rewrite Hl.
  exists l. split; [reflexivity |].
  destruct (list_remove_Ok _ _ _ Hl) as (pre & post & Heq & -> & _).
  rewrite Heq in Hlabels'.
  eapply perm_trans; [| exact Hlabels']. apply Permutation_middle.
Qed.

End RecommendProducts.

(** X7.  Asking [recommend_products] for more recommendations only adds
    to the end of the list: when the call returns for
    [num_recommendations], it returns for every larger number, with a
    list that starts with the former one. *)
Theorem recommend_products_prefix (self : RecommenderSystem) (product_id : string)
    (num_recommendations more : nat) (l : list string) :
  fst (recommend_products product_id num_recommendations self) = Ok l ->
  exists tail,
    fst (recommend_products product_id (num_recommendations + more) self)
    = Ok (l ++ tail).
Proof.
  intros Hl.
  destruct (recommend_products_Ok product_id _ self l Hl) as (col & Hcol & Hrem).
  rewrite (recommend_products_run self product_id _ col Hcol). cbn [fst].
  exists (map fst (firstn more (skipn (num_recommendations + 1) (sort_desc col)))).
  replace (num_recommendations + more + 1)%nat
    with ((num_recommendations + 1) + more)%nat by lia.
  rewrite firstn_plus, map_app.
  apply list_remove_app. exact Hrem.
Qed.

(* ===================================================================== *)
(** * More on the construction                                            *)
(* ===================================================================== *)

Section Construction.
Local Open Scope R_scope.

Lemma named_numeric_column (name : string) (col : forall A, row A -> R) :
  In (name, col) named_numeric_columns ->
  In (col nat) numeric_columns /\
  forall le1 le2 le3 le4 le5 le6 r,
    col nat (encode_row le1 le2 le3 le4 le5 le6 r) = col string r.
Proof.
  unfold named_numeric_columns, numeric_columns. simpl. intros H.
  repeat (destruct H as [H | H];
          [ injection H as <- <-; split; [tauto | reflexivity] | ]).
  contradiction.
Qed.

Lemma numeric_column_named (c : row nat -> R) :
  In c numeric_columns ->
  exists name col, In (name, col) named_numeric_columns /\ c = col nat.
Proof.
  unfold named_numeric_columns, numeric_columns. simpl. intros H.
  repeat (destruct H as [H | H];
          [ subst c; eexists; eexists; split; [| reflexivity]; simpl; tauto | ]).
  contradiction.
Qed.

Lemma product_key_eqb_refl (k : string * nat * list R) : product_key_eqb k k = true.
Proof.
  destruct k as [[id c] x]. unfold product_key_eqb.
  rewrite String.eqb_refl, !Nat.eqb_refl. simpl.
  induction x as [| a x IH]; simpl; [reflexivity |].
  rewrite Reqb_true by reflexivity. exact IH.
Qed.

(** Two rows with the same key agree on the identifier and on each of
    the numeric columns. *)
Lemma product_key_eqb_true (r r' : row nat) :
  product_key_eqb (product_key r) (product_key r') = true ->
  Product_ID r = Product_ID r' /\
  forall c, In c numeric_columns -> c r = c r'.
Proof.
  unfold product_key_eqb, product_key, numeric_columns. simpl.
  rewrite !andb_true_iff. unfold Reqb.
  intros (((Hid & _) & _) & H1 & H2 & H3 & H4 & H5 & H6 & _).
  apply String.eqb_eq in Hid.
  destruct (Req_dec_T (Price r) (Price r')); [| discriminate].
  destruct (Req_dec_T (Competitor_Price r) (Competitor_Price r')); [| discriminate].
  destruct (Req_dec_T (Ad_Click_Through_Rate r) (Ad_Click_Through_Rate r'));
    [| discriminate].
  destruct (Req_dec_T (Browsing_Time_mins r) (Browsing_Time_mins r')); [| discriminate].
  destruct (Req_dec_T (Voice_Search_Count r) (Voice_Search_Count r')); [| discriminate].
  destruct (Req_dec_T (Visual_Search_Count r) (Visual_Search_Count r')); [| discriminate].
  split; [exact Hid |].
  intros c [<- | [<- | [<- | [<- | [<- | [<- | []]]]]]]; assumption.
Qed.

(** Every row of a frame has a row with the same key among those
    [drop_duplicates] keeps. *)
Lemma drop_duplicates_from_covers {A K} (eqb : K -> K -> bool) (key : A -> K)
    (seen : list K) (frame : list A) (r : A) :
  (forall k, eqb k k = true) ->
  In r frame ->
  (exists k, In k seen /\ eqb (key r) k = true) \/
  (exists r', In r' (drop_duplicates_from eqb key seen frame) /\
              eqb (key r) (key r') = true).
Proof.
  intros Hrefl. revert seen. induction frame as [| r0 rest IH]; intros seen Hin.
  - contradiction.
  - simpl. destruct (existsb (eqb (key r0)) seen) eqn:Hseen.
    + destruct Hin as [-> | Hin].
      * left. apply existsb_exists in Hseen. exact Hseen.
      * apply IH. exact Hin.
    + destruct Hin as [-> | Hin].
      * right. exists r. split; [left; reflexivity | apply Hrefl].
      * destruct (IH (key r0 :: seen) Hin) as [(k & [<- | Hk] & Hkr) | (r' & Hr' & Hkr)].
        -- right. exists r0. split; [left; reflexivity | exact Hkr].
        -- left. exists k. split; assumption.
        -- right. exists r'. split; [right; exact Hr' | exact Hkr].
Qed.

Lemma selected_covers (frame : list (row nat)) (r : row nat) :
  In r frame ->
  exists r', In r' (drop_duplicates product_key_eqb product_key frame) /\
             product_key_eqb (product_key r) (product_key r') = true.
Proof.
  intros Hin.
  destruct (drop_duplicates_from_covers product_key_eqb product_key [] frame r
              product_key_eqb_refl Hin) as [(k & Hk & _) | H].
  - contradiction.
  - exact H.
Qed.

Lemma col_min_max_constant (x : list R) (c : R) :
  x <> [] -> (forall a, In a x -> a = c) ->
  col_min x = Some c /\ col_max x = Some c.
Proof.
  destruct x as [| a rest]; [congruence |]. intros _ Hall. simpl.
  assert (Ha : a = c) by (apply Hall; left; reflexivity). subst a.
  assert (Hrest : forall b, In b rest -> b = c) by (intros b Hb; apply Hall; right; exact Hb).
  clear Hall. split; f_equal.
  - induction rest as [| b rest IH]; simpl; [reflexivity |].
    rewrite (Hrest b) by (left; reflexivity).
    rewrite Rmin_left by lra. apply IH. intros b' Hb'. apply Hrest. right. exact Hb'.
  - induction rest as [| b rest IH]; simpl; [reflexivity |].
    rewrite (Hrest b) by (left; reflexivity).
    rewrite Rmax_left by lra. apply IH. intros b' Hb'. apply Hrest. right. exact Hb'.
Qed.

Lemma finite_row_None (v : list (option R)) : In None v -> finite_row v = None.
Proof.
  induction v as [| [a |] v IH]; simpl; intros H.
  - contradiction.
  - destruct H as [H | H]; [discriminate |]. rewrite (IH H). reflexivity.
  - reflexivity.
Qed.

Lemma finite_rows_None (X : list (list (option R))) (v : list (option R)) :
  In v X -> finite_row v = None -> finite_rows X = None.
Proof.
  induction X as [| w X IH]; simpl; intros Hin Hv.
  - contradiction.
  - destruct Hin as [-> | Hin].
    + rewrite Hv. reflexivity.
    + rewrite (IH Hin Hv). destruct (finite_row w); reflexivity.
Qed.

Lemma finite_row_total (v : list (option R)) :
  (forall c, In c v -> c <> None) -> exists x, finite_row v = Some x.
Proof.
  induction v as [| [a |] v IH]; simpl; intros H.
  - eexists; reflexivity.
  - destruct IH as (x & ->); [intros c Hc; apply H; right; exact Hc |].
    simpl. eexists; reflexivity.
  - exfalso. apply (H None); [left |]; reflexivity.
Qed.

Lemma finite_rows_total (X : list (list (option R))) :
  (forall v c, In v X -> In c v -> c <> None) -> exists Y, finite_rows X = Some Y.
Proof.
  induction X as [| v X IH]; simpl; intros H.
  - eexists; reflexivity.
  - destruct (finite_row_total v) as (x & ->);
      [intros c Hc; apply (H v c); [left; reflexivity | exact Hc] |].
    destruct IH as (Y & ->);
      [intros w c Hw Hc; apply (H w c); [right; exact Hw | exact Hc] |].
    eexists; reflexivity.
Qed.

(** X8.  A dataset in which one of the six numeric columns holds a single
    value (so a dataset of one product, and a dataset with no complete
    line) cannot be loaded: the rescaled column is NaN, or the table is
    empty, and [__init__] raises [ValueError]. *)
Theorem init_rejects_constant_column (csv : list (option (row string)))
    (name : string) (col : forall A, row A -> R) :
  In (name, col) named_numeric_columns ->
  (forall r r', In r (dropna csv) -> In r' (dropna csv) ->
     col string r = col string r') ->
  __init__ csv = Raise ValueError.
Proof.
  intros Hcol Hconst.
  destruct (named_numeric_column name col Hcol) as (Hnum & Henc).
  unfold __init__.
  destruct (_encode_features (dropna csv)) as [frame encoders] eqn:Hfe.
  assert (Hframe : frame = fst (_encode_features (dropna csv))) by (rewrite Hfe; reflexivity).
  rewrite encode_features_rows in Hframe.
  unfold _calculate_similarity.
  destruct (_create_product_features frame) as [| f features] eqn:Hpf; [reflexivity |].
  assert (Hnone : finite_rows (map snd (f :: features)) = None); [| rewrite Hnone; reflexivity].
  unfold _create_product_features in Hpf.
  set (selected := drop_duplicates product_key_eqb product_key frame) in *.
  destruct selected as [| r0 rest] eqn:Hsel; [discriminate |].
  injection Hpf as <- _.
  apply (finite_rows_None _ (snd (Product_ID r0,
           Some (INR (Product_Category r0))
             :: map (fun c => min_max (map c (r0 :: rest)) (c r0)) numeric_columns)));
    [left; reflexivity |].
  apply finite_row_None. cbn [snd]. right.
  apply in_map_iff. exists (col nat). split; [| exact Hnum].
  assert (Hall : forall a, In a (map (col nat) (r0 :: rest)) -> a = col nat r0).
  { assert (Hsub : incl (r0 :: rest) frame).
    { rewrite <- Hsel. apply drop_duplicates_incl. }
    assert (Hraw : forall r, In r (r0 :: rest) ->
               exists s, In s (dropna csv) /\ col nat r = col string s).
    { intros r Hr. apply Hsub in Hr. rewrite Hframe in Hr. apply in_map_iff in Hr.
      destruct Hr as (s & <- & Hs). exists s. split; [exact Hs | apply Henc]. }
    intros a Ha. apply in_map_iff in Ha. destruct Ha as (r & <- & Hr).
    destruct (Hraw r Hr) as (s & Hs & ->).
    destruct (Hraw r0 (or_introl eq_refl)) as (s0 & Hs0 & ->).
    apply Hconst; assumption. }
  destruct (col_min_max_constant (map (col nat) (r0 :: rest)) (col nat r0))
    as (Hmin & Hmax); [discriminate | exact Hall |].
  unfold min_max. rewrite Hmin, Hmax. rewrite Reqb_true by reflexivity. reflexivity.
Qed.

(** X9.  A dataset with a complete line in which each of the six numeric
    columns takes two values or more is always loaded: [__init__]
    returns an instance. *)
Theorem init_returns (csv : list (option (row string))) :
  dropna csv <> [] ->
  (forall name col, In (name, col) named_numeric_columns ->
     exists r r', In r (dropna csv) /\ In r' (dropna csv) /\
                  col string r <> col string r') ->
  exists self, __init__ csv = Ok self.
Proof.
  intros Hrows Hvaried.
  unfold __init__.
  destruct (_encode_features (dropna csv)) as [frame encoders] eqn:Hfe.
  assert (Hframe : frame = fst (_encode_features (dropna csv))) by (rewrite Hfe; reflexivity).
  rewrite encode_features_rows in Hframe.
  unfold _calculate_similarity.
  destruct (_create_product_features frame) as [| f features] eqn:Hpf.
  { exfalso. unfold _create_product_features in Hpf. apply map_eq_nil in Hpf.
    destruct (dropna csv) as [| s rest] eqn:Hraw; [congruence |].
    destruct (selected_covers frame
                (encode_row (LabelEncoder.fit (map Gender (s :: rest)))
                   (LabelEncoder.fit (map City (s :: rest)))
                   (LabelEncoder.fit (map Product_Category (s :: rest)))
                   (LabelEncoder.fit (map Payment_Method (s :: rest)))
                   (LabelEncoder.fit (map Age_Group (s :: rest)))
                   (LabelEncoder.fit (map Loyalty_Tier (s :: rest))) s))
      as (r' & Hr' & _).
    - rewrite Hframe. left. reflexivity.
    - rewrite Hpf in Hr'. contradiction. }
  destruct (finite_rows_total (map snd (f :: features))) as (X & ->).
  - intros v c Hv Hc. rewrite <- Hpf in Hv.
    unfold _create_product_features in Hv. rewrite map_map in Hv.
    apply in_map_iff in Hv. destruct Hv as (r & <- & Hr). cbn [snd] in Hc.
    destruct Hc as [<- | Hc]; [discriminate |].
    apply in_map_iff in Hc. destruct Hc as (c' & <- & Hc').
    destruct (numeric_column_named c' Hc') as (name & col & Hnamed & ->).
    destruct (named_numeric_column name col Hnamed) as (_ & Henc).
    destruct (Hvaried name col Hnamed) as (s & s' & Hs & Hs' & Hdiff).
    set (x := map (col nat) (drop_duplicates product_key_eqb product_key frame)).
    assert (Hrepr : forall s0, In s0 (dropna csv) -> In (col string s0) x).
    { intros s0 Hs0.
      destruct (selected_covers frame
                  (encode_row (LabelEncoder.fit (map Gender (dropna csv)))
                     (LabelEncoder.fit (map City (dropna csv)))
                     (LabelEncoder.fit (map Product_Category (dropna csv)))
                     (LabelEncoder.fit (map Payment_Method (dropna csv)))
                     (LabelEncoder.fit (map Age_Group (dropna csv)))
                     (LabelEncoder.fit (map Loyalty_Tier (dropna csv))) s0))
        as (r' & Hr' & Hkey).
      - rewrite Hframe. apply in_map. exact Hs0.
      - apply product_key_eqb_true in Hkey. destruct Hkey as (_ & Hnumeric).
        specialize (Hnumeric (col nat) Hc'). rewrite Henc in Hnumeric.
        rewrite Hnumeric. unfold x. apply in_map. exact Hr'. }
    pose proof (Hrepr s Hs) as Ha. pose proof (Hrepr s' Hs') as Hb.
    unfold min_max.
    destruct (col_min x) as [lo |] eqn:Hlo;
      [| destruct x; [contradiction | discriminate]].
    destruct (col_max x) as [hi |] eqn:Hhi;
      [| destruct x; [contradiction | discriminate]].
    pose proof (col_min_le x lo _ Hlo Ha). pose proof (col_max_ge x hi _ Hhi Ha).
    pose proof (col_min_le x lo _ Hlo Hb). pose proof (col_max_ge x hi _ Hhi Hb).
    rewrite Reqb_false by (intros Heq; apply Hdiff; lra). discriminate.
  - eexists. reflexivity.
Qed.

End Construction.

Section Tables.
Local Open Scope R_scope.

(** The rows [drop_duplicates] keeps: none has the key of an earlier
    one. *)
Lemma drop_duplicates_from_distinct {A K} (eqb : K -> K -> bool) (key : A -> K)
    (seen : list K) (frame : list A) :
  StronglySorted (fun a b => eqb (key b) (key a) = false)
    (drop_duplicates_from eqb key seen frame) /\
  Forall (fun r => forall k, In k seen -> eqb (key r) k = false)
    (drop_duplicates_from eqb key seen frame).
Proof.
  revert seen. induction frame as [| r0 rest IH]; intros seen; simpl.
  - split; constructor.
  - destruct (existsb (eqb (key r0)) seen) eqn:Hseen; [apply IH |].
    destruct (IH (key r0 :: seen)) as (Hsorted & Hall).
    rewrite Forall_forall in Hall. split.
    + constructor; [exact Hsorted |]. rewrite Forall_forall.
      intros r Hr. apply (Hall r Hr). left. reflexivity.
    + constructor.
      * intros k Hk. destruct (eqb (key r0) k) eqn:Hk0; [| reflexivity].
        assert (Hex : existsb (eqb (key r0)) seen = true)
          by (apply existsb_exists; exists k; split; assumption).
        congruence.
      * rewrite Forall_forall. intros r Hr k Hk. apply (Hall r Hr). right. exact Hk.
Qed.

Lemma drop_duplicates_from_length {A K} (eqb : K -> K -> bool) (key : A -> K)
    (seen : list K) (frame : list A) :
  (List.length (drop_duplicates_from eqb key seen frame) <= List.length frame)%nat.
Proof.
  revert seen. induction frame as [| r0 rest IH]; intros seen; simpl.
  - lia.
  - destruct (existsb (eqb (key r0)) seen); simpl.
    + specialize (IH seen). lia.
    + specialize (IH (key r0 :: seen)). lia.
Qed.

Lemma StronglySorted_NoDup_map {A B} (rel : A -> A -> Prop) (f : A -> B) (l : list A) :
  StronglySorted rel l ->
  (forall a b, In a l -> In b l -> rel a b -> f a <> f b) ->
  NoDup (map f l).
Proof.
  induction 1 as [| a l Hl IH Ha]; intros Hrel; simpl; constructor.
  - intros Hin. apply in_map_iff in Hin. destruct Hin as (b & Hb & Hbl).
    rewrite Forall_forall in Ha.
    apply (Hrel a b (or_introl eq_refl) (or_intror Hbl) (Ha b Hbl)).
    symmetry. exact Hb.
  - apply IH. intros x y Hx Hy. apply Hrel; right; assumption.
Qed.

Lemma product_key_eqb_intro (r r' : row nat) :
  Product_ID r = Product_ID r' ->
  Product_Category r = Product_Category r' ->
  (forall c, In c numeric_columns -> c r = c r') ->
  product_key_eqb (product_key r) (product_key r') = true.
Proof.
  intros Hid Hcat Hnum. unfold product_key_eqb, product_key.
  rewrite Hid, Hcat, String.eqb_refl, Nat.eqb_refl, !length_map, Nat.eqb_refl.
  simpl. unfold numeric_columns in *. simpl.
  rewrite !Reqb_true; [reflexivity | | | | | |]; apply Hnum; simpl; tauto.
Qed.

Lemma dot_nonneg (x y : list R) :
  Forall (fun a => 0 <= a) x -> Forall (fun a => 0 <= a) y -> 0 <= Pairwise.dot x y.
Proof.
  intros Hx. revert y. induction Hx as [| a x Ha Hx IH]; intros y Hy.
  - unfold Pairwise.dot. simpl. lra.
  - destruct Hy as [| b y Hb Hy].
    + rewrite PairwiseFacts.dot_nil_r. lra.
    + rewrite PairwiseFacts.dot_cons. specialize (IH y Hy). nra.
Qed.

Lemma cosine_nonneg (x y : list R) :
  Forall (fun a => 0 <= a) x -> Forall (fun a => 0 <= a) y ->
  0 <= Pairwise.cosine x y.
Proof.
  intros Hx Hy. rewrite PairwiseFacts.cosine_formula.
  pose proof (dot_nonneg x y Hx Hy) as Hd.
  pose proof (PairwiseFacts.scale_positive x) as Hsx.
  pose proof (PairwiseFacts.scale_positive y) as Hsy.
  apply Rmult_le_pos; [exact Hd |].
  apply Rlt_le, Rinv_0_lt_compat. nra.
Qed.

Variable csv : list (option (row string)).
Variable self : RecommenderSystem.
Hypothesis built : __init__ csv = Ok self.

Lemma table_is_selected :
  map fst (product_features self)
  = map Product_ID (drop_duplicates product_key_eqb product_key (df self)).
Proof.
  destruct (init_Ok csv self built) as (_ & _ & _ & Hpf & _).
  rewrite Hpf. unfold _create_product_features. rewrite map_map. reflexivity.
Qed.

Lemma frame_ids : map Product_ID (df self) = map Product_ID (dropna csv).
Proof.
  destruct (init_Ok csv self built) as (_ & Hdf & _).
  rewrite Hdf, encode_features_rows, map_map. reflexivity.
Qed.

(** Every product of a row of the frame labels a row of the table. *)
Lemma table_covers (p : string) :
  In p (map Product_ID (df self)) -> In p (map fst (product_features self)).
Proof.
  intros Hp. apply in_map_iff in Hp. destruct Hp as (r & <- & Hr).
  destruct (selected_covers (df self) r Hr) as (r' & Hr' & Hkey).
  apply product_key_eqb_true in Hkey. destruct Hkey as (-> & _).
  rewrite table_is_selected. apply in_map. exact Hr'.
Qed.

(** X11.  The product feature table holds the products of the loaded
    dataset, each of them and no other, on no more rows than the dataset
    has. *)
Theorem feature_table_products :
  (forall p, In p (map fst (product_features self)) <->
             In p (map Product_ID (dropna csv))) /\
  (List.length (product_features self) <= List.length (dropna csv))%nat.
Proof.
  split.
  - intros p. rewrite <- frame_ids. split.
    + apply (product_ids_in_frame csv self p built).
    + apply table_covers.
  - rewrite <- (length_map fst), table_is_selected, length_map.
    rewrite <- (length_map Product_ID (dropna csv)), <- frame_ids, length_map.
    apply drop_duplicates_from_length.
Qed.

(** X12.  When the lines of the dataset that name the same product agree
    on its category and on its six numeric attributes, every product
    identifier labels one row of the product feature table. *)
Theorem table_labels_distinct :
  (forall s s', In s (dropna csv) -> In s' (dropna csv) ->
     Product_ID s = Product_ID s' ->
     Product_Category s = Product_Category s' /\
     forall name col, In (name, col) named_numeric_columns ->
       col string s = col string s') ->
  NoDup (map fst (product_features self)).
Proof.
  intros Hagree. rewrite table_is_selected.
  destruct (drop_duplicates_from_distinct product_key_eqb product_key [] (df self))
    as (Hsorted & _).
  apply (StronglySorted_NoDup_map _ Product_ID _ Hsorted).
  intros a b Ha Hb Hrel Hid.
  apply drop_duplicates_incl in Ha. apply drop_duplicates_incl in Hb.
  destruct (init_Ok csv self built) as (_ & Hdf & _).
  rewrite Hdf, encode_features_rows in Ha, Hb.
  apply in_map_iff in Ha. destruct Ha as (s & <- & Hs).
  apply in_map_iff in Hb. destruct Hb as (s' & <- & Hs').
  cbn [Product_ID encode_row] in Hid.
  destruct (Hagree s' s Hs' Hs (eq_sym Hid)) as (Hcat & Hnum).
  rewrite product_key_eqb_intro in Hrel; [discriminate | | |].
  - cbn [Product_ID encode_row]. symmetry. exact Hid.
  - cbn [Product_Category encode_row]. rewrite Hcat. reflexivity.
  - intros c Hc. destruct (numeric_column_named c Hc) as (name & col & Hnamed & ->).
    destruct (named_numeric_column name col Hnamed) as (_ & Henc).
    rewrite !Henc. apply (Hnum name col Hnamed).
Qed.

Lemma feature_row_nonneg (i : nat) (a : string) (v : list (option R)) :
  nth_error (product_features self) i = Some (a, v) ->
  exists x, v = map Some x /\ Forall (fun c => 0 <= c) x.
Proof.
  intros Hi.
  destruct (init_Ok csv self built) as (X & _ & _ & Hpf & _ & HX & _).
  assert (Hi' : nth_error (map snd (product_features self)) i = Some v)
    by (rewrite nth_error_map, Hi; reflexivity).
  destruct (finite_rows_nth _ _ HX i v Hi') as (x & _ & Hx).
  exists x. split; [exact Hx |].
  pose proof (nth_error_In _ _ Hi) as Hin. rewrite Hpf in Hin.
  destruct (product_features_row _ _ _ Hin) as (r & selected & Hr & _ & _ & Hv).
  rewrite Forall_forall. intros c Hc.
  assert (Hcell : In (Some c) v) by (rewrite Hx; apply in_map; exact Hc).
  rewrite Hv in Hcell. destruct Hcell as [Hcat | Hcell].
  - injection Hcat as <-. apply pos_INR.
  - apply in_map_iff in Hcell. destruct Hcell as (col & Hmm & _).
    apply (min_max_unit (map col selected) (col r) c); [| exact Hmm].
    apply in_map. exact Hr.
Qed.

(** X13.  No cell of the similarity matrix is negative: the feature
    vectors have no negative cell, so every similarity lies between 0
    and 1 (exact arithmetic). *)
Theorem similarities_nonnegative (i j : nat) :
  (i < List.length (sim_index (product_similarity_df self)))%nat ->
  (j < List.length (sim_columns (product_similarity_df self)))%nat ->
  0 <= entry (product_similarity_df self) i j <= 1.
Proof.
  intros Hi Hj.
  destruct (init_index csv self built) as (Hidx & Hcols & _).
  rewrite Hcols in Hj. rewrite Hidx, length_map in Hi, Hj.
  destruct (nth_error (product_features self) i) as [[a v] |] eqn:Ha;
    [| apply nth_error_None in Ha; lia].
  destruct (nth_error (product_features self) j) as [[b w] |] eqn:Hb;
    [| apply nth_error_None in Hb; lia].
  destruct (feature_row_nonneg i a v Ha) as (x & Hx & Hxpos).
  destruct (feature_row_nonneg j b w Hb) as (y & Hy & Hypos).
  destruct (init_entry csv self built i j a b v w Ha Hb) as (x' & y' & Hx' & Hy' & ->).
  rewrite Hx in Hx'. apply map_Some_inj in Hx'. subst x'.
  rewrite Hy in Hy'. apply map_Some_inj in Hy'. subst y'.
  split; [apply cosine_nonneg; assumption | apply PairwiseFacts.cosine_bounds].
Qed.

End Tables.

(* ===================================================================== *)
(** * More on the label encoder                                           *)
(* ===================================================================== *)

Section Encoder.
Import LabelEncoder.

Lemma compare_Lt_trans (a b c : string) :
  String.compare a b = Lt -> String.compare b c = Lt -> String.compare a c = Lt.
Proof.
  intros Hab Hbc. apply String_as_OT.cmp_lt.
  apply (String_as_OT.lt_trans a b c); apply String_as_OT.cmp_lt; assumption.
Qed.

Lemma compare_Gt_Lt (a b : string) :
  String.compare a b = Gt -> String.compare b a = Lt.
Proof.
  intros H. rewrite String.compare_antisym, H. reflexivity.
Qed.

Lemma compare_refl (a : string) : String.compare a a = Eq.
Proof. apply (proj2 (String_as_OT.cmp_eq a a)). reflexivity. Qed.

Lemma insert_unique_sorted (v : string) (l : list string) :
  StronglySorted (fun a b => String.compare a b = Lt) l ->
  StronglySorted (fun a b => String.compare a b = Lt) (insert_unique v l).
Proof.
  induction 1 as [| x l Hl IH Hx]; simpl.
  - repeat constructor.
  - destruct (String.compare v x) eqn:Hvx.
    + constructor; assumption.
    + constructor; [constructor; assumption |].
      constructor; [exact Hvx |].
      rewrite Forall_forall in Hx |- *. intros b Hb.
      apply (compare_Lt_trans v x b Hvx). apply Hx. exact Hb.
    + constructor; [exact IH |].
      rewrite Forall_forall in Hx |- *. intros b Hb.
      apply LabelEncoderFacts.insert_unique_In in Hb. destruct Hb as [-> | Hb].
      * apply compare_Gt_Lt. exact Hvx.
      * apply Hx. exact Hb.
Qed.

Lemma unique_sorted (y : list string) :
  StronglySorted (fun a b => String.compare a b = Lt) (unique y).
Proof.
  unfold unique. induction y as [| v y IH]; simpl.
  - constructor.
  - apply insert_unique_sorted. exact IH.
Qed.

Lemma sorted_NoDup (l : list string) :
  StronglySorted (fun a b => String.compare a b = Lt) l -> NoDup l.
Proof.
  induction 1 as [| x l Hl IH Hx]; constructor; [| exact IH].
  intros Hin. rewrite Forall_forall in Hx. specialize (Hx x Hin).
  rewrite compare_refl in Hx. discriminate.
Qed.

Lemma index_of_NoDup (l : list string) (c : nat) (v : string) :
  NoDup l -> nth_error l c = Some v -> index_of v l = c.
Proof.
  intros Hnd Hc.
  assert (Hin : In v l) by (apply (nth_error_In _ _ Hc)).
  apply (proj1 (NoDup_nth_error l) Hnd).
  - apply index_of_lt. exact Hin.
  - rewrite (index_of_nth_error v l Hin), Hc. reflexivity.
Qed.

Lemma index_of_absent (v : string) (l : list string) :
  ~ In v l -> index_of v l = List.length l.
Proof.
  induction l as [| x l IH]; simpl; intros H.
  - reflexivity.
  - destruct (String.eqb_spec x v) as [-> | Hne].
    + exfalso. apply H. left. reflexivity.
    + f_equal. apply IH. tauto.
Qed.

(** A fitted encoder numbers the distinct values of its column in
    alphabetical order: its classes are sorted and without repetition,
    they are the values of the column, a code below their number decodes
    to a value that encodes back to that code, and of two values of the
    column the one that sorts first has the smaller code. *)
Lemma fit_numbers_values (y : list string) :
  StronglySorted (fun a b => String.compare a b = Lt) (classes_ (fit y)) /\
  NoDup (classes_ (fit y)) /\
  (forall v, In v (classes_ (fit y)) <-> In v y) /\
  (forall c, (c < List.length (classes_ (fit y)))%nat ->
     exists v, In v y /\
       inverse_transform (fit y) [c] = Ok [v] /\
       transform (fit y) [v] = Ok [c]) /\
  (forall v w, In v y -> In w y ->
     (String.compare v w = Lt <-> (code (fit y) v < code (fit y) w)%nat)).
Proof.
  pose proof (unique_sorted y) as Hsorted.
  pose proof (sorted_NoDup _ Hsorted) as Hnd.
  split; [exact Hsorted |]. split; [exact Hnd |].
  split; [intros v; apply LabelEncoderFacts.unique_In |]. split.
  - intros c Hc.
    destruct (nth_error (classes_ (fit y)) c) as [v |] eqn:Hv;
      [| apply nth_error_None in Hv; lia].
    assert (Hin : In v y)
      by (apply LabelEncoderFacts.unique_In; apply (nth_error_In _ _ Hv)).
    exists v. split; [exact Hin |]. split.
    + cbn [inverse_transform]. rewrite Hv. reflexivity.
    + rewrite (LabelEncoderFacts.transform_fit y v Hin).
      unfold code. cbn [fit classes_] in Hv |- *.
      rewrite (index_of_NoDup _ c v Hnd Hv). reflexivity.
  - intros v w Hv Hw.
    pose proof (LabelEncoderFacts.fit_code_decodes y v Hv) as Hcv.
    pose proof (LabelEncoderFacts.fit_code_decodes y w Hw) as Hcw.
    split.
    + intros Hlt.
      destruct (Nat.lt_trichotomy (code (fit y) v) (code (fit y) w)) as [H | [H | H]].
      * exact H.
      * rewrite H, Hcw in Hcv. injection Hcv as ->.
        rewrite compare_refl in Hlt. discriminate.
      * pose proof (StronglySorted_nth _ _ Hsorted _ _ w v H Hcw Hcv) as Hwv.
        pose proof (compare_Lt_trans v w v Hlt Hwv) as Hvv.
        rewrite compare_refl in Hvv. discriminate.
    + intros H. apply (StronglySorted_nth _ _ Hsorted _ _ v w H Hcv Hcw).
Qed.

(** [transform] raises [ValueError] on a label the encoder was not
    fitted on, and [inverse_transform] raises it on a code that is not
    below the number of classes. *)
Lemma fit_rejects_unseen (y : list string) :
  (forall v, ~ In v y -> transform (fit y) [v] = Raise ValueError) /\
  (forall c, (List.length (classes_ (fit y)) <= c)%nat ->
     inverse_transform (fit y) [c] = Raise ValueError).
Proof.
  split.
  - intros v Hv. cbn [transform]. unfold code.
    rewrite index_of_absent
      by (intros Hin; apply Hv; apply LabelEncoderFacts.unique_In; exact Hin).
    rewrite Nat.ltb_irrefl. reflexivity.
  - intros c Hc. cbn [inverse_transform].
    apply nth_error_None in Hc. rewrite Hc. reflexivity.
Qed.

End Encoder.

(** X14.  After [_encode_features], the encoder stored for each of the
    six categorical columns lists the distinct strings of that column in
    alphabetical order, without repetition, and the cell of every row of
    the frame is the place of the row's string in that list: decoding the
    cell gives the string back, and of two rows the one whose string
    sorts first has the smaller code. *)
Theorem stored_encoders_number_values (raw : list (row string)) (name : string)
    (column : forall A, row A -> A) :
  In (name, column) categorical_columns ->
  exists le,
    dict_get (snd (_encode_features raw)) name = Ok le /\
    StronglySorted (fun a b => String.compare a b = Lt) (LabelEncoder.classes_ le) /\
    NoDup (LabelEncoder.classes_ le) /\
    (forall v, In v (LabelEncoder.classes_ le) <-> In v (map (column string) raw)) /\
    (forall i r, nth_error raw i = Some r ->
       exists r',
         nth_error (fst (_encode_features raw)) i = Some r' /\
         nth_error (LabelEncoder.classes_ le) (column nat r') = Some (column string r)) /\
    (forall i j r s r' s',
       nth_error raw i = Some r -> nth_error raw j = Some s ->
       nth_error (fst (_encode_features raw)) i = Some r' ->
       nth_error (fst (_encode_features raw)) j = Some s' ->
       (String.compare (column string r) (column string s) = Lt
        <-> (column nat r' < column nat s')%nat)).
Proof.
  intros Hin.
  destruct (encode_features_column raw name column Hin) as (Hget & Hrows).
  destruct (fit_numbers_values (map (column string) raw))
    as (Hsorted & Hnd & Hvalues & _ & Horder).
  exists (LabelEncoder.fit (map (column string) raw)).
  split; [exact Hget |]. split; [exact Hsorted |]. split; [exact Hnd |].
  split; [exact Hvalues |]. split.
  - intros i r Hi. destruct (Hrows i r Hi) as (r' & Hi' & _ & _ & Hcode).
    exists r'. split; [exact Hi' |]. rewrite Hcode.
    apply LabelEncoderFacts.fit_code_decodes. apply in_map.
    apply (nth_error_In _ _ Hi).
  - intros i j r s r' s' Hi Hj Hi' Hj'.
    destruct (Hrows i r Hi) as (r1 & H1 & _ & _ & Hc1).
    destruct (Hrows j s Hj) as (s1 & H2 & _ & _ & Hc2).
    rewrite Hi' in H1. injection H1 as <-.
    rewrite Hj' in H2. injection H2 as <-.
    rewrite Hc1, Hc2.
    apply Horder; apply in_map; [apply (nth_error_In _ _ Hi) | apply (nth_error_In _ _ Hj)].
Qed.

(* ===================================================================== *)
(** * More on the customer method and on the page                         *)
(* ===================================================================== *)

Lemma list_remove_error (x : string) (l : list string) (e : exn) :
  list_remove x l = Raise e -> e = ValueError.
Proof.
  induction l as [| y l IH]; simpl; intros H.
  - injection H as <-. reflexivity.
  - destruct (y =? x); [discriminate |].
    destruct (list_remove x l) as [l' | e'] eqn:Hl; simpl in H; [discriminate |].
    injection H as <-. apply IH. reflexivity.
Qed.

Lemma Forall2_from_each {A B} (rel : A -> B -> Prop) (l : list A) :
  (forall a, In a l -> exists b, rel a b) -> exists l', Forall2 rel l l'.
Proof.
  induction l as [| a l IH]; intros H.
  - exists []. constructor.
  - destruct (H a (or_introl eq_refl)) as (b & Hb).
    destruct IH as (l' & Hl'); [intros a' Ha'; apply H; right; exact Ha' |].
    exists (b :: l'). constructor; assumption.
Qed.

Lemma update_from_eq (pids : list string) (N : nat) (added : list string)
    (self : RecommenderSystem) :
  update_from pids N added self = (fst (update_from pids N added self), self).
Proof.
  rewrite <- (update_from_self pids N added self) at 3. apply surjective_pairing.
Qed.

(** The loop stops at the first product for which the call raises. *)
Lemma update_from_Raise (pids : list string) (N : nat) (added : list string)
    (self : RecommenderSystem) (e : exn) :
  fst (update_from pids N added self) = Raise e ->
  exists p, In p pids /\ fst (recommend_products p N self) = Raise e.
Proof.
  revert added. induction pids as [| p rest IH]; intros added; simpl.
  - discriminate.
  - unfold bind. rewrite (recommend_products_eq p N self).
    destruct (fst (recommend_products p N self)) as [l | e'] eqn:Hp.
    + intros H. destruct (IH _ H) as (p' & Hp' & He).
      exists p'. split; [right; exact Hp' | exact He].
    + simpl. intros H. injection H as <-.
      exists p. split; [left; reflexivity | exact Hp].
Qed.

Lemma filter_mem_nil {A} (frame : list (row A)) :
  filter (fun r => mem (Product_ID r) []) frame = [].
Proof.
  induction frame as [| r l IH]; simpl; [reflexivity | exact IH].
Qed.

Lemma map_snd_combine {A B} (a : list A) (b : list B) :
  List.length a = List.length b -> map snd (combine a b) = b.
Proof.
  revert b. induction a as [| x a IH]; intros [| y b] H; simpl in *;
    try discriminate; [reflexivity |].
  f_equal. apply IH. lia.
Qed.

Section CustomerMethod.

Variable csv : list (option (row string)).
Variable self : RecommenderSystem.
Hypothesis built : __init__ csv = Ok self.

Variable set_iteration : list string -> list string.

(** The method on a customer of the dataset: the loop decides. *)
Lemma customer_outcome (cid : string) (N : nat) (first : row string)
    (rest : list (row string)) :
  rows_of_customer cid (dropna csv) = first :: rest ->
  recommend_products_for_customer set_iteration cid N self =
  match fst (update_from (map Product_ID (first :: rest)) N [] self) with
  | Ok added =>
      (Ok (firstn N (set_iteration added),
           map Product_Category
             (drop_duplicates String.eqb Product_ID
                (filter (fun r => mem (Product_ID r) (firstn N (set_iteration added)))
                   (dropna csv))),
           City first, Age_Group first), self)
  | Raise e => (Raise e, self)
  end.
Proof.
  intros Hrows.
  destruct (init_Ok csv self built) as (_ & Hdf & Henc & _).
  assert (Hfirst : In first (dropna csv)).
  { apply (rows_of_customer_In cid (dropna csv) first). rewrite Hrows.
    left. reflexivity. }
  pose proof (rows_of_customer_encoded cid (dropna csv)) as Hencoded.
  rewrite <- Hdf, Hrows in Hencoded. cbn [map] in Hencoded.
  assert (Hpids : map Product_ID (first :: rest)
                  = map Product_ID (rows_of_customer cid (df self))).
  { rewrite Hencoded. cbn [map Product_ID encode_row]. f_equal.
    rewrite map_map. reflexivity. }
  unfold recommend_products_for_customer, bind, gets, lift, ret.
  rewrite <- Hpids, Hencoded, Henc, encode_features_encoders.
  cbn [dict_get String.eqb Ascii.eqb Bool.eqb City Age_Group encode_row
       LabelEncoder.inverse_transform].
  rewrite !LabelEncoderFacts.fit_code_decodes by (apply in_map; exact Hfirst).
  cbn [rbind item0].
  rewrite (update_from_eq _ N [] self).
  destruct (fst (update_from (map Product_ID (first :: rest)) N [] self))
    as [added | e]; [| reflexivity].
  rewrite Henc, encode_features_encoders.
  cbn [dict_get String.eqb Ascii.eqb Bool.eqb fst].
  rewrite Hdf, categories_of_encoded.
  rewrite LabelEncoderFacts.inverse_transform_codes; [reflexivity |].
  intros c Hc. apply in_map_iff in Hc. destruct Hc as (r & <- & Hr).
  apply in_map. apply drop_duplicates_incl in Hr. apply filter_In in Hr. apply Hr.
Qed.

Lemma customer_rows (cid : string) :
  map Product_ID (rows_of_customer cid (df self))
  = map Product_ID (rows_of_customer cid (dropna csv)).
Proof.
  destruct (init_Ok csv self built) as (_ & Hdf & _).
  rewrite Hdf, rows_of_customer_encoded, map_map. reflexivity.
Qed.

Lemma unknown_in_both (cid : string) :
  rows_of_customer cid (dropna csv) = [] -> rows_of_customer cid (df self) = [].
Proof.
  intros H. destruct (init_Ok csv self built) as (_ & Hdf & _).
  rewrite Hdf, rows_of_customer_encoded, H. reflexivity.
Qed.

(** X15.  On an instance [__init__] returned, the customer method
    returns whenever [recommend_products] returns for each product of
    the customer's rows (so, always, for an identifier the dataset does
    not hold), and it leaves the instance as it was. *)
Theorem customer_returns_when_purchases_do (customer_id : string)
    (num_recommendations : nat) :
  (forall p, In p (map Product_ID (rows_of_customer customer_id (df self))) ->
     exists l, fst (recommend_products p num_recommendations self) = Ok l) ->
  exists answer,
    recommend_products_for_customer set_iteration customer_id
      num_recommendations self = (Ok answer, self).
Proof.
  intros Hall. rewrite customer_rows in Hall.
  destruct (rows_of_customer customer_id (dropna csv)) as [| first rest] eqn:Hrows.
  - unfold recommend_products_for_customer, bind, gets, ret.
    rewrite (unknown_in_both customer_id Hrows). eexists. reflexivity.
  - rewrite (customer_outcome customer_id _ first rest Hrows).
    destruct (Forall2_from_each _ _ Hall) as (recs & Hrecs).
    rewrite (update_from_run _ _ [] recs self Hrecs). cbn [fst].
    eexists. reflexivity.
Qed.

(** A product of a row of the frame is in the table: the call either
    returns or raises [TypeError] or [ValueError]. *)
Lemma purchase_error (p : string) (N : nat) (e : exn) :
  In p (map Product_ID (df self)) ->
  fst (recommend_products p N self) = Raise e ->
  e = TypeError \/ e = ValueError.
Proof.
  intros Hp He.
  pose proof (table_covers csv self built p Hp) as Htable.
  pose proof (getitem_by_count (product_similarity_df self) p) as Hget.
  rewrite (table_columns csv self built) in Hget.
  apply (count_occ_In string_dec) in Htable.
  destruct (count_occ string_dec (map fst (product_features self)) p) as [| [| n]];
    [lia | |].
  - destruct Hget as (col & Hcol).
    rewrite (recommend_products_run self p N col Hcol) in He. cbn [fst] in He.
    right. apply (list_remove_error _ _ _ He).
  - unfold recommend_products, bind, gets, lift in He. rewrite Hget in He.
    simpl in He. injection He as <-. left. reflexivity.
Qed.

(** X16.  On an instance [__init__] returned, the only exceptions the
    customer method raises are [TypeError] and [ValueError], and the one
    it raises is the one [recommend_products] raises for a product of
    the customer's rows: never a [KeyError], never an [IndexError]. *)
Theorem customer_raises_what_a_purchase_raises (customer_id : string)
    (num_recommendations : nat) (e : exn) :
  fst (recommend_products_for_customer set_iteration customer_id
         num_recommendations self) = Raise e ->
  (e = TypeError \/ e = ValueError) /\
  exists p,
    In p (map Product_ID (rows_of_customer customer_id (dropna csv))) /\
    fst (recommend_products p num_recommendations self) = Raise e.
Proof.
  intros He.
  destruct (rows_of_customer customer_id (dropna csv)) as [| first rest] eqn:Hrows.
  - unfold recommend_products_for_customer, bind, gets, ret in He.
    rewrite (unknown_in_both customer_id Hrows) in He. discriminate.
  - rewrite (customer_outcome customer_id _ first rest Hrows) in He.
    destruct (fst (update_from (map Product_ID (first :: rest)) num_recommendations
                     [] self)) as [added | e'] eqn:Hupd; [discriminate |].
    cbn [fst] in He. injection He as <-.
    destruct (update_from_Raise _ _ _ _ _ Hupd) as (p & Hp & Hpe).
    split; [| exists p; split; assumption].
    apply (purchase_error p num_recommendations e'); [| exact Hpe].
    assert (Hin : In p (map Product_ID (rows_of_customer customer_id (dropna csv))))
      by (rewrite Hrows; exact Hp).
    rewrite (frame_ids csv self built).
    apply in_map_iff in Hin. destruct Hin as (r & <- & Hr).
    apply rows_of_customer_In in Hr. apply in_map. apply Hr.
Qed.

Hypothesis set_iteration_spec :
  forall added, Permutation (set_iteration added) (nodup string_dec added).

(** X17.  The categories returned for a customer are the categories of
    the products returned, each once, read on the first line of the
    dataset that names the product and listed in the order of those
    lines. *)
Theorem categories_of_recommended (customer_id : string) (num_recommendations : nat)
    (prods cats : list string) (city age : string) :
  fst (recommend_products_for_customer set_iteration customer_id
         num_recommendations self) = Ok (prods, cats, city, age) ->
  exists lines,
    lines = drop_duplicates String.eqb Product_ID
              (filter (fun r => mem (Product_ID r) prods) (dropna csv)) /\
    incl lines (dropna csv) /\
    cats = map Product_Category lines /\
    Permutation (map Product_ID lines) prods.
Proof.
  intros Hcall.
  destruct (customer_list_in_table set_iteration set_iteration_spec csv self
              customer_id num_recommendations prods cats city age built Hcall)
    as (Hnd & Htable).
  eexists. split; [reflexivity |]. split; [| split].
  - intros r Hr. apply drop_duplicates_incl in Hr. apply filter_In in Hr. apply Hr.
  - destruct (rows_of_customer customer_id (dropna csv)) as [| first rest] eqn:Hrows.
    + unfold recommend_products_for_customer, bind, gets, ret in Hcall.
      rewrite (unknown_in_both customer_id Hrows) in Hcall. simpl in Hcall.
      injection Hcall as <- <- _ _.
      rewrite filter_mem_nil. reflexivity.
    + rewrite (customer_outcome customer_id _ first rest Hrows) in Hcall.
      destruct (fst (update_from (map Product_ID (first :: rest)) num_recommendations
                       [] self)) as [added | e']; [| discriminate].
      cbn [fst] in Hcall. injection Hcall as <- <- _ _. reflexivity.
  - apply NoDup_Permutation.
    + apply drop_duplicates_ids.
    + exact Hnd.
    + intros p. rewrite (proj2 (drop_duplicates_ids _) p), selected_ids. split.
      * intros (_ & Hp). exact Hp.
      * intros Hp. split; [| exact Hp].
        rewrite <- (frame_ids csv self built).
        apply (product_ids_in_frame csv self p built). apply Htable. exact Hp.
Qed.

(** X18.  A customer whose rows all name the same product is never
    recommended that product. *)
Theorem single_product_not_recommended (customer_id product_id : string)
    (num_recommendations : nat) (prods cats : list string) (city age : string) :
  (forall r, In r (rows_of_customer customer_id (df self)) ->
     Product_ID r = product_id) ->
  fst (recommend_products_for_customer set_iteration customer_id
         num_recommendations self) = Ok (prods, cats, city, age) ->
  ~ In product_id prods.
Proof.
  intros Hsame Hcall Hin.
  destruct (customer_products set_iteration set_iteration_spec customer_id
              num_recommendations self prods cats city age Hcall) as (_ & _ & Hfrom).
  destruct (Hfrom product_id Hin) as (p & l & Hp & Hl & Hxl).
  apply in_map_iff in Hp. destruct Hp as (r & <- & Hr).
  rewrite (Hsame r Hr) in Hl.
  destruct (recommend_products_list csv self product_id _ l built Hl) as (Hnot & _).
  exact (Hnot Hxl).
Qed.

(** X19.  When the page returns, it printed the answer of the customer
    method for five recommendations: the warning when the answer has no
    product, and otherwise the identifier typed in, the city and the age
    group of the answer, and one line for every product and every
    category of the answer (the [zip] drops none).  The instance is as
    before. *)
Theorem page_prints_the_answer (customer_id : string) (shown : page) :
  fst (on_get_recommendations set_iteration customer_id self) = Ok shown ->
  snd (on_get_recommendations set_iteration customer_id self) = self /\
  exists prods cats city age,
    fst (recommend_products_for_customer set_iteration customer_id 5 self)
      = Ok (prods, cats, city, age) /\
    ((prods = [] /\ exists message, shown = Warning message) \/
     (prods <> [] /\
      exists lines,
        shown = Details customer_id city age lines /\
        map fst lines = prods /\ map snd lines = cats)).
Proof.
  unfold on_get_recommendations, bind.
  pose proof (customer_self set_iteration customer_id 5 self) as Hself.
  destruct (recommend_products_for_customer set_iteration customer_id 5 self)
    as [[[[[prods cats] city] age] | e] self'] eqn:Hcall;
    simpl in Hself; subst self'; [| discriminate].
  assert (Hlen : List.length cats = List.length prods).
  { apply (categories_same_length set_iteration set_iteration_spec csv self
             customer_id 5 prods cats city age built).
    rewrite Hcall. reflexivity. }
  destruct prods as [| p prods]; cbn [fst snd ret]; intros H; injection H as <-.
  - split; [reflexivity |]. exists [], cats, city, age.
    split; [reflexivity |]. left. split; [reflexivity |]. eexists. reflexivity.
  - split; [reflexivity |]. exists (p :: prods), cats, city, age.
    split; [reflexivity |]. right. split; [discriminate |].
    eexists. split; [reflexivity |]. split.
    + apply (map_fst_combine (p :: prods) cats). symmetry. exact Hlen.
    + apply (map_snd_combine (p :: prods) cats). symmetry. exact Hlen.
Qed.

End CustomerMethod.

(* ===================================================================== *)
(** * The further properties, on the datasets                             *)
(* ===================================================================== *)

Section MoreInstances.
Local Open Scope R_scope.

Ltac one_of_the_rows H :=
  repeat (destruct H as [H | H]; [try subst; try (injection H as <- <-) |]);
  try contradiction.

Lemma grocery_labels_distinct : NoDup (map fst (product_features grocery_system)).
Proof.
  cbn. repeat constructor; cbn; intuition discriminate.
Qed.

(** On the grocery: the bread, two recommendations. *)
Lemma recommended_excludes_query_witness :
  ~ In "Bread" ["Milk"; "Chips"] /\
  (List.length ["Milk"; "Chips"] <= 2)%nat /\
  incl ["Milk"; "Chips"] (map fst (product_features grocery_system)) /\
  snd (recommend_products "Bread" 2 grocery_system) = grocery_system.
Proof.
  apply (recommended_excludes_query grocery grocery_system grocery_init "Bread" 2).
  rewrite grocery_recommend_Bread. reflexivity.
Defined.

(** On the grocery: the milk, two recommendations. *)
Lemma recommended_ranked_witness :
  NoDup ["Chips"; "Bread"] /\
  ranked_descending (fun x => loc (product_similarity_df grocery_system) x "Milk")
    ["Chips"; "Bread"] /\
  none_better_omitted (fun x => loc (product_similarity_df grocery_system) x "Milk")
    (List.remove string_dec "Milk" (map fst (product_features grocery_system)))
    ["Chips"; "Bread"].
Proof.
  apply (recommended_ranked grocery grocery_system grocery_init "Milk" 2).
  - exact grocery_labels_distinct.
  - rewrite grocery_recommend_Milk. reflexivity.
Defined.

(** The grocery sells no eggs; the repriced milk labels two rows. *)
Lemma recommend_products_bad_label_witness :
  recommend_products "Eggs" 2 grocery_system = (Raise KeyError, grocery_system) /\
  recommend_products "Milk" 2 repriced_system = (Raise TypeError, repriced_system).
Proof.
  split.
  - apply (proj1 (recommend_products_bad_label grocery grocery_system grocery_init
                    "Eggs" 2)).
    cbn. intuition discriminate.
  - apply (proj2 (recommend_products_bad_label repriced repriced_system repriced_init
                    "Milk" 2)).
    apply Nat.le_refl.
Defined.

(** On the grocery: the milk, no recommendation asked for.  No other
    row of its column reaches the cell of the milk. *)
Lemma recommend_products_returns_when_unrivalled_witness :
  exists l, recommend_products "Milk" 0 grocery_system = (Ok l, grocery_system).
Proof.
  apply (recommend_products_returns_when_unrivalled grocery grocery_system
           grocery_init "Milk" 0
           [("Bread", 1 / 2); ("Milk", 1); ("Chips", 2 / 3)] 1).
  - exact grocery_column_Milk.
  - right. left. reflexivity.
  - cbn [filter fst snd String.eqb Ascii.eqb Bool.eqb negb andb].
    rewrite (Rltb_true (1 / 2) 1) by lra.
    rewrite (Rltb_true (2 / 3) 1) by lra.
    cbn [negb andb List.length]. apply Nat.le_refl.
Defined.

(** On the grocery: the bread, as many recommendations as other products. *)
Lemma recommend_products_all_others_witness :
  exists l,
    recommend_products "Bread" 2 grocery_system = (Ok l, grocery_system) /\
    Permutation ("Bread" :: l) (map fst (product_features grocery_system)).
Proof.
  apply (recommend_products_all_others grocery grocery_system grocery_init "Bread" 2).
  - reflexivity.
  - apply Nat.le_refl.
Defined.

(** On the grocery: the milk, two recommendations and then five. *)
Lemma recommend_products_prefix_witness :
  exists tail,
    fst (recommend_products "Milk" (2 + 3) grocery_system)
    = Ok (["Chips"; "Bread"] ++ tail).
Proof.
  apply (recommend_products_prefix grocery_system "Milk" 2 3).
  rewrite grocery_recommend_Milk. reflexivity.
Defined.

(** A dataset of one line. *)
Lemma init_rejects_constant_column_witness :
  __init__ [csv_line "ZP_CUST1" "Milk" "F" "Pune" "Dairy" "UPI" "18-25" "Gold"
              2 2 2 1 1 1]
  = Raise ValueError.
Proof.
  apply (init_rejects_constant_column _ "Price" (@Price)).
  - left. reflexivity.
  - intros r r' [<- | []] [<- | []]. reflexivity.
Defined.

(** The grocery: the bread and the chips differ in every numeric column. *)
Lemma init_returns_witness : exists self, __init__ grocery = Ok self.
Proof.
  apply (init_returns grocery).
  - discriminate.
  - intros name col Hin.
    exists (mk_row "ZP_CUST1" "Bread" "F" "Pune" "Bakery" "UPI" "18-25" "Gold"
              2 1 1 1 1 1),
           (mk_row "ZP_CUST3" "Chips" "F" "Mumbai" "Snacks" "Cash" "36-45" "Bronze"
              1 2 2 2 2 2).
    split; [left; reflexivity |]. split; [right; right; left; reflexivity |].
    cbn in Hin. one_of_the_rows Hin; cbn; lra.
Defined.

(** On the grocery. *)
Lemma feature_table_products_witness :
  (forall p, In p (map fst (product_features grocery_system)) <->
             In p (map Product_ID (dropna grocery))) /\
  (List.length (product_features grocery_system) <= List.length (dropna grocery))%nat.
Proof.
  exact (feature_table_products grocery grocery_system grocery_init).
Defined.

(** On the grocery: the two lines of the milk agree. *)
Lemma table_labels_distinct_witness :
  NoDup (map fst (product_features grocery_system)).
Proof.
  apply (table_labels_distinct grocery grocery_system grocery_init).
  intros s s' Hs Hs' Hid. cbn in Hs, Hs'.
  destruct Hs as [<- | [<- | [<- | [<- | []]]]];
    destruct Hs' as [<- | [<- | [<- | [<- | []]]]];
    cbn in Hid; try discriminate Hid;
    (split; [reflexivity |]); intros name col Hin; cbn in Hin;
    one_of_the_rows Hin; reflexivity.
Defined.

(** On the grocery: the bread and the milk. *)
Lemma similarities_nonnegative_witness :
  0 <= entry (product_similarity_df grocery_system) 0 1 <= 1.
Proof.
  apply (similarities_nonnegative grocery grocery_system grocery_init 0 1).
  - cbn. apply Nat.lt_0_succ.
  - cbn. apply (proj1 (Nat.succ_lt_mono 0 2)). apply Nat.lt_0_succ.
Defined.

(** On the grocery: the cities. *)
Lemma stored_encoders_number_values_witness :
  exists le,
    dict_get (snd (_encode_features (dropna grocery))) "City" = Ok le /\
    StronglySorted (fun a b => String.compare a b = Lt) (LabelEncoder.classes_ le) /\
    NoDup (LabelEncoder.classes_ le) /\
    (forall v, In v (LabelEncoder.classes_ le) <-> In v (map City (dropna grocery))) /\
    (forall i r, nth_error (dropna grocery) i = Some r ->
       exists r',
         nth_error (fst (_encode_features (dropna grocery))) i = Some r' /\
         nth_error (LabelEncoder.classes_ le) (City r') = Some (City r)) /\
    (forall i j r s r' s',
       nth_error (dropna grocery) i = Some r -> nth_error (dropna grocery) j = Some s ->
       nth_error (fst (_encode_features (dropna grocery))) i = Some r' ->
       nth_error (fst (_encode_features (dropna grocery))) j = Some s' ->
       (String.compare (City r) (City s) = Lt <-> (City r' < City s')%nat)).
Proof.
  apply (stored_encoders_number_values (dropna grocery) "City" (@City)).
  right. left. reflexivity.
Defined.

(** On the grocery: the first customer bought the bread and the milk. *)
Lemma customer_returns_when_purchases_do_witness :
  exists answer,
    recommend_products_for_customer insertion_order "ZP_CUST1" 2 grocery_system
    = (Ok answer, grocery_system).
Proof.
  apply (customer_returns_when_purchases_do grocery grocery_system grocery_init
           insertion_order "ZP_CUST1" 2).
  intros p Hp.
  change (map Product_ID (rows_of_customer "ZP_CUST1" (df grocery_system)))
    with ["Bread"; "Milk"] in Hp.
  destruct Hp as [<- | [<- | []]].
  - rewrite grocery_recommend_Bread. eexists. reflexivity.
  - rewrite grocery_recommend_Milk. eexists. reflexivity.
Defined.

(** On the dairy: the third customer bought the bread. *)
Lemma customer_raises_what_a_purchase_raises_witness :
  (ValueError = TypeError \/ ValueError = ValueError) /\
  exists p,
    In p (map Product_ID (rows_of_customer "ZP_CUST3" (dropna dairy))) /\
    fst (recommend_products p 1 dairy_system) = Raise ValueError.
Proof.
  apply (customer_raises_what_a_purchase_raises dairy dairy_system dairy_init
           insertion_order "ZP_CUST3" 1 ValueError).
  rewrite dairy_customer_3. reflexivity.
Defined.

(** On the grocery: the first customer, a set in insertion order. *)
Lemma categories_of_recommended_witness :
  exists lines,
    lines = drop_duplicates String.eqb Product_ID
              (filter (fun r => mem (Product_ID r) ["Milk"; "Chips"]) (dropna grocery)) /\
    incl lines (dropna grocery) /\
    ["Dairy"; "Snacks"] = map Product_Category lines /\
    Permutation (map Product_ID lines) ["Milk"; "Chips"].
Proof.
  apply (categories_of_recommended grocery grocery_system grocery_init
           insertion_order insertion_order_spec "ZP_CUST1" 2
           ["Milk"; "Chips"] ["Dairy"; "Snacks"] "Pune" "18-25").
  rewrite grocery_customer_1. reflexivity.
Defined.

(** On the grocery: the second customer bought milk only. *)
Lemma single_product_not_recommended_witness :
  ~ In "Milk" ["Bread"; "Chips"].
Proof.
  apply (single_product_not_recommended grocery grocery_system grocery_init
           reversed_order reversed_order_spec "ZP_CUST2" "Milk" 2
           ["Bread"; "Chips"] ["Bakery"; "Snacks"] "Delhi" "26-35").
  - intros r Hr.
    change (rows_of_customer "ZP_CUST2" (df grocery_system))
      with [encoded "ZP_CUST2" "Milk" 1 0 1 0 1 2 2 2 2 1 1 1] in Hr.
    destruct Hr as [<- | []]. reflexivity.
  - rewrite grocery_customer_2. reflexivity.
Defined.

(** On the grocery: the page of the second customer. *)
Lemma page_prints_the_answer_witness :
  snd (on_get_recommendations insertion_order "ZP_CUST2" grocery_system)
    = grocery_system /\
  exists prods cats city age,
    fst (recommend_products_for_customer insertion_order "ZP_CUST2" 5 grocery_system)
      = Ok (prods, cats, city, age) /\
    ((prods = [] /\
      exists message,
        Details "ZP_CUST2" "Delhi" "26-35" [("Chips", "Bakery"); ("Bread", "Snacks")]
        = Warning message) \/
     (prods <> [] /\
      exists lines,
        Details "ZP_CUST2" "Delhi" "26-35" [("Chips", "Bakery"); ("Bread", "Snacks")]
        = Details "ZP_CUST2" city age lines /\
        map fst lines = prods /\ map snd lines = cats)).
Proof.
  apply (page_prints_the_answer grocery grocery_system grocery_init
           insertion_order insertion_order_spec "ZP_CUST2").
  unfold on_get_recommendations, bind. rewrite grocery_customer_2_page. reflexivity.
Defined.

End MoreInstances.
